(** * Deep Research Streamlit app (app.py): a shallow embedding and its properties

    The script app.py is a linear pipeline over a language-model provider:
    credential lookup, clarifying questions, planning, web searches, a
    coverage check, one optional round of further searches, and a report.

    The embedding follows the script function by function.  Provider calls,
    memoisation ([st.cache_data]) and the widgets the script draws are
    effects on an explicit [state]; Python exceptions are the [Raise] branch
    of [result].

    What is taken from outside the script is a parameter ([runtime]): the
    provider, [json.loads], [json.dumps] and the printed form of values.
    One run of the script is modelled, from its first line to its last; the
    reruns Streamlit makes on each interaction are runs from the state the
    previous one left.  Left out: the construction of the client
    ([OpenAI()]), the spinners, and errors of the file system when [.env]
    is read. *)

From Stdlib Require Import String Ascii List ZArith Bool Lia.
From stdpp Require Import base option list strings gmap.
Import ListNotations.
Local Open Scope string_scope.

(** ** Python strings

    A [str] is modelled by Rocq's [string]: the bytes of the UTF-8 encoding
    of the text.  [strip] removes every character Python's [str.isspace]
    accepts, the ones outside ASCII by their encodings.  [lower] moves the
    ASCII letters and leaves the other bytes alone; on non-ASCII text
    Python's [lower] knows more letters, none of which becomes one of the
    letters [y], [e], [s]. *)

Module PyStr.

(** [c.lower()] on one character: [A]..[Z] move to [a]..[z]. *)
Definition lower_ascii (c : ascii) : ascii :=
  let n := nat_of_ascii c in
  if (65 <=? n)%nat && (n <=? 90)%nat then ascii_of_nat (n + 32) else c.

(** [s.lower()]. *)
Fixpoint lower (s : string) : string :=
  match s with
  | EmptyString => EmptyString
  | String c s' => String (lower_ascii c) (lower s')
  end.

(** [s.startswith(p)]. *)
Definition startswith (p s : string) : bool := String.prefix p s.

(** [needle in hay]: [needle] starts at some position of [hay]. *)
Fixpoint contains (needle hay : string) : bool :=
  match hay with
  | EmptyString => startswith needle EmptyString
  | String _ hay' => startswith needle hay || contains needle hay'
  end.

(** The one-byte characters [str.strip()] removes: tab, line feed, vertical
    tab, form feed, carriage return, the separators 28..31 and the space. *)
Definition is_space (c : ascii) : bool :=
  let n := nat_of_ascii c in
  ((9 <=? n)%nat && (n <=? 13)%nat) || ((28 <=? n)%nat && (n <=? 32)%nat).

(** The two-byte characters it removes: U+0085 (C2 85) and U+00A0 (C2 A0). *)
Definition is_space2 (a b : ascii) : bool :=
  (nat_of_ascii a =? 194)%nat
  && ((nat_of_ascii b =? 133)%nat || (nat_of_ascii b =? 160)%nat).

(** The three-byte characters it removes: U+1680 (E1 9A 80), U+2000..U+200A
    (E2 80 80..8A), U+2028, U+2029, U+202F (E2 80 A8, A9, AF), U+205F
    (E2 81 9F) and U+3000 (E3 80 80). *)
Definition is_space3 (a b c : ascii) : bool :=
  let x := nat_of_ascii a in
  let y := nat_of_ascii b in
  let z := nat_of_ascii c in
  ((x =? 225)%nat && (y =? 154)%nat && (z =? 128)%nat)
  || ((x =? 226)%nat && (y =? 128)%nat
      && (((128 <=? z)%nat && (z <=? 138)%nat)
          || (z =? 168)%nat || (z =? 169)%nat || (z =? 175)%nat))
  || ((x =? 226)%nat && (y =? 129)%nat && (z =? 159)%nat)
  || ((x =? 227)%nat && (y =? 128)%nat && (z =? 128)%nat).

(** [s.lstrip()]: the white space at the start goes, character by
    character. *)
Fixpoint lstrip (s : string) : string :=
  match s with
  | EmptyString => EmptyString
  | String a s1 =>
      if is_space a then lstrip s1
      else match s1 with
           | String b s2 =>
               if is_space2 a b then lstrip s2
               else match s2 with
                    | String c s3 => if is_space3 a b c then lstrip s3 else s
                    | EmptyString => s
                    end
           | EmptyString => s
           end
  end.

(** [s.rstrip()]: the text up to the first place from which only white
    space follows. *)
Fixpoint rstrip (s : string) : string :=
  match s with
  | EmptyString => EmptyString
  | String c s' =>
      match lstrip s with
      | EmptyString => EmptyString
      | _ => String c (rstrip s')
      end
  end.

(** [s.strip()]. *)
Definition strip (s : string) : string := rstrip (lstrip s).

(** [s.split(sep, 1)] for a one-character [sep]: the text before the first
    [sep] and the text after it, or [s] alone when [sep] does not occur. *)
Fixpoint split_once (sep : ascii) (s : string) : list string :=
  match s with
  | EmptyString => [EmptyString]
  | String c s' =>
      if Ascii.eqb c sep then [EmptyString; s']
      else match split_once sep s' with
           | hd :: tl => String c hd :: tl
           | [] => [String c EmptyString]
           end
  end.

(** [s.split(sep)] for a one-character [sep]: never the empty list. *)
Fixpoint split (sep : ascii) (s : string) : list string :=
  match s with
  | EmptyString => [EmptyString]
  | String c s' =>
      if Ascii.eqb c sep then EmptyString :: split sep s'
      else match split sep s' with
           | hd :: tl => String c hd :: tl
           | [] => [String c EmptyString]
           end
  end.

(** Truth value of a string: [bool(s)]. *)
Definition truthy (s : string) : bool :=
  match s with EmptyString => false | _ => true end.

End PyStr.

(** ** Python values and exceptions *)

(** What [json.loads] can return, which is also every value the script
    passes around as plan, goal or query.  A float is kept by the text
    [repr] gives for it, one text for each float whatever the literal it
    was read from: nothing in the script computes with one.  An object holds
    the items of the dict in insertion order, each key once. *)
#[warnings="-register-all"]
Inductive json : Type :=
| JNull
| JBool (b : bool)
| JInt (n : Z)
| JFloat (repr : string)
| JStr (s : string)
| JArr (items : list json)
| JObj (members : list (string * json)).

(** The exceptions the script can meet. *)
Inductive exn : Type :=
| IndexError
| AttributeError
| TypeError
| KeyError
| ValueError
| RecursionError
| JSONDecodeError
| APIError (msg : string)
| StopException.

Inductive result (A : Type) : Type :=
| Ok (a : A)
| Raise (e : exn).
Arguments Ok {A} a.
Arguments Raise {A} e.

(** [d[key]] on a value: a dict looks the key up, anything else as used by
    the script (a list, a string, a number, [None]) refuses a string key. *)
Fixpoint assoc_get (key : string) (members : list (string * json)) : option json :=
  match members with
  | [] => None
  | (k, v) :: rest => if String.eqb k key then Some v else assoc_get key rest
  end.

Definition py_getitem (v : json) (key : string) : result json :=
  match v with
  | JObj members =>
      match assoc_get key members with
      | Some x => Ok x
      | None => Raise KeyError
      end
  | _ => Raise TypeError
  end.

(** The characters of a string, as iterating a [str] yields them: one
    string per character, that is a byte together with the continuation
    bytes (10xxxxxx, 128..191) that follow it.  [chars_from s] gives the
    continuation bytes [s] starts with and the characters after them. *)
Definition is_continuation (c : ascii) : bool :=
  let n := nat_of_ascii c in (128 <=? n)%nat && (n <=? 191)%nat.

Fixpoint chars_from (s : string) : string * list string :=
  match s with
  | EmptyString => (EmptyString, [])
  | String c s' =>
      let '(tail, rest) := chars_from s' in
      if is_continuation c then (String c tail, rest)
      else (EmptyString, String c tail :: rest)
  end.

Definition chars (s : string) : list json :=
  let '(tail, rest) := chars_from s in
  map JStr (match tail with EmptyString => rest | _ => tail :: rest end).

(** [for q in v]: a list yields its items, a dict its keys, a string its
    characters; the other values are not iterable. *)
Definition py_iter (v : json) : result (list json) :=
  match v with
  | JArr items => Ok items
  | JObj members => Ok (map (fun kv => JStr (fst kv)) members)
  | JStr s => Ok (chars s)
  | _ => Raise TypeError
  end.

(** Equality of values is decidable; the memoisation below compares
    arguments with it. *)
Lemma json_eq_dec : forall x y : json, {x = y} + {x <> y}.
Proof.
  fix IH 1.
  intros x y; destruct x, y; try (right; discriminate).
  - left; reflexivity.
  - destruct (Bool.bool_dec b b0); [left | right]; congruence.
  - destruct (Z.eq_dec n n0); [left | right]; congruence.
  - destruct (string_dec repr repr0); [left | right]; congruence.
  - destruct (string_dec s s0); [left | right]; congruence.
  - assert (D : {items = items0} + {items <> items0}).
    { revert items0; induction items as [|a l IHl]; intros [|b l'];
        try (right; discriminate); [left; reflexivity|].
      destruct (IH a b); [|right; congruence].
      destruct (IHl l'); [left | right]; congruence. }
    destruct D; [left | right]; congruence.
  - assert (D : {members = members0} + {members <> members0}).
    { revert members0; induction members as [|[k a] l IHl]; intros [|[k' b] l'];
        try (right; discriminate); [left; reflexivity|].
      destruct (string_dec k k'); [|right; congruence].
      destruct (IH a b); [|right; congruence].
      destruct (IHl l'); [left | right]; congruence. }
    destruct D; [left | right]; congruence.
Defined.

#[global] Instance json_eq_decision : EqDecision json := json_eq_dec.

(** ** The provider: requests and responses *)

Inductive role : Type := Developer | Assistant | User.

(** The [input] of a request: a string, or a list of role/content pairs. *)
Inductive request_input : Type :=
| InputText (text : string)
| InputMessages (messages : list (role * string)).

(** A tool declaration; the script declares [{"type": "web_search"}] only. *)
Inductive tool : Type := WebSearch.

(** The keyword arguments of [client.responses.create]. *)
Record request : Type := mkRequest {
  req_model : string;
  req_input : request_input;
  req_instructions : string;
  req_tools : option (list tool);
  req_previous_response_id : option string
}.

(** One element of an output item's [content]: a text part has [text], a
    refusal part has none. *)
Record content_part : Type := mkPart { part_text : option string }.

(** An attribute that an object may lack, or have with the value [None],
    or have with a value: the [content] of a reasoning item can be [None]. *)
Inductive attr (A : Type) : Type :=
| Absent
| Null
| Has (a : A).
Arguments Absent {A}.
Arguments Null {A}.
Arguments Has {A} a.

(** One element of [response.output], with the fields as the types of the
    provider's library have them.  [id] is a string on every item that has
    a [content], and [text] is a string on every part that has it: for
    these two, [None] below stands for an object without the attribute
    ([hasattr] is false).  [content] is missing (a web-search call item has
    an [id] and no [content]), or [None] (a reasoning item), or a list of
    parts (a message, a reasoning item). *)
Record output_item : Type := mkItem {
  item_id : option string;
  item_content : attr (list content_part)
}.

Record response : Type := mkResponse {
  resp_id : string;
  resp_output : list output_item
}.

(** The dict [run_search] returns: keys [query], [resp_id] ([None] when
    absent) and [research_output]. *)
Record search_result : Type := mkSearchResult {
  sr_query : json;
  sr_resp_id : option string;
  sr_research_output : string
}.

#[global] Instance role_eq_dec : EqDecision role.
Proof. solve_decision. Defined.
#[global] Instance tool_eq_dec : EqDecision tool.
Proof. solve_decision. Defined.
#[global] Instance search_result_eq_dec : EqDecision search_result.
Proof. solve_decision. Defined.

(** What the script takes from outside its own text: the [json] module,
    the text Python prints for values inside f-strings, and the provider.
    [json_loads] returns the value read or raises what [json.loads] raises:
    [JSONDecodeError] on a text that is not JSON, [ValueError] on an integer
    of more digits than the interpreter converts, [RecursionError] on
    nesting too deep.  The provider answers a request knowing the requests
    made before it. *)
Record runtime : Type := mkRuntime {
  json_loads : string -> result json;
  json_dumps : list search_result -> string;
  py_repr : json -> string;
  repr_strs : list string -> string;
  repr_output : list output_item -> string;
  provider : list request -> request -> result response
}.

(** ** Effects: the trace, the memo tables, exceptions *)

(** A call of one of the six memoised functions, with the arguments that
    matter below, and what such a call returned.  These marks are not in the
    script: they record that the call site was reached and what came back,
    whether or not the memo table answered.  A call that raises leaves no
    return mark. *)
Inductive call : Type :=
| CallClarify (topic : string)
| CallPlan (answers questions : list string) (topic clarify_id : string)
| CallSearch (q : json)
| CallEvaluate (collected : list search_result) (goal : json)
| CallMoreQueries (collected : list search_result) (goal : json) (plan_id : string)
| CallReport (collected : list search_result) (goal : json).

Inductive returned : Type :=
| RetQuestions (questions : list string) (id : string)
| RetPlan (plan : json) (id : string)
| RetSearch (r : search_result)
| RetEnough (enough : bool)
| RetQueries (queries : json)
| RetReport (text : string).

(** What the script shows.  Labels built from a number keep the number:
    [UiTextInput i q] is [st.text_input(f"Q{i+1}: {q}", key=f"answer_{i}")],
    [UiProgress k n] is the bar at [k / n] with text
    [f'Completed {k} of {n} searches'], [UiAnswer i q a] is the markdown line
    of question [i] and its answer. *)
Inductive ui_event : Type :=
| UiTitle (text : string)
| UiWrite (text : string)
| UiError (text : string)
| UiSuccess (text : string)
| UiInfo (text : string)
| UiWarning (text : string)
| UiMarkdown (text : string)
| UiTopicForm
| UiTextInput (i : nat) (question : string)
| UiRunButton
| UiProgressStart
| UiProgress (done total : nat)
| UiProgressEmpty
| UiAnswer (i : nat) (question answer : string).

Inductive event : Type :=
| EvCall (c : call)
| EvReturn (r : returned)
| EvGateway (r : request)
| EvUi (u : ui_event).

(** Keys of the memo tables: the arguments [st.cache_data] hashes, that is
    all but [_client]. *)
Definition clarify_key : Type := string * string * string.
Definition plan_key : Type :=
  list string * list string * string * string * string * string.
Definition search_key : Type := json * string * string * list tool.
Definition evaluate_key : Type := list search_result * json * string * string.
Definition more_key : Type :=
  list search_result * json * string * string * string.
Definition report_key : Type := list search_result * json * string * string.

Record state : Type := mkState {
  trace : list event;
  memo_clarify : list (clarify_key * (list string * string));
  memo_plan : list (plan_key * (json * string));
  memo_search : list (search_key * search_result);
  memo_evaluate : list (evaluate_key * bool);
  memo_more : list (more_key * json);
  memo_report : list (report_key * string)
}.

(** A fresh process: nothing shown, nothing asked, nothing memoised. *)
Definition fresh : state := mkState [] [] [] [] [] [] [].

(** A computation of the script: it ends with a value or an exception, and
    in both cases leaves a state. *)
Definition M (A : Type) : Type := state -> result A * state.

Definition ret {A} (a : A) : M A := fun s => (Ok a, s).

Definition bind {A B} (m : M A) (k : A -> M B) : M B :=
  fun s =>
    match m s with
    | (Ok a, s') => k a s'
    | (Raise e, s') => (Raise e, s')
    end.

Definition raise {A} (e : exn) : M A := fun s => (Raise e, s).

Definition lift {A} (r : result A) : M A := fun s => (r, s).

Declare Scope script_scope.
Delimit Scope script_scope with script.
Notation "x <- m ;; k" := (bind m (fun x => k))
  (at level 20, m at level 99, k at level 200, only parsing) : script_scope.
Notation "' pat <- m ;; k" := (bind m (fun x => match x with pat => k end))
  (at level 20, pat pattern, m at level 99, k at level 200, only parsing)
  : script_scope.
Notation "m ;; k" := (bind m (fun _ => k))
  (at level 100, k at level 200, right associativity, only parsing)
  : script_scope.
Local Open Scope script_scope.

#[global] Instance result_ret : MRet result := fun A a => Ok a.
#[global] Instance result_bind : MBind result :=
  fun A B k r => match r with Ok a => k a | Raise e => Raise e end.

Definition emit (e : event) : M unit :=
  fun s =>
    (Ok tt, mkState (trace s ++ [e]) (memo_clarify s) (memo_plan s)
              (memo_search s) (memo_evaluate s) (memo_more s) (memo_report s)).

Definition show (u : ui_event) : M unit := emit (EvUi u).

(** The requests made so far, oldest first. *)
Fixpoint requests_of (t : list event) : list request :=
  match t with
  | [] => []
  | EvGateway r :: t' => r :: requests_of t'
  | _ :: t' => requests_of t'
  end.

(** The marks so far, oldest first: calls and returns. *)
Inductive mark : Type :=
| Called (c : call)
| Returned (r : returned).

Fixpoint marks_of (t : list event) : list mark :=
  match t with
  | [] => []
  | EvCall c :: t' => Called c :: marks_of t'
  | EvReturn r :: t' => Returned r :: marks_of t'
  | _ :: t' => marks_of t'
  end.

(** What was shown so far, oldest first. *)
Fixpoint shown_of (t : list event) : list ui_event :=
  match t with
  | [] => []
  | EvUi u :: t' => u :: shown_of t'
  | _ :: t' => shown_of t'
  end.

(** ** Memoisation: [@st.cache_data]

    A decorated function looks its arguments up; on a hit the stored value
    is returned and the body does not run; on a miss the body runs and a
    value it returns is stored.  An exception stores nothing. *)
Fixpoint memo_get {K V} `{EqDecision K} (k : K) (table : list (K * V)) : option V :=
  match table with
  | [] => None
  | (k', v) :: rest => if decide (k' = k) then Some v else memo_get k rest
  end.

Definition memoised {K V} `{EqDecision K}
    (get : state -> list (K * V))
    (put : list (K * V) -> state -> state) (k : K) (body : M V) : M V :=
  fun s =>
    match memo_get k (get s) with
    | Some v => (Ok v, s)
    | None =>
        match body s with
        | (Ok v, s') => (Ok v, put ((k, v) :: get s') s')
        | (Raise e, s') => (Raise e, s')
        end
    end.

Definition cached {K V} `{EqDecision K}
    (called : call) (ret_mark : V -> returned)
    (get : state -> list (K * V))
    (put : list (K * V) -> state -> state) (k : K) (body : M V) : M V :=
  emit (EvCall called) ;;
  v <- memoised get put k body ;;
  emit (EvReturn (ret_mark v)) ;;
  ret v.

Definition put_clarify t (s : state) : state :=
  mkState (trace s) t (memo_plan s) (memo_search s) (memo_evaluate s)
    (memo_more s) (memo_report s).
Definition put_plan t (s : state) : state :=
  mkState (trace s) (memo_clarify s) t (memo_search s) (memo_evaluate s)
    (memo_more s) (memo_report s).
Definition put_search t (s : state) : state :=
  mkState (trace s) (memo_clarify s) (memo_plan s) t (memo_evaluate s)
    (memo_more s) (memo_report s).
Definition put_evaluate t (s : state) : state :=
  mkState (trace s) (memo_clarify s) (memo_plan s) (memo_search s) t
    (memo_more s) (memo_report s).
Definition put_more t (s : state) : state :=
  mkState (trace s) (memo_clarify s) (memo_plan s) (memo_search s)
    (memo_evaluate s) t (memo_report s).
Definition put_report t (s : state) : state :=
  mkState (trace s) (memo_clarify s) (memo_plan s) (memo_search s)
    (memo_evaluate s) (memo_more s) t.

(** ** Reading a response *)

(** [l[i]]. *)
Definition index {A} (l : list A) (i : nat) : result A :=
  match l !! i with
  | Some x => Ok x
  | None => Raise IndexError
  end.

(** [obj.attr], where [None] stands for a missing attribute. *)
Definition getattr {A} (field : option A) : result A :=
  match field with
  | Some x => Ok x
  | None => Raise AttributeError
  end.

(** [hasattr(obj, 'attr')]. *)
Definition hasattr {A} (field : option A) : bool :=
  match field with
  | Some _ => true
  | None => false
  end.

(** [hasattr(obj, 'attr')] for an attribute that can be [None]. *)
Definition present {A} (field : attr A) : bool :=
  match field with
  | Absent => false
  | Null | Has _ => true
  end.

(** [item.content[0].text]: [None] refuses the subscript. *)
Definition content_text (item : output_item) : result string :=
  match item_content item with
  | Absent => Raise AttributeError
  | Null => Raise TypeError
  | Has content =>
      part ← index content 0;
      getattr (part_text part)
  end.

(** [response.output[0].content[0].text]. *)
Definition first_text (r : response) : result string :=
  item ← index (resp_output r) 0;
  content_text item.

(** Line feed and double quote, for the prompts. *)
Definition nl : string := String (ascii_of_nat 10) EmptyString.
Definition dq : string := String (ascii_of_nat 34) EmptyString.

(** ** The host of the process: where a credential can come from *)

(** A value of the secrets file: a string, or something else (a number, a
    boolean, a date, a list, a table), of which the resolver uses the truth
    value only. *)
Inductive secret : Type :=
| SecretText (s : string)
| SecretOther (truth : bool).

(** [st.secrets] as the resolver sees it: the test on it raises (no secrets
    file), or the key is absent, or it has a value. *)
Inductive secrets_store : Type :=
| SecretsUnavailable
| SecretsWithout
| SecretsWith (value : secret).

(** [host_environ] is [os.environ] as the resolver reads it, that is once
    [st.secrets] has been consulted; [host_dotenv] holds the lines of
    [.env] as iterating the file yields them, when the file exists. *)
Record host : Type := mkHost {
  host_secrets : secrets_store;
  host_environ : gmap string string;
  host_dotenv : option (list string)
}.

(** Truth value of a string or [None]. *)
Definition truthy_opt (o : option string) : bool :=
  match o with
  | Some s => PyStr.truthy s
  | None => false
  end.

(** Truth value of what the variable [api_key] holds. *)
Definition truthy_key (o : option secret) : bool :=
  match o with
  | Some (SecretText s) => PyStr.truthy s
  | Some (SecretOther truth) => truth
  | None => false
  end.

(** The loop over the lines of [.env]: the first line that starts with
    [OPENAI_API_KEY=] sets the key and ends the loop. *)
Fixpoint scan_dotenv (lines : list string) (api_key : option secret)
  : result (option secret) :=
  match lines with
  | [] => Ok api_key
  | line :: rest =>
      if PyStr.startswith "OPENAI_API_KEY=" line then
        value ← index (PyStr.split_once "="%char (PyStr.strip line)) 1;
        Ok (Some (SecretText value))
      else scan_dotenv rest api_key
  end.

(** Whether a string holds the character NUL, which [os.environ] refuses. *)
Fixpoint has_nul (s : string) : bool :=
  match s with
  | EmptyString => false
  | String c s' => (nat_of_ascii c =? 0)%nat || has_nul s'
  end.

(** [os.environ['OPENAI_API_KEY'] = api_key]: a string without NUL is
    stored; a string with NUL raises [ValueError], a value that is not a
    string [TypeError]. *)
Definition environ_set (api_key : secret) (environ : gmap string string)
  : result (gmap string string) :=
  match api_key with
  | SecretText k =>
      if has_nul k then Raise ValueError
      else Ok (<["OPENAI_API_KEY" := k]> environ)
  | SecretOther _ => Raise TypeError
  end.

(** [set_api_key_env()]: the key, and the environment it leaves.  What is
    returned is a string or [None]: a secret that is not a string is
    replaced by the environment variable when it is falsy, and refused by
    [os.environ] when it is truthy, so that the last case below is never
    met with a value. *)
Definition set_api_key_env (h : host)
  : result (option string * gmap string string) :=
  let api_key :=
    match host_secrets h with
    | SecretsWith v => Some v
    | SecretsWithout | SecretsUnavailable => None
    end in
  let api_key :=
    if negb (truthy_key api_key)
    then SecretText <$> (host_environ h !! "OPENAI_API_KEY")
    else api_key in
  api_key ←
    (match host_dotenv h with
     | Some lines =>
         if negb (truthy_key api_key) then scan_dotenv lines api_key
         else Ok api_key
     | None => Ok api_key
     end);
  environ ←
    (if truthy_key api_key then
       match api_key with
       | Some v => environ_set v (host_environ h)
       | None => Ok (host_environ h)
       end
     else Ok (host_environ h));
  match api_key with
  | Some (SecretText k) => Ok (Some k, environ)
  | Some (SecretOther _) | None => Ok (None, environ)
  end.

(** ** The functions of the script *)

Section Script.

Context (rt : runtime).

(** [str(v)] as an f-string inserts it: a string as it is, another value
    as Python prints it. *)
Definition fmt (v : json) : string :=
  match v with
  | JStr s => s
  | _ => py_repr rt v
  end.

(** [_client.responses.create(...)]: the request is noted, the provider
    answers or fails. *)
Definition responses_create (req : request) : M response :=
  fun s =>
    let answer := provider rt (requests_of (trace s)) req in
    (answer, snd (emit (EvGateway req) s)).

(** The keyword arguments each function passes to
    [_client.responses.create] are named [.._request]; the function
    bodies follow. *)
Definition clarify_request (topic developer_message model_mini : string)
  : request :=
  let prompt_to_clarify :=
    nl ++ "Ask 5 numbered clarifying question to the user about the topic: "
       ++ topic ++ "." ++ nl
       ++ "The goal of the questions is to understand the intended purpose of the research."
       ++ nl ++ "Reply only with the questions." ++ nl in
  mkRequest model_mini (InputText prompt_to_clarify) developer_message
    None None.

Definition get_clarifying_questions_body
    (topic developer_message model_mini : string)
  : M (list string * string) :=
  clarify <- responses_create
               (clarify_request topic developer_message model_mini) ;;
  text <- lift (first_text clarify) ;;
  ret (PyStr.split (ascii_of_nat 10) text, resp_id clarify).

Definition get_clarifying_questions
    (topic developer_message model_mini : string)
  : M (list string * string) :=
  cached (CallClarify topic) (fun qi => RetQuestions (fst qi) (snd qi))
    memo_clarify put_clarify
    (topic, developer_message, model_mini)
    (get_clarifying_questions_body topic developer_message model_mini).

Definition plan_request
    (answers questions : list string)
    (topic developer_message model clarify_id : string)
  : request :=
  let prompt_goals :=
    nl ++ "Using the user answers " ++ repr_strs rt answers
       ++ " to questions " ++ repr_strs rt questions
       ++ ", write a goal sentence and 5 web search queries for the research about "
       ++ topic ++ nl
       ++ "Output: A json list of 5 web search queries and a goal sentence that wil reach it"
       ++ nl
       ++ "Format: {" ++ dq ++ "goal" ++ dq ++ ":" ++ dq ++ "..." ++ dq ++ ", "
       ++ dq ++ "queries" ++ dq ++ ":[" ++ dq ++ "q1" ++ dq ++ ",.....]}" ++ nl in
  mkRequest model (InputText prompt_goals) developer_message None
    (Some clarify_id).

Definition get_goal_and_queries_body
    (answers questions : list string)
    (topic developer_message model clarify_id : string)
  : M (json * string) :=
  goal_and_queries <- responses_create
                        (plan_request answers questions topic
                           developer_message model clarify_id) ;;
  text <- lift (first_text goal_and_queries) ;;
  plan <- lift (json_loads rt text) ;;
  ret (plan, resp_id goal_and_queries).

Definition get_goal_and_queries
    (answers questions : list string)
    (topic developer_message model clarify_id : string)
  : M (json * string) :=
  cached (CallPlan answers questions topic clarify_id)
    (fun pi => RetPlan (fst pi) (snd pi)) memo_plan put_plan
    (answers, questions, topic, developer_message, model, clarify_id)
    (get_goal_and_queries_body answers questions topic developer_message
       model clarify_id).

Definition search_request
    (q : json) (developer_message model : string) (tools : list tool)
  : request :=
  mkRequest model (InputText ("seach: " ++ fmt q)) developer_message
    (Some tools) None.

Definition run_search_body
    (q : json) (developer_message model : string) (tools : list tool)
  : M search_result :=
  web_search <- responses_create
                  (search_request q developer_message model tools) ;;
  let output := resp_output web_search in
  if (1 <? length output)%nat
     && match output !! 1%nat with
        | Some item => hasattr (item_id item) && present (item_content item)
        | None => false
        end
  then
    item <- lift (index output 1) ;;
    id <- lift (getattr (item_id item)) ;;
    text <- lift (content_text item) ;;
    ret (mkSearchResult q (Some id) text)
  else
    ret (mkSearchResult q None
           ("Error: Unexpected response format: " ++ repr_output rt output)).

Definition run_search
    (q : json) (developer_message model : string) (tools : list tool)
  : M search_result :=
  cached (CallSearch q) RetSearch memo_search put_search
    (q, developer_message, model, tools)
    (run_search_body q developer_message model tools).

Definition evaluate_request
    (collected : list search_result) (goal : json)
    (developer_message model : string)
  : request :=
  mkRequest model
    (InputMessages
       [ (Developer, "Reasearch goal: " ++ fmt goal);
         (Assistant, json_dumps rt collected);
         (User, "Does this information will fully satisfy the goal? Answer Yes or No only!") ])
    developer_message None None.

Definition evaluate_body
    (collected : list search_result) (goal : json)
    (developer_message model : string)
  : M bool :=
  review <- responses_create
              (evaluate_request collected goal developer_message model) ;;
  text <- lift (first_text review) ;;
  ret (PyStr.contains "yes" (PyStr.lower text)).

Definition evaluate
    (collected : list search_result) (goal : json)
    (developer_message model : string)
  : M bool :=
  cached (CallEvaluate collected goal) RetEnough memo_evaluate put_evaluate
    (collected, goal, developer_message, model)
    (evaluate_body collected goal developer_message model).

Definition more_request
    (collected : list search_result) (goal : json)
    (developer_message model goal_and_queries_id : string)
  : request :=
  mkRequest model
    (InputMessages
       [ (Assistant, "Current data: " ++ json_dumps rt collected);
         (Developer, "Reasearch goal: " ++ fmt goal
            ++ ". write 5 other web searchs to achieve the goal") ])
    developer_message None (Some goal_and_queries_id).

Definition get_more_queries_body
    (collected : list search_result) (goal : json)
    (developer_message model goal_and_queries_id : string)
  : M json :=
  more_searches <- responses_create
                     (more_request collected goal developer_message model
                        goal_and_queries_id) ;;
  text <- lift (first_text more_searches) ;;
  lift (json_loads rt text).

Definition get_more_queries
    (collected : list search_result) (goal : json)
    (developer_message model goal_and_queries_id : string)
  : M json :=
  cached (CallMoreQueries collected goal goal_and_queries_id) RetQueries
    memo_more put_more
    (collected, goal, developer_message, model, goal_and_queries_id)
    (get_more_queries_body collected goal developer_message model
       goal_and_queries_id).

Definition report_request
    (collected : list search_result) (goal : json)
    (developer_message model : string)
  : request :=
  mkRequest model
    (InputMessages
       [ (Developer,
          "Write a complete and detailed report about reasearch goal: "
            ++ fmt goal ++ " "
            ++ "Cite sources inline using  [n] and append a reference "
            ++ "list mapping [n] to url");
         (Assistant, json_dumps rt collected) ])
    developer_message None None.

Definition write_report_body
    (collected : list search_result) (goal : json)
    (developer_message model : string)
  : M string :=
  report <- responses_create
              (report_request collected goal developer_message model) ;;
  lift (first_text report).

Definition write_report
    (collected : list search_result) (goal : json)
    (developer_message model : string)
  : M string :=
  cached (CallReport collected goal) RetReport memo_report put_report
    (collected, goal, developer_message, model)
    (write_report_body collected goal developer_message model).

End Script.

(** ** The script itself *)

Definition MODEL : string := "gpt-4.1".
Definition MODEL_MINI : string := "gpt-4.1-mini".
Definition TOOLS : list tool := [WebSearch].
Definition developer_message : string :=
  nl ++ "You are an expert Deep Researcher." ++ nl
     ++ "You provide complete and in depth research to the user." ++ nl.

(** What the user has done when the script runs: the text in the topic
    field, whether the form was submitted, the topic the session holds from
    earlier runs (if any), the text in the answer field of each question, and
    whether [Run Research] was pressed. *)
Record ui : Type := mkUi {
  ui_topic : string;
  ui_submitted : bool;
  ui_session_topic : option string;
  ui_answer : nat -> string;
  ui_run_research : bool
}.

(** [for idx, x in enumerate(l): acc = body(idx, x, acc)], counting from
    [idx]. *)
Fixpoint for_enumerate {A St} (idx : nat) (l : list A)
    (body : nat -> A -> St -> M St) (acc : St) : M St :=
  match l with
  | [] => ret acc
  | x :: l' => acc' <- body idx x acc ;; for_enumerate (S idx) l' body acc'
  end.

(** The style sheet shown after the report. *)
Definition print_css : string :=
  nl ++ "                <style>" ++ nl
     ++ "                @media print {" ++ nl
     ++ "                  textarea, input[type=" ++ dq ++ "text" ++ dq ++ "] {" ++ nl
     ++ "                    height: auto !important;" ++ nl
     ++ "                    min-height: 40px !important;" ++ nl
     ++ "                    max-height: none !important;" ++ nl
     ++ "                    overflow: visible !important;" ++ nl
     ++ "                    white-space: pre-wrap !important;" ++ nl
     ++ "                  }" ++ nl
     ++ "                  .stTextInput>div>div>input {" ++ nl
     ++ "                    width: 100% !important;" ++ nl
     ++ "                    min-width: 300px !important;" ++ nl
     ++ "                  }" ++ nl
     ++ "                }" ++ nl
     ++ "                </style>" ++ nl
     ++ "            ".

Section App.

Context (rt : runtime).

(** The initial round: one search per query, appended in turn, with the
    progress bar moved after each. *)
Definition initial_round (qs : list json) : M (list search_result) :=
  for_enumerate 0 qs
    (fun idx q collected =>
       show (UiWrite ("Collecting data for query: " ++ fmt rt q)) ;;
       r <- run_search rt q developer_message MODEL TOOLS ;;
       show (UiProgress (idx + 1) (length qs)) ;;
       ret (collected ++ [r])%list)
    [].

(** The expansion round: the same, onto the results already collected,
    without the progress bar. *)
Definition expansion_round (qs : list json) (collected : list search_result)
  : M (list search_result) :=
  for_enumerate 0 qs
    (fun idx q collected =>
       show (UiWrite ("Collecting data for query: " ++ fmt rt q)) ;;
       r <- run_search rt q developer_message MODEL TOOLS ;;
       ret (collected ++ [r])%list)
    collected.

(** The question and answer lines of the summary. *)
Definition show_answers (questions answers : list string) : M unit :=
  for_enumerate 0 (zip questions answers)
    (fun i qa _ => show (UiAnswer i (fst qa) (snd qa)))
    tt.

(** The body of [if st.button('Run Research'):]. *)
Definition run_research (questions answers : list string)
    (queries goal : json) (goal_and_queries_id : string) : M unit :=
  show UiProgressStart ;;
  qs <- lift (py_iter queries) ;;
  collected <- initial_round qs ;;
  show UiProgressEmpty ;;
  enough <- evaluate rt collected goal developer_message MODEL ;;
  collected <-
    (if negb enough then
       show (UiWarning "Not enough information. Generating more queries...") ;;
       queries <- get_more_queries rt collected goal developer_message MODEL
                    goal_and_queries_id ;;
       qs <- lift (py_iter queries) ;;
       expansion_round qs collected
     else ret collected) ;;
  report <- write_report rt collected goal developer_message MODEL ;;
  show (UiMarkdown "### Clarifying Questions and Answers") ;;
  show_answers questions answers ;;
  show (UiMarkdown "### Final Research Report") ;;
  show (UiMarkdown report) ;;
  show (UiMarkdown print_css) ;;
  show (UiInfo "To print or save the report, use your browser's print feature: press Ctrl+P (Windows) or Cmd+P (Mac).").

(** The body of [if all(answers):]. *)
Definition plan_and_research (u : ui) (questions answers : list string)
    (topic clarify_id : string) : M unit :=
  '(plan, goal_and_queries_id) <-
     get_goal_and_queries rt answers questions topic developer_message MODEL
       clarify_id ;;
  goal <- lift (py_getitem plan "goal") ;;
  queries <- lift (py_getitem plan "queries") ;;
  show (UiInfo ("Research Goal: " ++ fmt rt goal)) ;;
  show (UiWrite "Web Search Queries:") ;;
  qs <- lift (py_iter queries) ;;
  for_enumerate 0 qs (fun _ q _ => show (UiWrite ("- " ++ fmt rt q))) tt ;;
  show UiRunButton ;;
  if ui_run_research u then
    run_research questions answers queries goal goal_and_queries_id
  else ret tt.

(** One answer field per question, in order; the texts they hold. *)
Definition answer_fields (u : ui) (questions : list string) : M (list string) :=
  for_enumerate 0 questions
    (fun i q answers =>
       show (UiTextInput i q) ;;
       ret (answers ++ [ui_answer u i])%list)
    [].

(** The body of [if st.session_state['topic']:]. *)
Definition clarify_and_on (u : ui) (topic : string) : M unit :=
  show (UiSuccess ("Research Topic: " ++ topic)) ;;
  '(questions, clarify_id) <-
     get_clarifying_questions rt topic developer_message MODEL_MINI ;;
  show (UiWrite "Please answer the following clarifying questions:") ;;
  answers <- answer_fields u questions ;;
  if forallb PyStr.truthy answers then
    plan_and_research u questions answers topic clarify_id
  else ret tt.

(** One run of the script, top to bottom.  The spinners, which only show
    that a step is under way, are left out; the client is the provider of
    [rt]. *)
Definition app (h : host) (u : ui) : M unit :=
  show (UiTitle "Deep Research Streamlit App") ;;
  show (UiWrite "This app helps you perform deep research using OpenAI and web search tools.") ;;
  '(api_key, _) <- lift (set_api_key_env h) ;;
  (if negb (truthy_opt api_key) then
     show (UiError "OpenAI API key not found. Please set it in Streamlit secrets, as an environment variable, or in a .env file.") ;;
     raise StopException
   else ret tt) ;;
  show UiTopicForm ;;
  let topic :=
    match ui_session_topic u with
    | Some t => t
    | None => EmptyString
    end in
  let topic :=
    if ui_submitted u && PyStr.truthy (ui_topic u) then ui_topic u
    else topic in
  if PyStr.truthy topic then clarify_and_on u topic else ret tt.

End App.

(** ** The properties, in the words of the specification *)

(** [t] begins with y, e, s, each in either case. *)
Definition yes_here (t : string) : Prop :=
  exists a b c rest,
    t = String a (String b (String c rest))
    /\ (a = "y"%char \/ a = "Y"%char)
    /\ (b = "e"%char \/ b = "E"%char)
    /\ (c = "s"%char \/ c = "S"%char).

(** The substring "yes" occurs somewhere in [t], whatever the case of its
    letters. *)
Definition mentions_yes (t : string) : Prop :=
  exists before after, t = before ++ after /\ yes_here after.


(** A value without the key [goal]: an object that lacks it, or a value
    that is no object. *)
Definition lacks_goal (v : json) : Prop :=
  match v with
  | JObj members => assoc_get "goal" members = None
  | _ => True
  end.

(** The three sources of a credential, each with the value it yields, if
    any.  The file yields the value of its first line that starts with
    [OPENAI_API_KEY=]: the line without the surrounding white space and
    without these fifteen characters. *)
Definition secrets_key (h : host) : option secret :=
  match host_secrets h with
  | SecretsWith v => Some v
  | SecretsWithout | SecretsUnavailable => None
  end.

Definition secrets_value (h : host) : option string :=
  match secrets_key h with
  | Some (SecretText v) => Some v
  | Some (SecretOther _) | None => None
  end.

Definition environ_value (h : host) : option string :=
  host_environ h !! "OPENAI_API_KEY".

Fixpoint skip (n : nat) (s : string) : string :=
  match n, s with
  | O, _ => s
  | S n', String _ s' => skip n' s'
  | S _, EmptyString => EmptyString
  end.

Definition dotenv_value (h : host) : option string :=
  match host_dotenv h with
  | Some lines =>
      match List.find (PyStr.startswith "OPENAI_API_KEY=") lines with
      | Some line => Some (skip 15 (PyStr.strip line))
      | None => None
      end
  | None => None
  end.

(** The first source, in the order given, that yields a non-empty value. *)
Fixpoint first_non_empty (sources : list (option string)) : option string :=
  match sources with
  | [] => None
  | Some v :: rest => if PyStr.truthy v then Some v else first_non_empty rest
  | None :: rest => first_non_empty rest
  end.

(** The message of the startup check. *)
Definition key_not_found : string :=
  "OpenAI API key not found. Please set it in Streamlit secrets, as an environment variable, or in a .env file.".

(** The memo table of [run_search] holds what [run_search] returned: under
    the key of a query, a result for that query.  This is so in a fresh
    process and stays so. *)
Definition search_memo_ok (s : state) : Prop :=
  Forall (fun kv => sr_query (snd kv) = fst (fst (fst (fst kv))))
    (memo_search s).

(** The marks of a round of searches that returned [results]: call and
    return, query by query. *)
Definition search_marks (results : list search_result) : list mark :=
  flat_map
    (fun r => [Called (CallSearch (sr_query r)); Returned (RetSearch r)])
    results.

Local Open Scope list_scope.

(** The marks a run of the [Run Research] block can leave, with the way the
    run ends.  [c1] are the results of the initial round, [c2] those of the
    expansion round, [more] the value [get_more_queries] returned. *)
Inductive research_marks (queries goal : json) (plan_id : string)
  : result unit -> list mark -> Prop :=
| RM_not_iterable e :
    py_iter queries = Raise e ->
    research_marks queries goal plan_id (Raise e) []
| RM_search_raised e found q rest :
    py_iter queries = Ok (map sr_query found ++ q :: rest) ->
    research_marks queries goal plan_id (Raise e)
      (search_marks found ++ [Called (CallSearch q)])
| RM_evaluate_raised e c1 :
    py_iter queries = Ok (map sr_query c1) ->
    research_marks queries goal plan_id (Raise e)
      (search_marks c1 ++ [Called (CallEvaluate c1 goal)])
| RM_enough_report_raised e c1 :
    py_iter queries = Ok (map sr_query c1) ->
    research_marks queries goal plan_id (Raise e)
      (search_marks c1
         ++ [Called (CallEvaluate c1 goal); Returned (RetEnough true);
             Called (CallReport c1 goal)])
| RM_enough_done c1 text :
    py_iter queries = Ok (map sr_query c1) ->
    research_marks queries goal plan_id (Ok tt)
      (search_marks c1
         ++ [Called (CallEvaluate c1 goal); Returned (RetEnough true);
             Called (CallReport c1 goal); Returned (RetReport text)])
| RM_more_raised e c1 :
    py_iter queries = Ok (map sr_query c1) ->
    research_marks queries goal plan_id (Raise e)
      (search_marks c1
         ++ [Called (CallEvaluate c1 goal); Returned (RetEnough false);
             Called (CallMoreQueries c1 goal plan_id)])
| RM_more_not_iterable e c1 more :
    py_iter queries = Ok (map sr_query c1) ->
    py_iter more = Raise e ->
    research_marks queries goal plan_id (Raise e)
      (search_marks c1
         ++ [Called (CallEvaluate c1 goal); Returned (RetEnough false);
             Called (CallMoreQueries c1 goal plan_id);
             Returned (RetQueries more)])
| RM_expansion_raised e c1 more found q rest :
    py_iter queries = Ok (map sr_query c1) ->
    py_iter more = Ok (map sr_query found ++ q :: rest) ->
    research_marks queries goal plan_id (Raise e)
      (search_marks c1
         ++ [Called (CallEvaluate c1 goal); Returned (RetEnough false);
             Called (CallMoreQueries c1 goal plan_id);
             Returned (RetQueries more)]
         ++ search_marks found ++ [Called (CallSearch q)])
| RM_expanded_report_raised e c1 more c2 :
    py_iter queries = Ok (map sr_query c1) ->
    py_iter more = Ok (map sr_query c2) ->
    research_marks queries goal plan_id (Raise e)
      (search_marks c1
         ++ [Called (CallEvaluate c1 goal); Returned (RetEnough false);
             Called (CallMoreQueries c1 goal plan_id);
             Returned (RetQueries more)]
         ++ search_marks c2 ++ [Called (CallReport (c1 ++ c2) goal)])
| RM_expanded_done c1 more c2 text :
    py_iter queries = Ok (map sr_query c1) ->
    py_iter more = Ok (map sr_query c2) ->
    research_marks queries goal plan_id (Ok tt)
      (search_marks c1
         ++ [Called (CallEvaluate c1 goal); Returned (RetEnough false);
             Called (CallMoreQueries c1 goal plan_id);
             Returned (RetQueries more)]
         ++ search_marks c2
         ++ [Called (CallReport (c1 ++ c2) goal); Returned (RetReport text)]).

Local Open Scope string_scope.

(** Marks of interest in a run of the block. *)
Definition is_evaluation (m : mark) : bool :=
  match m with
  | Called (CallEvaluate _ _) => true
  | _ => false
  end.

Definition is_expansion (m : mark) : bool :=
  match m with
  | Called (CallMoreQueries _ _ _) => true
  | _ => false
  end.

Definition is_insufficient (m : mark) : bool :=
  match m with
  | Returned (RetEnough false) => true
  | _ => false
  end.

(** How many marks of a kind a run left. *)
Definition count_marks (kind : mark -> bool) (ms : list mark) : nat :=
  length (List.filter kind ms).

(** The results the searches of a run returned, in the order they
    returned. *)
Fixpoint found_of (ms : list mark) : list search_result :=
  match ms with
  | [] => []
  | Returned (RetSearch r) :: ms' => r :: found_of ms'
  | _ :: ms' => found_of ms'
  end.

(** The answer fields a run showed: index and question, in order. *)
Fixpoint slots_of (t : list event) : list (nat * string) :=
  match t with
  | [] => []
  | EvUi (UiTextInput i q) :: t' => (i, q) :: slots_of t'
  | _ :: t' => slots_of t'
  end.

(** The questions with their positions, counted from [idx]. *)
Definition numbered (idx : nat) (questions : list string) : list (nat * string) :=
  combine (seq idx (length questions)) questions.

(** The texts of the first [n] answer fields. *)
Definition answers_given (u : ui) (n : nat) : list string :=
  map (ui_answer u) (seq 0 n).

(** ** Notions used in the proofs *)

(** The key the resolver returns, source by source. *)
Definition resolved (h : host) : option string :=
  let k := if truthy_opt (secrets_value h) then secrets_value h
           else environ_value h in
  if truthy_opt k then k
  else match dotenv_value h with
       | Some v => Some v
       | None => k
       end.

(** The secrets store yields a value that has truth and is not a string. *)
Definition secret_not_text (h : host) : bool :=
  match secrets_key h with
  | Some (SecretOther truth) => truth
  | Some (SecretText _) | None => false
  end.

(** What a halted start leaves behind. *)
Definition halted (rt : runtime) (h : host) : Prop :=
  forall u s,
    exists s',
      app rt h u s = (Raise StopException, s')
      /\ requests_of (trace s') = requests_of (trace s)
      /\ marks_of (trace s') = marks_of (trace s)
      /\ shown_of (trace s')
         = (shown_of (trace s)
              ++ [UiTitle "Deep Research Streamlit App";
                  UiWrite "This app helps you perform deep research using OpenAI and web search tools.";
                  UiError key_not_found])%list.

(** What a start that ends with the exception [e] of the resolver leaves
    behind. *)
Definition failed (rt : runtime) (h : host) (e : exn) : Prop :=
  forall u s,
    exists s',
      app rt h u s = (Raise e, s')
      /\ requests_of (trace s') = requests_of (trace s)
      /\ marks_of (trace s') = marks_of (trace s)
      /\ shown_of (trace s')
         = (shown_of (trace s)
              ++ [UiTitle "Deep Research Streamlit App";
                  UiWrite "This app helps you perform deep research using OpenAI and web search tools."])%list.

(** [spec I m Q]: from a state in [I], a run of [m] ends in [I], adds events
    to the trace and removes none, and its outcome and the events it added
    satisfy [Q]. *)
Definition spec {A} (I : state -> Prop) (m : M A)
    (Q : result A -> list event -> Prop) : Prop :=
  forall s r s',
    I s -> m s = (r, s') ->
    I s' /\ exists new, trace s' = (trace s ++ new)%list /\ Q r new.

(** A computation that leaves the state as it found it. *)
Definition silent {A} (m : M A) : Prop := forall s, snd (m s) = s.

(** A call of a decorated function leaves its call mark and, when it
    returns, its return mark; it shows nothing. *)
Definition call_post {V} (called : call) (ret_mark : V -> returned)
    (G : V -> Prop) (r : result V) (new : list event) : Prop :=
  marks_of new
  = Called called :: match r with
                     | Ok v => [Returned (ret_mark v)]
                     | Raise _ => []
                     end
  /\ shown_of new = []
  /\ forall v, r = Ok v -> G v.

(** What a round of searches over [qs], started with [acc] collected,
    leaves: all results appended in the order of the queries, or the marks
    up to the search that raised. *)
Definition round_post (qs : list json) (acc : list search_result)
    (r : result (list search_result)) (ms : list mark) : Prop :=
  match r with
  | Ok acc' =>
      exists found,
        acc' = (acc ++ found)%list
        /\ map sr_query found = qs
        /\ ms = search_marks found
  | Raise _ =>
      exists found q rest,
        qs = (map sr_query found ++ q :: rest)%list
        /\ ms = (search_marks found ++ [Called (CallSearch q)])%list
  end.

(** The same judgement, looking at the marks only. *)
Definition mspec {A} (m : M A) (Q : result A -> list mark -> Prop) : Prop :=
  spec search_memo_ok m (fun r new => Q r (marks_of new)).

(** The marks of a call of a decorated function. *)
Definition call_marks {V} (called : call) (ret_mark : V -> returned)
    (r : result V) (ms : list mark) : Prop :=
  ms = Called called :: match r with
                        | Ok v => [Returned (ret_mark v)]
                        | Raise _ => []
                        end.

(** The expansion: the request for more queries, then a round over
    them, onto [c1]. *)
Definition expansion_post (c1 : list search_result) (goal : json)
    (plan_id : string) (r : result (list search_result)) (ms : list mark)
  : Prop :=
  match r with
  | Ok c =>
      exists more c2,
        c = (c1 ++ c2)%list
        /\ py_iter more = Ok (map sr_query c2)
        /\ ms = ([Called (CallMoreQueries c1 goal plan_id);
                  Returned (RetQueries more)] ++ search_marks c2)%list
  | Raise e =>
      ms = [Called (CallMoreQueries c1 goal plan_id)]
      \/ (exists more,
             py_iter more = Raise e
             /\ ms = [Called (CallMoreQueries c1 goal plan_id);
                      Returned (RetQueries more)])
      \/ (exists more found q rest,
             py_iter more = Ok (map sr_query found ++ q :: rest)%list
             /\ ms = ([Called (CallMoreQueries c1 goal plan_id);
                       Returned (RetQueries more)]
                       ++ search_marks found ++ [Called (CallSearch q)])%list)
  end.

(** Every event a computation adds satisfies [P]. *)
Definition emits {A} (P : event -> Prop) (m : M A) : Prop :=
  spec (fun _ => True) m (fun _ new => Forall P new).

(** Events allowed once planning has started, for given questions and
    answers: planning is called with these, no answer field is drawn and no
    new list of questions comes back. *)
Definition plan_event_ok (questions answers : list string) (e : event) : Prop :=
  match e with
  | EvCall (CallPlan a q _ _) => a = answers /\ q = questions
  | EvCall (CallClarify _) => False
  | EvReturn (RetQuestions _ _) => False
  | EvUi (UiTextInput _ _) => False
  | _ => True
  end.

(** What a run of the script leaves, as far as questions, answer fields
    and planning go: either no list of questions came back and no field was
    drawn, or one list came back, one field was drawn per question, and
    whatever followed was allowed by [plan_event_ok] and happened only with
    every answer non-empty. *)
Definition asked (u : ui) (new : list event) : Prop :=
  ((marks_of new = [] \/ exists topic, marks_of new = [Called (CallClarify topic)])
   /\ slots_of new = [])
  \/ exists topic questions id rest,
       marks_of new
       = (Called (CallClarify topic) :: Returned (RetQuestions questions id)
            :: marks_of rest)%list
       /\ slots_of new = numbered 0 questions
       /\ Forall (plan_event_ok questions (answers_given u (length questions))) rest
       /\ (rest = []
           \/ forallb PyStr.truthy (answers_given u (length questions)) = true).

(** ** A sample session

    Concrete texts, a provider that plays a fixed list of answers, and the
    values [json.loads] gives on these texts.  The general statements below
    are instantiated here. *)

Module Sample.

Definition plan_text : string :=
  "{" ++ dq ++ "goal" ++ dq ++ ": " ++ dq ++ "Assess EV adoption drivers 2020-2024" ++ dq
      ++ ", " ++ dq ++ "queries" ++ dq ++ ": ["
      ++ dq ++ "EV sales statistics 2024" ++ dq ++ ", "
      ++ dq ++ "EV charging infrastructure growth" ++ dq ++ "]}".

Definition plan_value : json :=
  JObj [ ("goal", JStr "Assess EV adoption drivers 2020-2024");
         ("queries", JArr [ JStr "EV sales statistics 2024";
                            JStr "EV charging infrastructure growth" ]) ].

Definition more_text : string :=
  "[" ++ dq ++ "EV battery cost trend" ++ dq ++ "]".

Definition more_value : json := JArr [ JStr "EV battery cost trend" ].

(** [json.loads] on the texts of this session: the two above, the empty
    object, the empty array; the remaining texts used here are plain
    sentences, which are not JSON. *)
Definition loads (text : string) : result json :=
  if String.eqb text plan_text then Ok plan_value
  else if String.eqb text more_text then Ok more_value
  else if String.eqb text "{}" then Ok (JObj [])
  else if String.eqb text "[]" then Ok (JArr [])
  else Raise JSONDecodeError.

(** The provider answers the n-th request with the n-th entry of a
    script, and fails when the script is over. *)
Definition scripted (answers : list (result response))
    (history : list request) (_ : request) : result response :=
  match answers !! length history with
  | Some a => a
  | None => Raise (APIError "no answer left")
  end.

(** The printed forms play no part in the statements: fixed texts. *)
Definition runtime_of (answers : list (result response)) : runtime :=
  mkRuntime loads (fun _ => "<collected>") (fun _ => "<value>")
    (fun _ => "<strings>") (fun _ => "<output>") (scripted answers).

(** A message item holding one text part. *)
Definition message (id text : string) : output_item :=
  mkItem (Some id) (Has [mkPart (Some text)]).

(** The item of a web-search call: an id, no content. *)
Definition search_call (id : string) : output_item := mkItem (Some id) Absent.

(** A response whose first item is a message with [text]. *)
Definition says (id text : string) : result response :=
  Ok (mkResponse id [message ("msg_" ++ id) text]).

(** A search response: the call item, then the message. *)
Definition found (id text : string) : result response :=
  Ok (mkResponse id [search_call ("ws_" ++ id); message ("msg_" ++ id) text]).

(** A search response whose message is a refusal: a part without text. *)
Definition refused (id : string) : result response :=
  Ok (mkResponse id [search_call ("ws_" ++ id);
                     mkItem (Some ("msg_" ++ id)) (Has [mkPart None])]).

(** A search response whose message has no part at all. *)
Definition hollow (id : string) : result response :=
  Ok (mkResponse id [search_call ("ws_" ++ id);
                     mkItem (Some ("msg_" ++ id)) (Has [])]).

Definition questions_text : string := "1. Which region?" ++ nl ++ "2. Which years?".

(** A host with the key in the environment. *)
Definition keyed_host : host :=
  mkHost SecretsUnavailable {["OPENAI_API_KEY" := "sk-env"]} None.

(** A user who gave the topic, answered both questions and pressed
    [Run Research]. *)
Definition eager_user : ui :=
  mkUi "electric vehicle adoption trends" true None
    (fun i => match i with 0%nat => "Europe" | _ => "2020-2024" end) true.

(** A provider for the [Run Research] block when the evaluator says no:
    one search, the verdict, one more query, its search, the report. *)
Definition expanding_runtime : runtime :=
  runtime_of
    [found "s1" "sales up"; says "e" "No"; says "m" more_text;
     found "s3" "costs down"; says "rep" "Report [1]"].

Definition one_query : json := JArr [JStr "EV sales statistics 2024"].

(** A provider for a whole session in which the evaluator says yes. *)
Definition session_runtime : runtime :=
  runtime_of
    [says "r1" questions_text; says "r2" plan_text; found "s1" "sales up";
     found "s2" "chargers up"; says "e" "Yes, fully covered.";
     says "rep" "Report [1]"].

End Sample.

(** ** Further notions: response shapes, memo tables across runs, orderly traces *)

(** The second output item has an id and a content, but the content is
    [None], or has no first part, or its first part has no text. *)
Definition textless_message (resp : response) : Prop :=
  exists id content,
    resp_output resp !! 1%nat = Some (mkItem (Some id) content)
    /\ (content = Null \/ content = Has []
        \/ exists rest, content = Has (mkPart None :: rest)).

(** The six memo tables of a state. *)
Definition tables (s : state) :=
  (memo_clarify s, memo_plan s, memo_search s, memo_evaluate s, memo_more s,
   memo_report s).

(** Every answer the tables of [s] give, the tables of [s'] give too. *)
Definition extends (s s' : state) : Prop :=
  (forall k v, memo_get k (memo_clarify s) = Some v ->
               memo_get k (memo_clarify s') = Some v)
  /\ (forall k v, memo_get k (memo_plan s) = Some v ->
                  memo_get k (memo_plan s') = Some v)
  /\ (forall k v, memo_get k (memo_search s) = Some v ->
                  memo_get k (memo_search s') = Some v)
  /\ (forall k v, memo_get k (memo_evaluate s) = Some v ->
                  memo_get k (memo_evaluate s') = Some v)
  /\ (forall k v, memo_get k (memo_more s) = Some v ->
                  memo_get k (memo_more s') = Some v)
  /\ (forall k v, memo_get k (memo_report s) = Some v ->
                  memo_get k (memo_report s') = Some v).

(** [new2] repeats what [new1] marked and showed, and asks the provider
    nothing. *)
Definition echo (new1 new2 : list event) : Prop :=
  marks_of new2 = marks_of new1
  /\ shown_of new2 = shown_of new1
  /\ requests_of new2 = [].

(** A computation whose runs only add to the tables and to the trace, and
    whose run that returned can be run again, from any state knowing at
    least as much, with the same value, the same marks and widgets, no
    request and no change to the tables. *)
Definition replays {A} (m : M A) : Prop :=
  forall s r s1,
    m s = (r, s1) ->
    extends s s1
    /\ exists new1,
         trace s1 = (trace s ++ new1)%list
         /\ forall a, r = Ok a ->
              forall s2, extends s1 s2 ->
                exists s2' new2,
                  m s2 = (Ok a, s2')
                  /\ trace s2' = (trace s2 ++ new2)%list
                  /\ tables s2' = tables s2
                  /\ echo new1 new2.

(** The host after the resolver has run: the same sources, the environment
    the resolver left. *)
Definition with_environ (h : host) (env : gmap string string) : host :=
  mkHost (host_secrets h) env (host_dotenv h).

(** [sep.join(parts)] for a one-character [sep]. *)
Fixpoint join (sep : ascii) (parts : list string) : string :=
  match parts with
  | [] => EmptyString
  | [p] => p
  | p :: rest => p ++ String sep (join sep rest)
  end.

(** How often the character [c] occurs in [s]. *)
Fixpoint occurrences (c : ascii) (s : string) : nat :=
  match s with
  | EmptyString => 0
  | String c' s' => (if Ascii.eqb c' c then 1 else 0) + occurrences c s'
  end.

Definition is_report_call (m : mark) : bool :=
  match m with
  | Called (CallReport _ _) => true
  | _ => false
  end.

Definition is_call (m : mark) : bool :=
  match m with
  | Called _ => true
  | Returned _ => false
  end.

(** The events of one call of a decorated function: the call mark, at most
    one request, and the return mark if the call returned. *)
Inductive call_unit : list event -> Prop :=
| CallUnit c inner ret :
    (inner = [] \/ exists req, inner = [EvGateway req]) ->
    (ret = [] \/ exists r, ret = [EvReturn r]) ->
    call_unit (EvCall c :: inner ++ ret)%list.

(** A trace made of widget events and whole call units, in any order. *)
Inductive orderly : list event -> Prop :=
| OrderlyNil : orderly []
| OrderlyUi u rest : orderly rest -> orderly (EvUi u :: rest)
| OrderlyCall unit rest :
    call_unit unit -> orderly rest -> orderly (unit ++ rest)%list.

(** Every run of [m] adds an orderly piece of trace. *)
Definition tidy {A} (m : M A) : Prop :=
  spec (fun _ => True) m (fun _ new => orderly new).

(** Marks of the research itself: searches, evaluation, expansion, report. *)
Definition is_research_mark (m : mark) : bool :=
  match m with
  | Called (CallClarify _) | Called (CallPlan _ _ _ _) => false
  | Returned (RetQuestions _ _) | Returned (RetPlan _ _) => false
  | _ => true
  end.

(** Events other than marks of the research. *)
Definition before_research (e : event) : Prop :=
  match e with
  | EvCall c => is_research_mark (Called c) = false
  | EvReturn r => is_research_mark (Returned r) = false
  | _ => True
  end.

(** The topic a run works with: the text of the form when it was submitted
    non-empty, else the topic the session holds, else none. *)
Definition effective_topic (u : ui) : string :=
  if ui_submitted u && PyStr.truthy (ui_topic u) then ui_topic u
  else match ui_session_topic u with
       | Some t => t
       | None => EmptyString
       end.

(** The key under which the script memoises the search for the query of
    [v]. *)
Definition key_of (v : search_result) : search_key :=
  (sr_query v, developer_message, MODEL, TOOLS).

(** Every run of [m], from a state whose search table is sound, keeps it
    sound, only adds to the tables, and leaves every search result it
    returned in the table under its query. *)
Definition steady {A} (m : M A) : Prop :=
  forall s r s',
    search_memo_ok s -> m s = (r, s') ->
    search_memo_ok s'
    /\ extends s s'
    /\ exists new,
         trace s' = (trace s ++ new)%list
         /\ forall v, In v (found_of (marks_of new)) ->
                      memo_get (key_of v) (memo_search s') = Some v.

(** * Proofs *)

Local Open Scope script_scope.

(** ** Facts about the string methods *)

Ltac by_cases_on_ascii c :=
  destruct c as [[] [] [] [] [] [] [] []]; vm_compute; intros H;
  first [discriminate H | left; reflexivity | right; reflexivity].

Lemma lower_ascii_y c :
  PyStr.lower_ascii c = "y"%char <-> c = "y"%char \/ c = "Y"%char.
Proof. split; [by_cases_on_ascii c | intros [-> | ->]; reflexivity]. Qed.

Lemma lower_ascii_e c :
  PyStr.lower_ascii c = "e"%char <-> c = "e"%char \/ c = "E"%char.
Proof. split; [by_cases_on_ascii c | intros [-> | ->]; reflexivity]. Qed.

Lemma lower_ascii_s c :
  PyStr.lower_ascii c = "s"%char <-> c = "s"%char \/ c = "S"%char.
Proof. split; [by_cases_on_ascii c | intros [-> | ->]; reflexivity]. Qed.

Lemma startswith_yes_lower t :
  PyStr.startswith "yes" (PyStr.lower t) = true <-> yes_here t.
Proof.
  unfold PyStr.startswith, yes_here. split.
  - destruct t as [|a [|b [|c rest]]]; cbn [PyStr.lower String.prefix]; intros H;
      repeat (destruct (ascii_dec _ _); try discriminate H); try discriminate H.
    clear H. exists a, b, c, rest.
    repeat split; [apply lower_ascii_y | apply lower_ascii_e | apply lower_ascii_s];
      congruence.
  - intros (a & b & c & rest & -> & Ha & Hb & Hc).
    apply lower_ascii_y in Ha. apply lower_ascii_e in Hb. apply lower_ascii_s in Hc.
    cbn [PyStr.lower String.prefix]. rewrite Ha, Hb, Hc. simpl.
    destruct (PyStr.lower rest); reflexivity.
Qed.

Lemma mentions_yes_cons c t :
  mentions_yes (String c t) <-> yes_here (String c t) \/ mentions_yes t.
Proof.
  split.
  - intros ([|c' before] & after & Heq & Hyes); simpl in Heq.
    + left. rewrite Heq. exact Hyes.
    + right. injection Heq as -> ->. exists before, after. split; [reflexivity | exact Hyes].
  - intros [Hyes | (before & after & -> & Hyes)].
    + exists "", (String c t). split; [reflexivity | exact Hyes].
    + exists (String c before), after. split; [reflexivity | exact Hyes].
Qed.

Lemma contains_yes_lower t :
  PyStr.contains "yes" (PyStr.lower t) = true <-> mentions_yes t.
Proof.
  induction t as [|c t IH].
  - split; [discriminate|].
    intros ([|x before] & after & Heq & (a & b & c' & rest & -> & _));
      discriminate.
  - rewrite mentions_yes_cons, <- IH, <- startswith_yes_lower.
    change (PyStr.lower (String c t)) with (String (PyStr.lower_ascii c) (PyStr.lower t)).
    cbn [PyStr.contains]. rewrite orb_true_iff. reflexivity.
Qed.

(** ** Facts about traces and memoisation *)

Lemma requests_of_app t1 t2 :
  requests_of (t1 ++ t2) = (requests_of t1 ++ requests_of t2)%list.
Proof.
  induction t1 as [|[] t1 IH]; simpl; rewrite ?IH; reflexivity.
Qed.

Lemma marks_of_app t1 t2 :
  marks_of (t1 ++ t2) = (marks_of t1 ++ marks_of t2)%list.
Proof.
  induction t1 as [|[] t1 IH]; simpl; rewrite ?IH; reflexivity.
Qed.

Lemma shown_of_app t1 t2 :
  shown_of (t1 ++ t2) = (shown_of t1 ++ shown_of t2)%list.
Proof.
  induction t1 as [|[] t1 IH]; simpl; rewrite ?IH; reflexivity.
Qed.

Lemma responses_create_run rt req s :
  responses_create rt req s
  = (provider rt (requests_of (trace s)) req, snd (emit (EvGateway req) s)).
Proof. reflexivity. Qed.

(** A decorated function whose arguments are not in its table runs its
    body, stores what the body returns, and marks the return. *)
Lemma cached_miss {K V} `{EqDecision K} called ret_mark
    (get : state -> list (K * V)) put k body s :
  (forall e s0, get (snd (emit e s0)) = get s0) ->
  memo_get k (get s) = None ->
  cached called ret_mark get put k body s =
    match body (snd (emit (EvCall called) s)) with
    | (Ok v, s') =>
        (Ok v, snd (emit (EvReturn (ret_mark v)) (put ((k, v) :: get s') s')))
    | (Raise e, s') => (Raise e, s')
    end.
Proof.
  intros Hget Hmiss. unfold cached, bind, memoised.
  cbn [emit]. specialize (Hget (EvCall called) s). cbn [emit snd] in Hget.
  rewrite Hget, Hmiss.
  destruct (body _) as [[v|e] s']; reflexivity.
Qed.

(** A decorated function whose arguments are in its table returns the
    stored value and leaves the provider alone. *)
Lemma cached_hit {K V} `{EqDecision K} called ret_mark
    (get : state -> list (K * V)) put k body s v :
  (forall e s0, get (snd (emit e s0)) = get s0) ->
  memo_get k (get s) = Some v ->
  cached called ret_mark get put k body s =
    (Ok v, snd (emit (EvReturn (ret_mark v)) (snd (emit (EvCall called) s)))).
Proof.
  intros Hget Hhit. unfold cached, bind, memoised.
  cbn [emit]. specialize (Hget (EvCall called) s). cbn [emit snd] in Hget.
  rewrite Hget, Hhit. reflexivity.
Qed.

(** The requests seen by the provider are not changed by a mark. *)
Lemma requests_after_call c s :
  requests_of (trace (snd (emit (EvCall c) s))) = requests_of (trace s).
Proof. cbn. rewrite requests_of_app. cbn. apply app_nil_r. Qed.

(** ** The Coverage Evaluator *)

Lemma evaluate_miss rt collected goal dm model s review :
  memo_get (collected, goal, dm, model) (memo_evaluate s) = None ->
  provider rt (requests_of (trace s))
    (evaluate_request rt collected goal dm model) = Ok review ->
  fst (evaluate rt collected goal dm model s)
  = (text ← first_text review; Ok (PyStr.contains "yes" (PyStr.lower text))).
Proof.
  intros Hmiss Hprov. unfold evaluate.
  rewrite cached_miss by (reflexivity || assumption).
  unfold evaluate_body, bind. rewrite responses_create_run, requests_after_call, Hprov.
  unfold lift. destruct (first_text review); reflexivity.
Qed.

(** C2. For every answer of the provider whose text is [text], [evaluate]
    returns true exactly when "yes" occurs in [text] in some mix of upper and
    lower case; "Partially — needs more" has no such occurrence and
    "Yes, fully covered." has one. *)
Theorem evaluate_true_iff_yes_mentioned :
  forall rt collected goal dm model s review text,
    memo_get (collected, goal, dm, model) (memo_evaluate s) = None ->
    provider rt (requests_of (trace s))
      (evaluate_request rt collected goal dm model) = Ok review ->
    first_text review = Ok text ->
    (exists enough,
        fst (evaluate rt collected goal dm model s) = Ok enough
        /\ (enough = true <-> mentions_yes text))
    /\ ~ mentions_yes "Partially — needs more"
    /\ mentions_yes "Yes, fully covered.".
Proof.
  intros rt collected goal dm model s review text Hmiss Hprov Htext.
  split; [|split].
  - exists (PyStr.contains "yes" (PyStr.lower text)). split.
    + rewrite (evaluate_miss _ _ _ _ _ _ _ Hmiss Hprov), Htext. reflexivity.
    + apply contains_yes_lower.
  - rewrite <- contains_yes_lower. vm_compute. discriminate.
  - rewrite <- contains_yes_lower. vm_compute. reflexivity.
Qed.

Lemma evaluate_true_iff_yes_mentioned_witness :
  (exists enough,
      fst (evaluate (Sample.runtime_of [Sample.says "e" "No, missing X"])
             [] (JStr "goal") developer_message MODEL fresh) = Ok enough
      /\ (enough = true <-> mentions_yes "No, missing X"))
  /\ ~ mentions_yes "Partially — needs more"
  /\ mentions_yes "Yes, fully covered.".
Proof.
  apply (evaluate_true_iff_yes_mentioned
           (Sample.runtime_of [Sample.says "e" "No, missing X"])
           [] (JStr "goal") developer_message MODEL fresh
           (mkResponse "e" [Sample.message "msg_e" "No, missing X"])
           "No, missing X"); reflexivity.
Defined.

(** ** The Search Step *)

Section SearchStep.

Context (rt : runtime) (q : json) (dm model : string) (tools : list tool).
Context (s : state) (resp : response).
Hypothesis miss : memo_get (q, dm, model, tools) (memo_search s) = None.
Hypothesis answered :
  provider rt (requests_of (trace s)) (search_request rt q dm model tools)
  = Ok resp.

(** What [run_search] does with the response it got. *)
Lemma run_search_miss :
  fst (run_search rt q dm model tools s)
  = let output := resp_output resp in
    if (1 <? length output)%nat
       && match output !! 1%nat with
          | Some item => hasattr (item_id item) && present (item_content item)
          | None => false
          end
    then
      item ← index output 1;
      id ← getattr (item_id item);
      text ← content_text item;
      Ok (mkSearchResult q (Some id) text)
    else
      Ok (mkSearchResult q None
            ("Error: Unexpected response format: " ++ repr_output rt output)).
Proof.
  unfold run_search.
  rewrite cached_miss by (reflexivity || assumption).
  unfold run_search_body, bind.
  rewrite responses_create_run, requests_after_call, answered.
  cbv zeta.
  destruct ((1 <? length (resp_output resp))%nat && _); [|reflexivity].
  unfold lift.
  destruct (index (resp_output resp) 1) as [item|]; [|reflexivity]. cbn.
  destruct (getattr (item_id item)); [|reflexivity]. cbn.
  destruct (content_text item); reflexivity.
Qed.

(** The well-formed response: the second output item has an id and a
    content whose first part has a text. *)
Lemma run_search_well_formed id text parts :
  resp_output resp !! 1%nat
  = Some (mkItem (Some id) (Has (mkPart (Some text) :: parts))) ->
  fst (run_search rt q dm model tools s)
  = Ok (mkSearchResult q (Some id) text).
Proof.
  intros Hitem. rewrite run_search_miss. cbv zeta.
  pose proof (lookup_lt_Some _ _ _ Hitem) as Hlen.
  apply Nat.ltb_lt in Hlen. unfold index. rewrite Hlen, Hitem. reflexivity.
Qed.

(** The shapes the guard of [run_search] turns away: fewer than two
    output items, or a second item without [id] or without [content]. *)
Lemma run_search_unexpected_shape :
  (resp_output resp !! 1%nat = None
   \/ exists item, resp_output resp !! 1%nat = Some item
                   /\ (item_id item = None \/ item_content item = Absent)) ->
  fst (run_search rt q dm model tools s)
  = Ok (mkSearchResult q None
          ("Error: Unexpected response format: "
             ++ repr_output rt (resp_output resp))).
Proof.
  intros Hshape. rewrite run_search_miss. cbv zeta.
  destruct Hshape as [Hnone | (item & Hitem & Hattr)].
  - rewrite Hnone, andb_false_r. reflexivity.
  - rewrite Hitem.
    destruct Hattr as [-> | ->]; cbn [hasattr present];
      rewrite ?andb_false_r; reflexivity.
Qed.

(** The shapes that pass the guard and still have no text: the content is
    [None], or empty, or its first part has no [text]. *)
Lemma run_search_raises id :
  (resp_output resp !! 1%nat = Some (mkItem (Some id) Null) ->
   fst (run_search rt q dm model tools s) = Raise TypeError)
  /\ (resp_output resp !! 1%nat = Some (mkItem (Some id) (Has [])) ->
      fst (run_search rt q dm model tools s) = Raise IndexError)
  /\ (forall parts,
        resp_output resp !! 1%nat
        = Some (mkItem (Some id) (Has (mkPart None :: parts))) ->
        fst (run_search rt q dm model tools s) = Raise AttributeError).
Proof.
  split; [intros Hitem | split; [intros Hitem | intros parts Hitem]];
    rewrite run_search_miss; cbv zeta;
    pose proof (lookup_lt_Some _ _ _ Hitem) as Hlen;
    apply Nat.ltb_lt in Hlen; unfold index; rewrite Hlen, Hitem; reflexivity.
Qed.

End SearchStep.

(** A call of [run_search] that the memo table does not answer makes one
    request, whatever the provider replies. *)
Lemma run_search_requests rt q dm model tools s :
  memo_get (q, dm, model, tools) (memo_search s) = None ->
  requests_of (trace (snd (run_search rt q dm model tools s)))
  = (requests_of (trace s) ++ [search_request rt q dm model tools])%list.
Proof.
  intros miss. unfold run_search.
  rewrite cached_miss by (reflexivity || assumption).
  unfold run_search_body, bind.
  rewrite responses_create_run.
  destruct (provider rt _ _) as [resp|e];
    [|cbn; rewrite !requests_of_app; cbn; rewrite app_nil_r; reflexivity].
  cbv zeta.
  destruct ((1 <? length (resp_output resp))%nat && _).
  - unfold lift.
    destruct (index (resp_output resp) 1) as [item|];
      [|cbn; rewrite !requests_of_app; cbn; rewrite app_nil_r; reflexivity].
    destruct (getattr (item_id item));
      [|cbn; rewrite !requests_of_app; cbn; rewrite app_nil_r; reflexivity].
    destruct (content_text item);
      cbn; rewrite !requests_of_app; cbn; rewrite ?app_nil_r; reflexivity.
  - cbn; rewrite !requests_of_app; cbn; rewrite ?app_nil_r; reflexivity.
Qed.

(** C1. A search response whose second item has an id and a content, but a
    content without text, makes [run_search] raise: [AttributeError] when
    the first part is a refusal, [IndexError] when there is no part.  The
    claim asks for the error dict there. *)
Theorem run_search_raises_on_content_without_text :
  fst (run_search (Sample.runtime_of [Sample.refused "s1"])
         (JStr "EV sales statistics 2024") developer_message MODEL TOOLS fresh)
  = Raise AttributeError
  /\ fst (run_search (Sample.runtime_of [Sample.hollow "s1"])
            (JStr "EV sales statistics 2024") developer_message MODEL TOOLS fresh)
     = Raise IndexError.
Proof. split; reflexivity. Qed.

(** C6. For a query string [q], a call of [run_search] that the memo table
    does not answer makes exactly one request, and its input is "seach: "
    followed by [q]: not "search: " followed by [q]. *)
Theorem run_search_input_reads_seach :
  forall rt (q : string) dm model tools s,
    memo_get (JStr q, dm, model, tools) (memo_search s) = None ->
    requests_of (trace (snd (run_search rt (JStr q) dm model tools s)))
    = (requests_of (trace s)
         ++ [mkRequest model (InputText ("seach: " ++ q)) dm (Some tools) None])%list
    /\ "seach: " ++ q <> "search: " ++ q.
Proof.
  intros rt q dm model tools s miss. split.
  - apply (run_search_requests rt (JStr q) dm model tools s miss).
  - cbn. intros H. discriminate H.
Qed.

Lemma run_search_input_reads_seach_witness :
  requests_of
    (trace (snd (run_search (Sample.runtime_of [Sample.found "s1" "sales up"])
                   (JStr "EV sales statistics 2024") developer_message MODEL
                   TOOLS fresh)))
  = ([] ++ [mkRequest MODEL (InputText ("seach: " ++ "EV sales statistics 2024"))
              developer_message (Some TOOLS) None])%list
  /\ "seach: " ++ "EV sales statistics 2024" <> "search: " ++ "EV sales statistics 2024".
Proof.
  apply (run_search_input_reads_seach
           (Sample.runtime_of [Sample.found "s1" "sales up"])
           "EV sales statistics 2024" developer_message MODEL TOOLS fresh).
  reflexivity.
Defined.

(** ** The Planning Step *)

Lemma get_goal_and_queries_miss rt answers questions topic dm model cid s resp :
  memo_get (answers, questions, topic, dm, model, cid) (memo_plan s) = None ->
  provider rt (requests_of (trace s))
    (plan_request rt answers questions topic dm model cid) = Ok resp ->
  get_goal_and_queries rt answers questions topic dm model cid s
  = match first_text resp with
    | Ok text =>
        match json_loads rt text with
        | Ok plan =>
            (Ok (plan, resp_id resp),
             mkState
               (trace s
                  ++ [EvCall (CallPlan answers questions topic cid);
                      EvGateway (plan_request rt answers questions topic dm model cid);
                      EvReturn (RetPlan plan (resp_id resp))])
               (memo_clarify s)
               (((answers, questions, topic, dm, model, cid), (plan, resp_id resp))
                  :: memo_plan s)
               (memo_search s) (memo_evaluate s) (memo_more s) (memo_report s))
        | Raise e =>
            (Raise e,
             mkState
               (trace s
                  ++ [EvCall (CallPlan answers questions topic cid);
                      EvGateway (plan_request rt answers questions topic dm model cid)])
               (memo_clarify s) (memo_plan s) (memo_search s) (memo_evaluate s)
               (memo_more s) (memo_report s))
        end
    | Raise e =>
        (Raise e,
         mkState
           (trace s
              ++ [EvCall (CallPlan answers questions topic cid);
                  EvGateway (plan_request rt answers questions topic dm model cid)])
           (memo_clarify s) (memo_plan s) (memo_search s) (memo_evaluate s)
           (memo_more s) (memo_report s))
    end.
Proof.
  intros miss answered. unfold get_goal_and_queries.
  rewrite cached_miss by (reflexivity || assumption).
  unfold get_goal_and_queries_body, bind.
  rewrite responses_create_run, requests_after_call, answered.
  unfold lift.
  destruct (first_text resp) as [text|e]; cbn.
  - destruct (json_loads rt text) as [plan|]; cbn;
      rewrite <- ?app_assoc; reflexivity.
  - rewrite <- ?app_assoc; reflexivity.
Qed.




Lemma lacks_goal_raises plan :
  lacks_goal plan ->
  exists e, py_getitem plan "goal" = Raise e /\ (e = KeyError \/ e = TypeError).
Proof.
  destruct plan; cbn; intros H;
    try (exists TypeError; split; [reflexivity | right; reflexivity]).
  rewrite H. exists KeyError. split; [reflexivity | left; reflexivity].
Qed.

(** C9. For every answer of the provider whose text parses to a value
    [plan], [get_goal_and_queries] returns [plan] as it is; when [plan] has
    no key [goal] the step has still returned it (the return is marked),
    and the run fails afterwards, in the caller, at [plan["goal"]], with
    [KeyError] or [TypeError], having shown nothing more and asked the
    provider nothing more. *)
Theorem unvalidated_plan_fails_in_caller :
  forall rt u answers questions topic cid s resp text plan,
    memo_get (answers, questions, topic, developer_message, MODEL, cid)
      (memo_plan s) = None ->
    provider rt (requests_of (trace s))
      (plan_request rt answers questions topic developer_message MODEL cid)
    = Ok resp ->
    first_text resp = Ok text ->
    json_loads rt text = Ok plan ->
    fst (get_goal_and_queries rt answers questions topic developer_message
           MODEL cid s)
    = Ok (plan, resp_id resp)
    /\ (lacks_goal plan ->
        exists e s',
          plan_and_research rt u questions answers topic cid s = (Raise e, s')
          /\ py_getitem plan "goal" = Raise e
          /\ (e = KeyError \/ e = TypeError)
          /\ marks_of (trace s')
             = (marks_of (trace s)
                  ++ [Called (CallPlan answers questions topic cid);
                      Returned (RetPlan plan (resp_id resp))])%list
          /\ shown_of (trace s') = shown_of (trace s)
          /\ requests_of (trace s')
             = (requests_of (trace s)
                  ++ [plan_request rt answers questions topic developer_message
                        MODEL cid])%list).
Proof.
  intros rt u answers questions topic cid s resp text plan miss answered Htext Hplan.
  pose proof (get_goal_and_queries_miss _ _ _ _ _ _ _ _ _ miss answered) as Hrun.
  rewrite Htext, Hplan in Hrun.
  split; [rewrite Hrun; reflexivity|].
  intros Hlacks. destruct (lacks_goal_raises plan Hlacks) as (e & Hget & He).
  exists e. eexists. unfold plan_and_research, bind.
  rewrite Hrun. unfold lift. rewrite Hget.
  split; [reflexivity|]. split; [reflexivity|]. split; [exact He|].
  cbn [trace]. rewrite marks_of_app, shown_of_app, requests_of_app.
  cbn. rewrite app_nil_r. repeat split; reflexivity.
Qed.

Lemma unvalidated_plan_fails_in_caller_witness :
  fst (get_goal_and_queries (Sample.runtime_of [Sample.says "r2" "[]"])
         ["Europe"] ["1. Which region?"] "electric vehicles" developer_message
         MODEL "r1" fresh)
  = Ok (JArr [], "r2")
  /\ exists e s',
       plan_and_research (Sample.runtime_of [Sample.says "r2" "[]"])
         Sample.eager_user ["1. Which region?"] ["Europe"] "electric vehicles"
         "r1" fresh = (Raise e, s')
       /\ py_getitem (JArr []) "goal" = Raise e
       /\ (e = KeyError \/ e = TypeError)
       /\ marks_of (trace s')
          = ([] ++ [Called (CallPlan ["Europe"] ["1. Which region?"]
                              "electric vehicles" "r1");
                    Returned (RetPlan (JArr []) "r2")])%list
       /\ shown_of (trace s') = []
       /\ requests_of (trace s')
          = ([] ++ [plan_request (Sample.runtime_of [Sample.says "r2" "[]"])
                      ["Europe"] ["1. Which region?"] "electric vehicles"
                      developer_message MODEL "r1"])%list.
Proof.
  destruct (unvalidated_plan_fails_in_caller
              (Sample.runtime_of [Sample.says "r2" "[]"]) Sample.eager_user
              ["Europe"] ["1. Which region?"] "electric vehicles" "r1" fresh
              (mkResponse "r2" [Sample.message "msg_r2" "[]"]) "[]" (JArr []))
    as [Hreturned Hfails]; try reflexivity.
  split; [exact Hreturned | apply Hfails; exact Logic.I].
Defined.

(** ** Iterating a string *)

(** The characters of a string are its bytes, regrouped: nothing is lost
    and nothing added. *)
Lemma chars_from_concat s :
  (fst (chars_from s) ++ fold_right String.append "" (snd (chars_from s)))%string
  = s.
Proof.
  induction s as [|c s IH]; [reflexivity|].
  cbn [chars_from]. destruct (chars_from s) as [tail rest].
  cbn [fst snd] in IH.
  destruct (is_continuation c); cbn [fst snd fold_right];
    cbv [String.append]; fold String.append; rewrite IH; reflexivity.
Qed.

(** A letter of two bytes is one character. *)
Example chars_of_two_byte_letter :
  py_iter (JStr ("n" ++ String (ascii_of_nat 195) (String (ascii_of_nat 169) "e")))
  = Ok [JStr "n"; JStr (String (ascii_of_nat 195) (String (ascii_of_nat 169) ""));
        JStr "e"].
Proof. reflexivity. Qed.

(** ** The Credential Resolver *)

Lemma prefix_app p s :
  String.prefix p s = true -> exists rest, s = p ++ rest.
Proof.
  revert s. induction p as [|a p IH]; intros s H.
  - exists s. reflexivity.
  - destruct s as [|b s]; [discriminate H|]. cbn in H.
    destruct (ascii_dec a b) as [<-|]; [|discriminate H].
    destruct (IH s H) as (rest & ->). exists rest. reflexivity.
Qed.

Lemma is_space2_ascii a b :
  (nat_of_ascii a <? 128)%nat = true -> PyStr.is_space2 a b = false.
Proof.
  intros Ha. unfold PyStr.is_space2.
  destruct (nat_of_ascii a =? 194)%nat eqn:E; [|reflexivity].
  apply Nat.eqb_eq in E. rewrite E in Ha. discriminate Ha.
Qed.

Lemma is_space3_ascii a b c :
  (nat_of_ascii a <? 128)%nat = true -> PyStr.is_space3 a b c = false.
Proof.
  intros Ha. unfold PyStr.is_space3. cbv zeta.
  destruct (nat_of_ascii a =? 225)%nat eqn:E1;
    [apply Nat.eqb_eq in E1; rewrite E1 in Ha; discriminate Ha|].
  destruct (nat_of_ascii a =? 226)%nat eqn:E2;
    [apply Nat.eqb_eq in E2; rewrite E2 in Ha; discriminate Ha|].
  destruct (nat_of_ascii a =? 227)%nat eqn:E3;
    [apply Nat.eqb_eq in E3; rewrite E3 in Ha; discriminate Ha|].
  reflexivity.
Qed.

(** A string that starts with an ASCII character other than white space
    keeps its start. *)
Lemma lstrip_keeps c s :
  PyStr.is_space c = false -> (nat_of_ascii c <? 128)%nat = true ->
  PyStr.lstrip (String c s) = String c s.
Proof.
  intros Hc Hascii. cbn [PyStr.lstrip]. rewrite Hc.
  destruct s as [|b [|d s]]; [reflexivity| |];
    rewrite (is_space2_ascii c b Hascii); [reflexivity|].
  rewrite (is_space3_ascii c b d Hascii). reflexivity.
Qed.

Lemma rstrip_cons c s :
  PyStr.is_space c = false -> (nat_of_ascii c <? 128)%nat = true ->
  PyStr.rstrip (String c s) = String c (PyStr.rstrip s).
Proof.
  intros Hc Hascii. cbn [PyStr.rstrip].
  change (match s with
          | EmptyString => String c s
          | String b s2 => _
          end) with (if PyStr.is_space c then PyStr.lstrip s
                     else match s with
                          | EmptyString => String c s
                          | String b s2 =>
                              if PyStr.is_space2 c b then PyStr.lstrip s2
                              else match s2 with
                                   | EmptyString => String c s
                                   | String d s3 =>
                                       if PyStr.is_space3 c b d
                                       then PyStr.lstrip s3 else String c s
                                   end
                          end).
  fold (PyStr.lstrip (String c s)).
  rewrite (lstrip_keeps c s Hc Hascii). reflexivity.
Qed.

(** The sign [=] and what follows it survive [strip] up to the white space
    at the end. *)
Lemma strip_key_line rest :
  PyStr.strip ("OPENAI_API_KEY=" ++ rest)
  = "OPENAI_API_KEY=" ++ PyStr.rstrip rest.
Proof.
  unfold PyStr.strip. cbv [String.append].
  rewrite lstrip_keeps by reflexivity.
  rewrite !rstrip_cons by reflexivity.
  reflexivity.
Qed.

(** White space outside ASCII goes as well: a no-break space (C2 A0), an
    ideographic space (E3 80 80) and a line feed after the text. *)
Example strip_removes_unicode_space :
  PyStr.strip
    ("sk-1" ++ String (ascii_of_nat 194) (String (ascii_of_nat 160)
                 (String (ascii_of_nat 227) (String (ascii_of_nat 128)
                    (String (ascii_of_nat 128) nl)))))
  = "sk-1".
Proof. reflexivity. Qed.

(** On a line that starts with [OPENAI_API_KEY=], the expression
    [line.strip().split('=', 1)[1]] has a value: the stripped line without
    these fifteen characters. *)
Lemma key_line_value line :
  PyStr.startswith "OPENAI_API_KEY=" line = true ->
  index (PyStr.split_once "="%char (PyStr.strip line)) 1
  = Ok (skip 15 (PyStr.strip line)).
Proof.
  intros H. apply prefix_app in H as (rest & ->).
  rewrite strip_key_line. reflexivity.
Qed.

Lemma scan_dotenv_find lines key :
  scan_dotenv lines key
  = Ok (match List.find (PyStr.startswith "OPENAI_API_KEY=") lines with
        | Some line => Some (SecretText (skip 15 (PyStr.strip line)))
        | None => key
        end).
Proof.
  induction lines as [|line lines IH]; [reflexivity|].
  cbn [scan_dotenv List.find].
  destruct (PyStr.startswith "OPENAI_API_KEY=" line) eqn:Hline; [|exact IH].
  rewrite (key_line_value line Hline). reflexivity.
Qed.

(** The resolver, in one equation: a truthy secret that is not a string is
    refused by the environment, and so is a key that holds NUL; otherwise
    the key is the first of the three sources that has truth, or the last
    value seen, and the environment receives a key that has truth. *)
Lemma set_api_key_env_run h :
  set_api_key_env h
  = if secret_not_text h then Raise TypeError
    else match resolved h with
         | Some k =>
             if PyStr.truthy k then
               if has_nul k then Raise ValueError
               else Ok (Some k, <["OPENAI_API_KEY" := k]> (host_environ h))
             else Ok (Some k, host_environ h)
         | None => Ok (None, host_environ h)
         end.
Proof.
  unfold set_api_key_env, secret_not_text, resolved, secrets_value, secrets_key,
    dotenv_value, environ_value.
  assert (finish : forall k : option string,
             (environ ←
                (if truthy_key (SecretText <$> k) then
                   match SecretText <$> k with
                   | Some v => environ_set v (host_environ h)
                   | None => Ok (host_environ h)
                   end
                 else Ok (host_environ h));
              match SecretText <$> k with
              | Some (SecretText k') => Ok (Some k', environ)
              | Some (SecretOther _) | None => Ok (None, environ)
              end)
             = match k with
               | Some k' =>
                   if PyStr.truthy k' then
                     if has_nul k' then Raise ValueError
                     else Ok (Some k', <["OPENAI_API_KEY" := k']> (host_environ h))
                   else Ok (Some k', host_environ h)
               | None => Ok (None, host_environ h)
               end).
  { intros [k'|]; cbn [fmap option_fmap option_map truthy_key environ_set];
      [|reflexivity].
    destruct (PyStr.truthy k'); [destruct (has_nul k')|]; reflexivity. }
  assert (from_environ :
            forall k1 : option string,
              (api_key ←
                 match host_dotenv h with
                 | Some lines =>
                     if negb (truthy_key (SecretText <$> k1))
                     then scan_dotenv lines (SecretText <$> k1)
                     else Ok (SecretText <$> k1)
                 | None => Ok (SecretText <$> k1)
                 end;
               environ ←
                 (if truthy_key api_key then
                    match api_key with
                    | Some v => environ_set v (host_environ h)
                    | None => Ok (host_environ h)
                    end
                  else Ok (host_environ h));
               match api_key with
               | Some (SecretText k') => Ok (Some k', environ)
               | Some (SecretOther _) | None => Ok (None, environ)
               end)
              = match (if truthy_opt k1 then k1
                       else match
                              match host_dotenv h with
                              | Some lines =>
                                  match List.find (PyStr.startswith "OPENAI_API_KEY=") lines with
                                  | Some line => Some (skip 15 (PyStr.strip line))
                                  | None => None
                                  end
                              | None => None
                              end
                            with
                            | Some v => Some v
                            | None => k1
                            end) with
                | Some k' =>
                    if PyStr.truthy k' then
                      if has_nul k' then Raise ValueError
                      else Ok (Some k', <["OPENAI_API_KEY" := k']> (host_environ h))
                    else Ok (Some k', host_environ h)
                | None => Ok (None, host_environ h)
                end).
  { intros k1.
    assert (Htruth : truthy_key (SecretText <$> k1) = truthy_opt k1)
      by (destruct k1; reflexivity).
    rewrite Htruth.
    destruct (truthy_opt k1) eqn:H1; cbn [negb].
    - destruct (host_dotenv h); cbn [mbind result_bind]; apply finish.
    - destruct (host_dotenv h) as [lines|]; cbn [mbind result_bind];
        [|apply finish].
      rewrite scan_dotenv_find. cbn [mbind result_bind].
      destruct (List.find _ lines) as [line|];
        [apply (finish (Some (skip 15 (PyStr.strip line)))) | apply finish]. }
  destruct (host_secrets h) as [| |[v|[|]]]; cbv beta iota zeta.
  - apply from_environ.
  - apply from_environ.
  - destruct v as [|c v];
      [exact (from_environ (host_environ h !! "OPENAI_API_KEY"))
      | exact (from_environ (Some (String c v)))].
  - destruct (host_dotenv h); reflexivity.
  - apply from_environ.
Qed.

(** The resolver returns the first non-empty value of the three sources,
    and a value without truth when there is none. *)
Lemma resolved_first_non_empty h :
  match first_non_empty [secrets_value h; environ_value h; dotenv_value h] with
  | Some k => resolved h = Some k /\ PyStr.truthy k = true
  | None => truthy_opt (resolved h) = false
  end.
Proof.
  unfold resolved. cbn [first_non_empty].
  destruct (secrets_value h) as [k0|]; destruct (environ_value h) as [k1|];
    destruct (dotenv_value h) as [k2|]; cbn [truthy_opt];
    try destruct (PyStr.truthy k0) eqn:H0;
    try destruct (PyStr.truthy k1) eqn:H1;
    try destruct (PyStr.truthy k2) eqn:H2;
    repeat (cbn [truthy_opt]; rewrite ?H0, ?H1, ?H2);
    first [reflexivity | split; reflexivity].
Qed.

(** Without a key the script shows the error and stops: no form, no
    question, no request. *)
Lemma app_halts_without_key rt h u s key env :
  set_api_key_env h = Ok (key, env) ->
  truthy_opt key = false ->
  app rt h u s
  = (Raise StopException,
     mkState
       (trace s
          ++ [EvUi (UiTitle "Deep Research Streamlit App");
              EvUi (UiWrite "This app helps you perform deep research using OpenAI and web search tools.");
              EvUi (UiError key_not_found)])
       (memo_clarify s) (memo_plan s) (memo_search s) (memo_evaluate s)
       (memo_more s) (memo_report s)).
Proof.
  intros Hkey Hfalse. unfold app, bind, show, lift, emit, raise.
  rewrite Hkey, Hfalse. cbn. rewrite <- !app_assoc. reflexivity.
Qed.

Lemma halted_without_key rt h key env :
  set_api_key_env h = Ok (key, env) ->
  truthy_opt key = false ->
  halted rt h.
Proof.
  intros Hkey Hfalse u s. eexists.
  split; [apply (app_halts_without_key rt h u s key env Hkey Hfalse)|].
  cbn [trace]. rewrite requests_of_app, marks_of_app, shown_of_app. cbn.
  rewrite !app_nil_r. repeat split; reflexivity.
Qed.

(** When the resolver raises, the script ends with that exception, after
    the title and the introduction: no form, no question, no request. *)
Lemma failed_in_resolver rt h e :
  set_api_key_env h = Raise e -> failed rt h e.
Proof.
  intros Hkey u s. eexists.
  split.
  - unfold app, bind, show, lift, emit. rewrite Hkey. cbn. reflexivity.
  - cbn [trace]. rewrite !requests_of_app, !marks_of_app, !shown_of_app. cbn.
    rewrite !app_nil_r, <- app_assoc. repeat split; reflexivity.
Qed.

(** C7, as the code has it. The resolver finds the first non-empty value
    among the secrets store, the environment variable and the [.env] file,
    in this order, and returns it when the environment accepts it.  A
    truthy secret that is not a string makes it raise [TypeError], a value
    that holds NUL makes it raise [ValueError], and the script then ends
    with that exception before any request to the provider.  When no
    source yields a non-empty value, what the resolver returns has no truth
    and the script shows the error and stops before any request. *)
Theorem credential_is_first_non_empty_source :
  forall h,
    if secret_not_text h
    then set_api_key_env h = Raise TypeError
         /\ forall rt, failed rt h TypeError
    else match first_non_empty
                 [secrets_value h; environ_value h; dotenv_value h] with
         | Some k =>
             if has_nul k
             then set_api_key_env h = Raise ValueError
                  /\ forall rt, failed rt h ValueError
             else exists env, set_api_key_env h = Ok (Some k, env)
         | None =>
             exists key env,
               set_api_key_env h = Ok (key, env)
               /\ truthy_opt key = false
               /\ forall rt, halted rt h
         end.
Proof.
  intros h. pose proof (set_api_key_env_run h) as Hrun.
  destruct (secret_not_text h).
  { split; [exact Hrun|]. intros rt. exact (failed_in_resolver rt h _ Hrun). }
  pose proof (resolved_first_non_empty h) as Hfirst.
  destruct (first_non_empty _) as [k|].
  - destruct Hfirst as [Hres Hk]. rewrite Hres, Hk in Hrun.
    destruct (has_nul k).
    + split; [exact Hrun|]. intros rt. exact (failed_in_resolver rt h _ Hrun).
    + eexists. exact Hrun.
  - destruct (resolved h) as [k|]; cbn [truthy_opt] in Hfirst.
    + rewrite Hfirst in Hrun. exists (Some k), (host_environ h).
      split; [exact Hrun|]. split; [exact Hfirst|].
      intros rt. exact (halted_without_key rt h _ _ Hrun Hfirst).
    + exists None, (host_environ h).
      split; [exact Hrun|]. split; [reflexivity|].
      intros rt. exact (halted_without_key rt h _ _ Hrun eq_refl).
Qed.

(** C7 as stated fails: in a [.env] line the value "sk-", NUL, "1" is the
    first non-empty value found, and the resolver does not return it: the
    assignment to the environment raises [ValueError]. *)
Lemma credential_with_nul_is_not_returned :
  first_non_empty
    [secrets_value
       (mkHost SecretsWithout ∅
          (Some ["OPENAI_API_KEY=sk-" ++ String (ascii_of_nat 0) "1" ++ nl]));
     environ_value
       (mkHost SecretsWithout ∅
          (Some ["OPENAI_API_KEY=sk-" ++ String (ascii_of_nat 0) "1" ++ nl]));
     dotenv_value
       (mkHost SecretsWithout ∅
          (Some ["OPENAI_API_KEY=sk-" ++ String (ascii_of_nat 0) "1" ++ nl]))]
  = Some ("sk-" ++ String (ascii_of_nat 0) "1")
  /\ set_api_key_env
       (mkHost SecretsWithout ∅
          (Some ["OPENAI_API_KEY=sk-" ++ String (ascii_of_nat 0) "1" ++ nl]))
     = Raise ValueError.
Proof. split; vm_compute; reflexivity. Qed.

(** A key line that holds a no-break space only gives the empty key. *)
Example no_break_space_key_line_is_empty :
  set_api_key_env
    (mkHost SecretsWithout ∅
       (Some ["OPENAI_API_KEY="
                ++ String (ascii_of_nat 194) (String (ascii_of_nat 160) nl)]))
  = Ok (Some "", ∅).
Proof. vm_compute. reflexivity. Qed.

(** A truthy secret that is not a string is refused by the environment. *)
Example number_as_secret_is_refused :
  set_api_key_env (mkHost (SecretsWith (SecretOther true)) ∅ None)
  = Raise TypeError.
Proof. reflexivity. Qed.

Lemma find_after_misses {A} (f : A -> bool) before x after :
  Forall (fun y => f y = false) before ->
  f x = true ->
  List.find f (before ++ x :: after)%list = Some x.
Proof.
  intros Hbefore Hx. induction Hbefore as [|y before Hy _ IH]; cbn.
  - rewrite Hx. reflexivity.
  - rewrite Hy. exact IH.
Qed.

(** C10. When the secrets store gives no value that has truth, the
    environment no non-empty key, and the first line of [.env] that starts
    with [OPENAI_API_KEY=] carries nothing after the sign, the resolver
    returns the empty string, whatever the later lines hold, and the script
    stops at the startup check. *)
Theorem empty_first_key_line_halts :
  forall h before line after,
    truthy_key (secrets_key h) = false ->
    truthy_opt (environ_value h) = false ->
    host_dotenv h = Some (before ++ line :: after)%list ->
    Forall (fun l => PyStr.startswith "OPENAI_API_KEY=" l = false) before ->
    PyStr.startswith "OPENAI_API_KEY=" line = true ->
    PyStr.strip line = "OPENAI_API_KEY=" ->
    (exists env, set_api_key_env h = Ok (Some "", env))
    /\ forall rt, halted rt h.
Proof.
  intros h before line after Hsecrets Henv Hfile Hbefore Hline Hempty.
  pose proof (set_api_key_env_run h) as Hkey.
  assert (Htext : secret_not_text h = false).
  { unfold secret_not_text. destruct (secrets_key h) as [[v|t]|];
      [reflexivity | exact Hsecrets | reflexivity]. }
  assert (Hvalue : truthy_opt (secrets_value h) = false).
  { unfold secrets_value. destruct (secrets_key h) as [[v|t]|];
      [exact Hsecrets | reflexivity | reflexivity]. }
  assert (Hres : resolved h = Some "").
  { unfold resolved, dotenv_value.
    rewrite Hvalue, Henv, Hfile, (find_after_misses _ _ _ _ Hbefore Hline), Hempty.
    reflexivity. }
  rewrite Htext, Hres in Hkey. cbn [PyStr.truthy] in Hkey.
  split; [exists (host_environ h); exact Hkey|].
  intros rt. exact (halted_without_key rt h _ _ Hkey eq_refl).
Qed.

Lemma empty_first_key_line_halts_witness :
  (exists env,
      set_api_key_env
        (mkHost SecretsWithout ∅
           (Some ["# local settings" ++ nl; "OPENAI_API_KEY=" ++ nl;
                  "OPENAI_API_KEY=sk-later" ++ nl]))
      = Ok (Some "", env))
  /\ forall rt,
       halted rt
         (mkHost SecretsWithout ∅
            (Some ["# local settings" ++ nl; "OPENAI_API_KEY=" ++ nl;
                   "OPENAI_API_KEY=sk-later" ++ nl])).
Proof.
  apply (empty_first_key_line_halts
           (mkHost SecretsWithout ∅
              (Some ["# local settings" ++ nl; "OPENAI_API_KEY=" ++ nl;
                     "OPENAI_API_KEY=sk-later" ++ nl]))
           ["# local settings" ++ nl] ("OPENAI_API_KEY=" ++ nl)
           ["OPENAI_API_KEY=sk-later" ++ nl]);
    try reflexivity.
  repeat constructor.
Defined.

(** ** Rules for runs *)

Lemma cached_unfold {K V} `{EqDecision K} called ret_mark
    (get : state -> list (K * V)) put k (body : M V) s :
  cached called ret_mark get put k body s
  = match memoised get put k body (snd (emit (EvCall called) s)) with
    | (Ok v, s1) => (Ok v, snd (emit (EvReturn (ret_mark v)) s1))
    | (Raise e, s1) => (Raise e, s1)
    end.
Proof.
  unfold cached, bind. cbn [emit snd].
  destruct (memoised get put k body _) as [[v|e] s1]; reflexivity.
Qed.

Section Rules.

Context (I : state -> Prop).
Hypothesis I_emit : forall e s, I s -> I (snd (emit e s)).

Lemma spec_weaken {A} (m : M A) (P Q : result A -> list event -> Prop) :
  spec I m P -> (forall r new, P r new -> Q r new) -> spec I m Q.
Proof.
  intros Hm HPQ s r s' Hs Hrun.
  destruct (Hm s r s' Hs Hrun) as (Hs' & new & Htrace & HP).
  split; [exact Hs'|]. exists new. split; [exact Htrace | apply HPQ, HP].
Qed.

Lemma spec_ret {A} (a : A) (Q : result A -> list event -> Prop) :
  Q (Ok a) [] -> spec I (ret a) Q.
Proof.
  intros HQ s r s' Hs Hrun. injection Hrun as <- <-.
  split; [exact Hs|]. exists []. rewrite app_nil_r. split; [reflexivity | exact HQ].
Qed.

Lemma spec_lift {A} (x : result A) (Q : result A -> list event -> Prop) :
  Q x [] -> spec I (lift x) Q.
Proof.
  intros HQ s r s' Hs Hrun. injection Hrun as <- <-.
  split; [exact Hs|]. exists []. rewrite app_nil_r. split; [reflexivity | exact HQ].
Qed.

Lemma spec_raise {A} e (Q : result A -> list event -> Prop) :
  Q (Raise e) [] -> spec I (raise e) Q.
Proof. apply (spec_lift (Raise e)). Qed.

Lemma spec_emit e (Q : result unit -> list event -> Prop) :
  Q (Ok tt) [e] -> spec I (emit e) Q.
Proof.
  intros HQ s r s' Hs Hrun.
  assert (Hs' : s' = snd (emit e s)) by (rewrite Hrun; reflexivity).
  injection Hrun as <- _. subst s'.
  split; [apply I_emit, Hs|]. exists [e]. split; [reflexivity | exact HQ].
Qed.

Lemma spec_show u (Q : result unit -> list event -> Prop) :
  Q (Ok tt) [EvUi u] -> spec I (show u) Q.
Proof. apply spec_emit. Qed.

Lemma spec_responses_create rt req (Q : result response -> list event -> Prop) :
  (forall r, Q r [EvGateway req]) -> spec I (responses_create rt req) Q.
Proof.
  intros HQ s r s' Hs Hrun. rewrite responses_create_run in Hrun.
  injection Hrun as <- <-.
  split; [apply I_emit, Hs|]. exists [EvGateway req]. split; [reflexivity | apply HQ].
Qed.

Lemma spec_bind {A B} (m : M A) (k : A -> M B)
    (P : result A -> list event -> Prop) (Q : result B -> list event -> Prop) :
  spec I m P ->
  (forall e new, P (Raise e) new -> Q (Raise e) new) ->
  (forall a new1, P (Ok a) new1 ->
     spec I (k a) (fun r new2 => Q r (new1 ++ new2)%list)) ->
  spec I (bind m k) Q.
Proof.
  intros Hm Hraise Hk s r s' Hs Hrun. unfold bind in Hrun.
  destruct (m s) as [[a|e] s1] eqn:Hms.
  - destruct (Hm s (Ok a) s1 Hs Hms) as (Hs1 & new1 & Htrace1 & HP).
    destruct (Hk a new1 HP s1 r s' Hs1 Hrun) as (Hs' & new2 & Htrace2 & HQ).
    split; [exact Hs'|]. exists (new1 ++ new2)%list.
    split; [rewrite Htrace2, Htrace1, app_assoc; reflexivity | exact HQ].
  - injection Hrun as <- <-.
    destruct (Hm s (Raise e) s1 Hs Hms) as (Hs1 & new1 & Htrace1 & HP).
    split; [exact Hs1|]. exists new1. split; [exact Htrace1 | apply Hraise, HP].
Qed.

(** A decorated function: the call mark, then either nothing (the table
    answered) or the events of the body, then the return mark if a value
    comes back.  [G] is what is known of every value of the table and of
    every value the body returns. *)
Lemma spec_cached {K V} `{EqDecision K} called ret_mark
    (get : state -> list (K * V)) put k (body : M V)
    (G : V -> Prop) (B : list event -> Prop) :
  (forall e s, get (snd (emit e s)) = get s) ->
  (forall t s, trace (put t s) = trace s) ->
  (forall s v, I s -> memo_get k (get s) = Some v -> G v) ->
  (forall s v, I s -> G v -> I (put ((k, v) :: get s) s)) ->
  spec I body (fun r new => B new /\ forall v, r = Ok v -> G v) ->
  spec I (cached called ret_mark get put k body)
    (fun r new =>
       exists inner,
         (inner = [] \/ B inner)
         /\ new = (EvCall called :: inner
                     ++ match r with
                        | Ok v => [EvReturn (ret_mark v)]
                        | Raise _ => []
                        end)%list
         /\ forall v, r = Ok v -> G v).
Proof.
  intros Hget Hput Htable Hstore Hbody s r s' Hs Hrun.
  rewrite cached_unfold in Hrun.
  set (s0 := snd (emit (EvCall called) s)) in *.
  assert (Hs0 : I s0) by (apply I_emit, Hs).
  assert (Ht0 : trace s0 = (trace s ++ [EvCall called])%list) by reflexivity.
  unfold memoised in Hrun.
  destruct (memo_get k (get s0)) as [v|] eqn:Hlook.
  - (* the table answers *)
    injection Hrun as <- <-.
    split; [exact (I_emit (EvReturn (ret_mark v)) s0 Hs0)|].
    exists [EvCall called; EvReturn (ret_mark v)]. split.
    + cbn [trace emit snd]. rewrite <- ?app_assoc. reflexivity.
    + exists []. split; [left; reflexivity|]. split; [reflexivity|].
      intros v' Hv. injection Hv as <-. exact (Htable s0 v Hs0 Hlook).
  - (* the body runs *)
    destruct (body s0) as [[v|e] s1] eqn:Hrun_body.
    + destruct (Hbody s0 (Ok v) s1 Hs0 Hrun_body)
        as (Hs1 & inner & Htrace1 & HB & HG).
      injection Hrun as <- <-.
      split; [exact (I_emit (EvReturn (ret_mark v)) _
                       (Hstore s1 v Hs1 (HG v eq_refl)))|].
      exists (EvCall called :: inner ++ [EvReturn (ret_mark v)])%list. split.
      * cbn [emit snd trace]. rewrite Hput, Htrace1, Ht0, <- ?app_assoc.
        reflexivity.
      * exists inner. split; [right; exact HB|]. split; [reflexivity|].
        intros v' Hv. injection Hv as <-. apply HG. reflexivity.
    + destruct (Hbody s0 (Raise e) s1 Hs0 Hrun_body)
        as (Hs1 & inner & Htrace1 & HB & HG).
      injection Hrun as <- <-.
      split; [exact Hs1|].
      exists (EvCall called :: inner)%list. split.
      * rewrite Htrace1, Ht0, <- ?app_assoc. reflexivity.
      * exists inner. split; [right; exact HB|].
        split; [rewrite app_nil_r; reflexivity | discriminate].
Qed.

End Rules.

Lemma silent_ret {A} (a : A) : silent (ret a).
Proof. intros s. reflexivity. Qed.

Lemma silent_lift {A} (x : result A) : silent (lift x).
Proof. intros s. reflexivity. Qed.

Lemma silent_raise {A} e : silent (@raise A e).
Proof. intros s. reflexivity. Qed.

Lemma silent_bind {A B} (m : M A) (k : A -> M B) :
  silent m -> (forall a, silent (k a)) -> silent (bind m k).
Proof.
  intros Hm Hk s. unfold bind. specialize (Hm s).
  destruct (m s) as [[a|e] s1]; cbn in Hm; subst s1; [apply Hk | reflexivity].
Qed.

Create HintDb silent.
#[local] Hint Resolve silent_ret silent_lift silent_raise silent_bind : silent.

(** The body of each of the six functions: one request, then a silent
    reading of the response. *)
Lemma spec_body {A} (I : state -> Prop) rt req (k : response -> M A)
    (G : A -> Prop) :
  (forall e s, I s -> I (snd (emit e s))) ->
  (forall resp, silent (k resp)) ->
  (forall resp s v, fst (k resp s) = Ok v -> G v) ->
  spec I (bind (responses_create rt req) k)
    (fun r new => new = [EvGateway req] /\ forall v, r = Ok v -> G v).
Proof.
  intros I_emit Hsilent HG.
  apply (spec_bind I _ _ (fun _ new => new = [EvGateway req])).
  - apply spec_responses_create; [exact I_emit | reflexivity].
  - intros e new ->. split; [reflexivity | discriminate].
  - intros resp new1 -> s r s' Hs Hrun.
    pose proof (Hsilent resp s) as Hsame. rewrite Hrun in Hsame. cbn in Hsame.
    subst s'. split; [exact Hs|]. exists []. rewrite !app_nil_r.
    split; [reflexivity|]. split; [reflexivity|].
    intros v ->. apply (HG resp s v). rewrite Hrun. reflexivity.
Qed.

Lemma silent_reading_clarify resp :
  silent (text <- lift (first_text resp) ;;
          ret (PyStr.split (ascii_of_nat 10) text, resp_id resp)).
Proof. auto with silent. Qed.

Lemma silent_reading_json rt resp {A} (f : json -> A) :
  silent (text <- lift (first_text resp) ;;
          v <- lift (json_loads rt text) ;;
          ret (f v)).
Proof. auto with silent. Qed.

Lemma silent_reading_value rt resp :
  silent (text <- lift (first_text resp) ;; lift (json_loads rt text)).
Proof. auto with silent. Qed.

Lemma silent_reading_search rt q resp :
  silent
    (let output := resp_output resp in
     if (1 <? length output)%nat
        && match output !! 1%nat with
           | Some item => hasattr (item_id item) && present (item_content item)
           | None => false
           end
     then
       item <- lift (index output 1) ;;
       id <- lift (getattr (item_id item)) ;;
       text <- lift (content_text item) ;;
       ret (mkSearchResult q (Some id) text)
     else
       ret (mkSearchResult q None
              ("Error: Unexpected response format: " ++ repr_output rt output))).
Proof.
  cbv zeta. destruct (_ && _); auto 10 with silent.
Qed.

(** Whatever [run_search] returns carries the query it was given. *)
Lemma reading_search_query rt q resp s v :
  fst ((let output := resp_output resp in
        if (1 <? length output)%nat
           && match output !! 1%nat with
              | Some item => hasattr (item_id item) && present (item_content item)
              | None => false
              end
        then
          item <- lift (index output 1) ;;
          id <- lift (getattr (item_id item)) ;;
          text <- lift (content_text item) ;;
          ret (mkSearchResult q (Some id) text)
        else
          ret (mkSearchResult q None
                 ("Error: Unexpected response format: " ++ repr_output rt output)))
         s) = Ok v ->
  sr_query v = q.
Proof.
  cbv zeta. destruct (_ && _).
  - unfold bind, lift, ret.
    destruct (index _ _) as [item|]; [|discriminate].
    destruct (getattr (item_id item)); [|discriminate].
    destruct (content_text item); [|discriminate].
    cbn. intros H. injection H as <-. reflexivity.
  - cbn. intros H. injection H as <-. reflexivity.
Qed.

(** ** The [Run Research] block *)

Lemma memo_get_Forall {K V} `{EqDecision K} (P : K * V -> Prop) k table v :
  Forall P table -> memo_get k table = Some v -> P (k, v).
Proof.
  induction 1 as [|[k' v'] table Hhead _ IH]; cbn; [discriminate|].
  destruct (decide (k' = k)) as [->|]; [|exact IH].
  intros H. injection H as <-. exact Hhead.
Qed.

Lemma search_memo_ok_emit e s : search_memo_ok s -> search_memo_ok (snd (emit e s)).
Proof. intros H. exact H. Qed.

Lemma search_marks_app c1 c2 :
  search_marks (c1 ++ c2) = (search_marks c1 ++ search_marks c2)%list.
Proof. unfold search_marks. apply flat_map_app. Qed.

(** Derived rules: a widget call or a pure step, then the rest. *)
Section Derived.

Context (I : state -> Prop).
Hypothesis I_emit : forall e s, I s -> I (snd (emit e s)).

Lemma spec_seq_show {B} u (k : M B) (Q : result B -> list event -> Prop) :
  spec I k (fun r new => Q r (EvUi u :: new)) ->
  spec I (bind (show u) (fun _ => k)) Q.
Proof.
  intros Hk.
  apply (spec_bind I _ _ (fun r new => r = Ok tt /\ new = [EvUi u])).
  - apply spec_show; [exact I_emit | split; reflexivity].
  - intros e new [H _]. discriminate H.
  - intros a new1 [_ ->]. exact Hk.
Qed.

Lemma spec_bind_lift {A B} (x : result A) (k : A -> M B)
    (Q : result B -> list event -> Prop) :
  match x with
  | Ok a => spec I (k a) Q
  | Raise e => Q (Raise e) []
  end ->
  spec I (bind (lift x) k) Q.
Proof.
  intros H.
  apply (spec_bind I _ _ (fun r new => r = x /\ new = [])).
  - apply spec_lift. split; reflexivity.
  - intros e new [<- ->]. exact H.
  - intros a new1 [<- ->]. exact H.
Qed.

End Derived.

Section Research.

Context (rt : runtime).

Lemma call_post_intro {V} called (ret_mark : V -> returned) G req r new :
  (exists inner,
      (inner = [] \/ inner = [EvGateway req])
      /\ new = (EvCall called :: inner
                  ++ match r with
                     | Ok v => [EvReturn (ret_mark v)]
                     | Raise _ => []
                     end)%list
      /\ forall v, r = Ok v -> G v) ->
  call_post called ret_mark G r new.
Proof.
  intros (inner & Hinner & -> & HG). unfold call_post.
  destruct Hinner as [-> | ->]; destruct r; cbn; auto.
Qed.

Lemma spec_run_search q dm model tools :
  spec search_memo_ok (run_search rt q dm model tools)
    (call_post (CallSearch q) RetSearch (fun v => sr_query v = q)).
Proof.
  eapply spec_weaken;
    [|intros r new; apply (call_post_intro _ _ _ (search_request rt q dm model tools))].
  unfold run_search.
  apply (spec_cached search_memo_ok search_memo_ok_emit (CallSearch q) RetSearch
           memo_search put_search (q, dm, model, tools) _
           (fun v => sr_query v = q)
           (fun new => new = [EvGateway (search_request rt q dm model tools)])).
  - reflexivity.
  - reflexivity.
  - intros s v Hs Hget.
    exact (memo_get_Forall _ _ _ _ Hs Hget).
  - intros s v Hs Hv. constructor; [exact Hv | exact Hs].
  - apply spec_body.
    + exact search_memo_ok_emit.
    + intros resp. apply silent_reading_search.
    + intros resp s v. apply reading_search_query.
Qed.

Lemma spec_evaluate collected goal dm model :
  spec search_memo_ok (evaluate rt collected goal dm model)
    (call_post (CallEvaluate collected goal) RetEnough (fun _ => True)).
Proof.
  eapply spec_weaken;
    [|intros r new;
      apply (call_post_intro _ _ _ (evaluate_request rt collected goal dm model))].
  unfold evaluate.
  apply (spec_cached search_memo_ok search_memo_ok_emit _ RetEnough
           memo_evaluate put_evaluate _ _ (fun _ => True)
           (fun new => new = [EvGateway (evaluate_request rt collected goal dm model)]));
    [reflexivity | reflexivity | auto | intros s v Hs _; exact Hs |].
  apply spec_body; [exact search_memo_ok_emit | | auto].
  intros resp. auto with silent.
Qed.

Lemma spec_get_more_queries collected goal dm model pid :
  spec search_memo_ok (get_more_queries rt collected goal dm model pid)
    (call_post (CallMoreQueries collected goal pid) RetQueries (fun _ => True)).
Proof.
  eapply spec_weaken;
    [|intros r new;
      apply (call_post_intro _ _ _ (more_request rt collected goal dm model pid))].
  unfold get_more_queries.
  apply (spec_cached search_memo_ok search_memo_ok_emit _ RetQueries
           memo_more put_more _ _ (fun _ => True)
           (fun new => new = [EvGateway (more_request rt collected goal dm model pid)]));
    [reflexivity | reflexivity | auto | intros s v Hs _; exact Hs |].
  apply spec_body; [exact search_memo_ok_emit | | auto].
  intros resp. apply (silent_reading_value rt resp).
Qed.

Lemma spec_write_report collected goal dm model :
  spec search_memo_ok (write_report rt collected goal dm model)
    (call_post (CallReport collected goal) RetReport (fun _ => True)).
Proof.
  eapply spec_weaken;
    [|intros r new;
      apply (call_post_intro _ _ _ (report_request rt collected goal dm model))].
  unfold write_report.
  apply (spec_cached search_memo_ok search_memo_ok_emit _ RetReport
           memo_report put_report _ _ (fun _ => True)
           (fun new => new = [EvGateway (report_request rt collected goal dm model)]));
    [reflexivity | reflexivity | auto | intros s v Hs _; exact Hs |].
  apply spec_body; [exact search_memo_ok_emit | | auto].
  intros resp. auto with silent.
Qed.

End Research.

Section Rounds.

Context (rt : runtime).

Lemma spec_round (body : nat -> json -> list search_result -> M (list search_result)) :
  (forall idx q acc,
      spec search_memo_ok (body idx q acc)
        (fun r new => round_post [q] acc r (marks_of new))) ->
  forall qs idx acc,
    spec search_memo_ok (for_enumerate idx qs body acc)
      (fun r new => round_post qs acc r (marks_of new)).
Proof.
  intros Hbody qs. induction qs as [|q qs IH]; intros idx acc.
  - apply spec_ret. exists []. rewrite app_nil_r. repeat split.
  - cbn [for_enumerate].
    eapply spec_bind; [apply Hbody | |].
    + intros e new (found & q' & rest & Hq & Hms).
      exists found, q', (rest ++ qs)%list. split; [|exact Hms].
      change (q :: qs) with ([q] ++ qs)%list. rewrite Hq, <- app_assoc.
      reflexivity.
    + intros acc' new1 (found1 & -> & Hq1 & Hms1).
      eapply spec_weaken; [apply IH|].
      intros r new2 Hpost. rewrite marks_of_app, Hms1.
      destruct r as [acc''|e]; cbn [round_post] in *.
      * destruct Hpost as (found2 & -> & Hq2 & ->).
        exists (found1 ++ found2)%list.
        rewrite app_assoc, map_app, Hq1, Hq2, search_marks_app.
        repeat split.
      * destruct Hpost as (found2 & q' & rest & -> & ->).
        exists (found1 ++ found2)%list, q', rest.
        rewrite map_app, Hq1, search_marks_app, <- !app_assoc.
        repeat split.
Qed.

(** One turn of either loop, seen through its marks. *)
Lemma search_turn_post q acc r new :
  call_post (CallSearch q) RetSearch (fun v => sr_query v = q) r new ->
  round_post [q] acc
    (match r with Ok v => Ok (acc ++ [v])%list | Raise e => Raise e end)
    (marks_of new).
Proof.
  intros (Hmarks & _ & Hq). rewrite Hmarks. destruct r as [v|e].
  - exists [v]. cbn. rewrite (Hq v eq_refl). repeat split.
  - exists [], q, []. repeat split.
Qed.

Lemma spec_initial_round qs :
  spec search_memo_ok (initial_round rt qs)
    (fun r new => round_post qs [] r (marks_of new)).
Proof.
  unfold initial_round. apply spec_round. intros idx q acc.
  apply spec_seq_show; [exact search_memo_ok_emit|].
  eapply spec_bind; [apply spec_run_search | |].
  - intros e new Hpost. exact (search_turn_post q acc (Raise e) new Hpost).
  - intros v new1 Hpost.
    apply spec_seq_show; [exact search_memo_ok_emit|].
    apply spec_ret. cbn [marks_of]. rewrite marks_of_app. cbn [marks_of].
    rewrite app_nil_r.
    exact (search_turn_post q acc (Ok v) new1 Hpost).
Qed.

Lemma spec_expansion_round qs collected :
  spec search_memo_ok (expansion_round rt qs collected)
    (fun r new => round_post qs collected r (marks_of new)).
Proof.
  unfold expansion_round. apply spec_round. intros idx q acc.
  apply spec_seq_show; [exact search_memo_ok_emit|].
  eapply spec_bind; [apply spec_run_search | |].
  - intros e new Hpost. exact (search_turn_post q acc (Raise e) new Hpost).
  - intros v new1 Hpost.
    apply spec_ret. cbn [marks_of]. rewrite app_nil_r.
    exact (search_turn_post q acc (Ok v) new1 Hpost).
Qed.

(** The summary of questions and answers only shows lines. *)
Lemma spec_show_answers_from idx (qas : list (string * string)) :
  spec search_memo_ok (for_enumerate idx qas
            (fun i qa _ => show (UiAnswer i (fst qa) (snd qa))) tt)
    (fun r new => r = Ok tt /\ marks_of new = []).
Proof.
  revert idx. induction qas as [|qa qas IH]; intros idx.
  - apply spec_ret. split; reflexivity.
  - cbn [for_enumerate].
    eapply spec_bind.
    + apply (spec_show search_memo_ok search_memo_ok_emit _
               (fun r new => r = Ok tt /\ marks_of new = [])).
      split; reflexivity.
    + intros e new [H _]. discriminate H.
    + intros [] new1 [_ Hnew1]. eapply spec_weaken; [apply IH|].
      intros r new2 [-> Hnew2]. rewrite marks_of_app, Hnew1, Hnew2.
      split; reflexivity.
Qed.

End Rounds.

Lemma mspec_ret {A} (a : A) (Q : result A -> list mark -> Prop) :
  Q (Ok a) [] -> mspec (ret a) Q.
Proof. intros HQ. apply spec_ret. exact HQ. Qed.

Lemma mspec_bind {A B} (m : M A) (k : A -> M B)
    (P : result A -> list mark -> Prop) (Q : result B -> list mark -> Prop) :
  mspec m P ->
  (forall e ms, P (Raise e) ms -> Q (Raise e) ms) ->
  (forall a ms1, P (Ok a) ms1 -> mspec (k a) (fun r ms2 => Q r (ms1 ++ ms2)%list)) ->
  mspec (bind m k) Q.
Proof.
  intros Hm Hraise Hk. unfold mspec.
  eapply spec_bind; [exact Hm | |].
  - intros e new HP. apply Hraise, HP.
  - intros a new1 HP. eapply spec_weaken; [apply (Hk a _ HP)|].
    intros r new2 HQ. cbn beta in HQ. rewrite marks_of_app. exact HQ.
Qed.

Lemma mspec_seq_show {B} u (k : M B) (Q : result B -> list mark -> Prop) :
  mspec k Q -> mspec (bind (show u) (fun _ => k)) Q.
Proof.
  intros Hk. apply (spec_seq_show _ search_memo_ok_emit). exact Hk.
Qed.

Lemma mspec_bind_lift {A B} (x : result A) (k : A -> M B)
    (Q : result B -> list mark -> Prop) :
  match x with
  | Ok a => mspec (k a) Q
  | Raise e => Q (Raise e) []
  end ->
  mspec (bind (lift x) k) Q.
Proof.
  intros H. apply spec_bind_lift. destruct x; exact H.
Qed.

Lemma mspec_show u (Q : result unit -> list mark -> Prop) :
  Q (Ok tt) [] -> mspec (show u) Q.
Proof. intros HQ. apply (spec_show _ search_memo_ok_emit). exact HQ. Qed.

Lemma mspec_call {V} (m : M V) called (ret_mark : V -> returned) G :
  spec search_memo_ok m (call_post called ret_mark G) ->
  mspec m (call_marks called ret_mark).
Proof.
  intros Hm. eapply spec_weaken; [exact Hm|].
  intros r new (Hmarks & _). exact Hmarks.
Qed.

Section Block.

Context (rt : runtime).

(** After the report is written the block only shows things. *)
Lemma mspec_report_tail questions answers report :
  mspec
    (show (UiMarkdown "### Clarifying Questions and Answers") ;;
     show_answers questions answers ;;
     show (UiMarkdown "### Final Research Report") ;;
     show (UiMarkdown report) ;;
     show (UiMarkdown print_css) ;;
     show (UiInfo "To print or save the report, use your browser's print feature: press Ctrl+P (Windows) or Cmd+P (Mac)."))
    (fun r ms => r = Ok tt /\ ms = []).
Proof.
  apply mspec_seq_show.
  eapply (mspec_bind _ _ (fun r ms => r = Ok tt /\ ms = []));
    [apply spec_show_answers_from | |].
  - intros e ms [H _]. discriminate H.
  - intros [] ms1 [_ ->]. cbn [app].
    do 3 apply mspec_seq_show. apply mspec_show. split; reflexivity.
Qed.

Lemma mspec_expansion c1 goal plan_id :
  mspec
    (show (UiWarning "Not enough information. Generating more queries...") ;;
     queries <- get_more_queries rt c1 goal developer_message MODEL plan_id ;;
     qs <- lift (py_iter queries) ;;
     expansion_round rt qs c1)
    (expansion_post c1 goal plan_id).
Proof.
  apply mspec_seq_show.
  eapply mspec_bind;
    [apply (mspec_call _ _ _ _ (spec_get_more_queries rt _ _ _ _ _)) | |].
  { intros e ms ->. left. reflexivity. }
  intros more ms1 ->.
  apply mspec_bind_lift.
  destruct (py_iter more) as [qs|e] eqn:Hmore.
  - eapply spec_weaken; [apply spec_expansion_round|].
    intros r new Hround. cbn beta.
    destruct r as [c|e]; cbn [round_post expansion_post] in *.
    + destruct Hround as (c2 & -> & Hq & ->).
      exists more, c2. rewrite Hmore, Hq. repeat split.
    + destruct Hround as (found & q & rest & -> & ->).
      right. right. exists more, found, q, rest. split; [exact Hmore | reflexivity].
  - right. left. exists more. split; [exact Hmore | reflexivity].
Qed.

(** Every run of the block leaves one of the mark sequences of
    [research_marks]. *)
Lemma run_research_marks questions answers queries goal plan_id :
  mspec (run_research rt questions answers queries goal plan_id)
    (research_marks queries goal plan_id).
Proof.
  unfold run_research.
  apply mspec_seq_show. apply mspec_bind_lift.
  destruct (py_iter queries) as [qs|e] eqn:Hqs;
    [|apply RM_not_iterable; exact Hqs].
  eapply (mspec_bind _ _ (round_post qs [])); [apply spec_initial_round | |].
  { intros e ms (found & q & rest & -> & ->).
    eapply RM_search_raised. exact Hqs. }
  intros c1 ms1 (found & -> & Hq & ->). cbn [app].
  rewrite <- Hq in Hqs. clear Hq qs. rename found into c1.
  apply mspec_seq_show.
  eapply mspec_bind; [apply (mspec_call _ _ _ _ (spec_evaluate rt _ _ _ _)) | |].
  { intros e ms ->. cbn [app]. apply RM_evaluate_raised. exact Hqs. }
  intros enough ms2 ->.
  destruct enough; cbn [negb].
  - (* the evaluator is satisfied *)
    eapply (mspec_bind _ _ (fun r ms => r = Ok c1 /\ ms = []));
      [apply mspec_ret; split; reflexivity | |].
    { intros e ms [H _]. discriminate H. }
    intros c ms3 [Hc ->]. injection Hc as <-.
    eapply mspec_bind;
      [apply (mspec_call _ _ _ _ (spec_write_report rt _ _ _ _)) | |].
    { intros e ms ->. cbn [app].
      apply RM_enough_report_raised. exact Hqs. }
    intros text ms4 ->.
    eapply spec_weaken; [apply mspec_report_tail|].
    intros r new [-> ->]. cbn [app].
    apply RM_enough_done. exact Hqs.
  - (* the evaluator is not satisfied *)
    change ([] ++ c1)%list with c1.
    eapply (mspec_bind _ _ (expansion_post c1 goal plan_id));
      [apply mspec_expansion | |].
    { intros e ms [-> | [(more & Hmore & ->) | (more & found & q & rest & Hmore & ->)]];
        cbn [app].
      - apply RM_more_raised. exact Hqs.
      - apply RM_more_not_iterable; assumption.
      - apply (RM_expansion_raised _ _ _ e c1 more found q rest Hqs Hmore). }
    intros c ms3 (more & c2 & -> & Hmore & ->).
    eapply mspec_bind;
      [apply (mspec_call _ _ _ _ (spec_write_report rt _ _ _ _)) | |].
    { intros e ms ->.
      apply (RM_expanded_report_raised _ _ _ e c1 more c2 Hqs Hmore). }
    intros text ms4 ->.
    eapply spec_weaken; [apply mspec_report_tail|].
    intros r new [-> ->]. rewrite app_nil_r.
    apply (RM_expanded_done _ _ _ c1 more c2 text Hqs Hmore).
Qed.

End Block.

Lemma count_marks_app kind ms1 ms2 :
  count_marks kind (ms1 ++ ms2) = (count_marks kind ms1 + count_marks kind ms2)%nat.
Proof. unfold count_marks. rewrite List.filter_app, length_app. reflexivity. Qed.

Lemma count_marks_search kind c :
  (forall q, kind (Called (CallSearch q)) = false) ->
  (forall r, kind (Returned (RetSearch r)) = false) ->
  count_marks kind (search_marks c) = 0%nat.
Proof.
  intros Hcall Hret. induction c as [|r c IH]; [reflexivity|].
  unfold count_marks in *. cbn. rewrite Hcall, Hret. exact IH.
Qed.

Lemma found_of_app ms1 ms2 :
  found_of (ms1 ++ ms2) = (found_of ms1 ++ found_of ms2)%list.
Proof.
  induction ms1 as [|[c|[]] ms1 IH]; cbn; rewrite ?IH; reflexivity.
Qed.


Lemma in_search_marks m c :
  In m (search_marks c) ->
  (exists q, m = Called (CallSearch q)) \/ (exists r, m = Returned (RetSearch r)).
Proof.
  induction c as [|r c IH]; cbn; [intros []|].
  intros [<- | [<- | H]]; eauto.
Qed.

Ltac count_search :=
  rewrite ?count_marks_app, ?count_marks_search by reflexivity.

(** C4. In every run of the [Run Research] block the evaluator is called at
    most once; the expansion step is called as often as the evaluator
    returned false, which is at most once; and a run that ends without an
    exception is either searches, evaluation, report, or searches,
    evaluation, one expansion, its searches, report, with nothing between
    the last expansion search and the report. *)
Theorem expansion_runs_once_after_insufficient :
  forall rt questions answers queries goal plan_id s r s',
    search_memo_ok s ->
    run_research rt questions answers queries goal plan_id s = (r, s') ->
    exists ms,
      marks_of (trace s') = (marks_of (trace s) ++ ms)%list
      /\ (count_marks is_evaluation ms <= 1)%nat
      /\ count_marks is_expansion ms = count_marks is_insufficient ms
      /\ (count_marks is_insufficient ms <= count_marks is_evaluation ms)%nat
      /\ (r = Ok tt ->
          (count_marks is_insufficient ms = 0%nat /\
           exists c1 text,
             ms = (search_marks c1
                     ++ [Called (CallEvaluate c1 goal); Returned (RetEnough true);
                         Called (CallReport c1 goal); Returned (RetReport text)])%list)
          \/
          (count_marks is_insufficient ms = 1%nat /\
           exists c1 more c2 text,
             ms = (search_marks c1
                     ++ [Called (CallEvaluate c1 goal); Returned (RetEnough false);
                         Called (CallMoreQueries c1 goal plan_id);
                         Returned (RetQueries more)]
                     ++ search_marks c2
                     ++ [Called (CallReport (c1 ++ c2) goal);
                         Returned (RetReport text)])%list)).
Proof.
  intros rt questions answers queries goal plan_id s r s' Hs Hrun.
  destruct (run_research_marks rt questions answers queries goal plan_id
              s r s' Hs Hrun) as (_ & new & Htrace & Hshape).
  exists (marks_of new). split; [rewrite Htrace; apply marks_of_app|].
  destruct Hshape
    as [e H|e found q rest H|e c1 H|e c1 H|c1 text H|e c1 H|e c1 more H H'
        |e c1 more found q rest H H'|e c1 more c2 H H'|c1 more c2 text H H'];
    (split; [count_search; cbn; lia|]);
    (split; [count_search; cbn; lia|]);
    (split; [count_search; cbn; lia|]);
    try (intros D; discriminate D); intros _.
  - left. split; [count_search; reflexivity|]. exists c1, text. reflexivity.
  - right. split; [count_search; reflexivity|].
    exists c1, more, c2, text. reflexivity.
Qed.

Lemma expansion_runs_once_after_insufficient_witness :
  exists ms,
    marks_of
      (trace
         (snd (run_research Sample.expanding_runtime ["1. Which region?"] ["Europe"]
            Sample.one_query (JStr "Assess EV adoption") "r2" fresh)))
    = (marks_of (trace fresh) ++ ms)%list
    /\ (count_marks is_evaluation ms <= 1)%nat
    /\ count_marks is_expansion ms = count_marks is_insufficient ms
    /\ (count_marks is_insufficient ms <= count_marks is_evaluation ms)%nat
    /\ ((count_marks is_insufficient ms = 0%nat /\
         exists c1 text,
           ms = (search_marks c1
                   ++ [Called (CallEvaluate c1 (JStr "Assess EV adoption"));
                       Returned (RetEnough true);
                       Called (CallReport c1 (JStr "Assess EV adoption"));
                       Returned (RetReport text)])%list)
        \/
        (count_marks is_insufficient ms = 1%nat /\
         exists c1 more c2 text,
           ms = (search_marks c1
                   ++ [Called (CallEvaluate c1 (JStr "Assess EV adoption"));
                       Returned (RetEnough false);
                       Called (CallMoreQueries c1 (JStr "Assess EV adoption") "r2");
                       Returned (RetQueries more)]
                   ++ search_marks c2
                   ++ [Called (CallReport (c1 ++ c2) (JStr "Assess EV adoption"));
                       Returned (RetReport text)])%list)).
Proof.
  destruct (expansion_runs_once_after_insufficient
              Sample.expanding_runtime ["1. Which region?"] ["Europe"]
              Sample.one_query (JStr "Assess EV adoption") "r2" fresh
              (fst (run_research Sample.expanding_runtime ["1. Which region?"] ["Europe"]
            Sample.one_query (JStr "Assess EV adoption") "r2" fresh))
              (snd (run_research Sample.expanding_runtime ["1. Which region?"] ["Europe"]
            Sample.one_query (JStr "Assess EV adoption") "r2" fresh)))
    as (ms & Htrace & Hevaluations & Hexpansions & Hverdicts & Hdone).
  - constructor.
  - apply surjective_pairing.
  - exists ms.
    split; [exact Htrace|]. split; [exact Hevaluations|].
    split; [exact Hexpansions|]. split; [exact Hverdicts|].
    apply Hdone. vm_compute. reflexivity.
Defined.

Ltac in_marks H :=
  repeat (apply in_app_or in H as [H|H]);
  try (apply in_search_marks in H as [[? H]|[? H]]; discriminate H);
  cbn [In] in H;
  repeat match type of H with
         | _ \/ _ => destruct H as [H|H]
         | False => destruct H
         end;
  try discriminate H.




(** ** Clarification and the answer fields *)

(** The judgement without an invariant keeps nothing to re-establish. *)
Lemma trivial_emit : forall e s, (fun _ : state => True) s ->
                                 (fun _ : state => True) (snd (emit e s)).
Proof. intros. exact Logic.I. Qed.

Section Emits.

Context (P : event -> Prop).

Lemma emits_ret {A} (a : A) : emits P (ret a).
Proof. apply spec_ret. constructor. Qed.

Lemma emits_lift {A} (x : result A) : emits P (lift x).
Proof. apply spec_lift. constructor. Qed.

Lemma emits_raise {A} e : emits P (@raise A e).
Proof. apply spec_raise. constructor. Qed.

Lemma emits_show u : P (EvUi u) -> emits P (show u).
Proof. intros H. apply spec_show; [exact trivial_emit|]. repeat constructor. exact H. Qed.

Lemma emits_bind {A B} (m : M A) (k : A -> M B) :
  emits P m -> (forall a, emits P (k a)) -> emits P (bind m k).
Proof.
  intros Hm Hk.
  apply (spec_bind _ _ _ (fun _ new => Forall P new)); [exact Hm | auto |].
  intros a new1 H1. eapply spec_weaken; [apply Hk|].
  intros r new2 H2. apply Forall_app. split; assumption.
Qed.

Lemma emits_for_enumerate {A St} (body : nat -> A -> St -> M St) l :
  (forall i x acc, emits P (body i x acc)) ->
  forall idx acc, emits P (for_enumerate idx l body acc).
Proof.
  intros Hbody. induction l as [|x l IH]; intros idx acc.
  - apply emits_ret.
  - cbn [for_enumerate]. apply emits_bind; [apply Hbody | intros acc'; apply IH].
Qed.

Lemma emits_cached {K V} `{EqDecision K} called ret_mark
    (get : state -> list (K * V)) put k rt req (reading : response -> M V) :
  (forall e s, get (snd (emit e s)) = get s) ->
  (forall t s, trace (put t s) = trace s) ->
  (forall resp, silent (reading resp)) ->
  P (EvCall called) ->
  (forall v, P (EvReturn (ret_mark v))) ->
  P (EvGateway req) ->
  emits P (cached called ret_mark get put k
             (bind (responses_create rt req) reading)).
Proof.
  intros Hget Hput Hsilent Hcall Hret Hreq.
  eapply spec_weaken.
  - apply (spec_cached _ trivial_emit called ret_mark get put k _
             (fun _ => True) (fun new => new = [EvGateway req]));
      [exact Hget | exact Hput | auto | auto |].
    apply spec_body; [exact trivial_emit | exact Hsilent | auto].
  - intros r new (inner & Hinner & -> & _).
    constructor; [exact Hcall|]. apply Forall_app. split.
    + destruct Hinner as [-> | ->]; repeat constructor. exact Hreq.
    + destruct r; repeat constructor. apply Hret.
Qed.

End Emits.

Lemma slots_of_app t1 t2 : slots_of (t1 ++ t2) = (slots_of t1 ++ slots_of t2)%list.
Proof.
  induction t1 as [|[c|r|r|[]] t1 IH]; cbn; rewrite ?IH; reflexivity.
Qed.

Section Planning.

Context (rt : runtime) (u : ui).

Lemma emits_run_search P q :
  P (EvCall (CallSearch q)) ->
  (forall v, P (EvReturn (RetSearch v))) ->
  (forall req, P (EvGateway req)) ->
  emits P (run_search rt q developer_message MODEL TOOLS).
Proof.
  intros Hc Hr Hg. unfold run_search, run_search_body.
  apply emits_cached; [reflexivity | reflexivity | | exact Hc | exact Hr | apply Hg].
  intros resp. apply silent_reading_search.
Qed.

Lemma emits_run_research questions answers qs as' queries goal pid :
  emits (plan_event_ok qs as') (run_research rt questions answers queries goal pid).
Proof.
  unfold run_research, initial_round, expansion_round, show_answers.
  apply emits_bind; [apply emits_show; exact Logic.I | intros _].
  apply emits_bind; [apply emits_lift | intros iq].
  apply emits_bind.
  { apply emits_for_enumerate. intros i q acc.
    apply emits_bind; [apply emits_show; exact Logic.I | intros _].
    apply emits_bind; [apply emits_run_search; intros; exact Logic.I | intros r].
    apply emits_bind; [apply emits_show; exact Logic.I | intros _].
    apply emits_ret. }
  intros c1.
  apply emits_bind; [apply emits_show; exact Logic.I | intros _].
  apply emits_bind.
  { unfold evaluate, evaluate_body.
    apply emits_cached;
      [reflexivity | reflexivity | auto with silent | exact Logic.I
       | intros; exact Logic.I | exact Logic.I]. }
  intros enough.
  apply emits_bind.
  { destruct enough; cbn [negb]; [apply emits_ret|].
    apply emits_bind; [apply emits_show; exact Logic.I | intros _].
    apply emits_bind.
    { unfold get_more_queries, get_more_queries_body.
      apply emits_cached;
        [reflexivity | reflexivity | | exact Logic.I
         | intros; exact Logic.I | exact Logic.I].
      intros resp. apply (silent_reading_value rt resp). }
    intros more.
    apply emits_bind; [apply emits_lift | intros mq].
    apply emits_for_enumerate. intros i q acc.
    apply emits_bind; [apply emits_show; exact Logic.I | intros _].
    apply emits_bind; [apply emits_run_search; intros; exact Logic.I | intros r].
    apply emits_ret. }
  intros c.
  apply emits_bind.
  { unfold write_report, write_report_body.
    apply emits_cached;
      [reflexivity | reflexivity | auto with silent | exact Logic.I
       | intros; exact Logic.I | exact Logic.I]. }
  intros report.
  apply emits_bind; [apply emits_show; exact Logic.I | intros _].
  apply emits_bind.
  { apply emits_for_enumerate. intros i qa acc. apply emits_show. exact Logic.I. }
  intros _.
  repeat (apply emits_bind; [apply emits_show; exact Logic.I | intros _]).
  apply emits_show. exact Logic.I.
Qed.

Lemma emits_plan_and_research questions answers topic cid :
  emits (plan_event_ok questions answers)
    (plan_and_research rt u questions answers topic cid).
Proof.
  unfold plan_and_research.
  apply emits_bind.
  { unfold get_goal_and_queries, get_goal_and_queries_body.
    apply emits_cached;
      [reflexivity | reflexivity | | split; reflexivity
       | intros; exact Logic.I | exact Logic.I].
    intros resp.
    apply (silent_reading_json rt resp (fun plan => (plan, resp_id resp))). }
  intros [plan pid].
  apply emits_bind; [apply emits_lift | intros goal].
  apply emits_bind; [apply emits_lift | intros queries].
  apply emits_bind; [apply emits_show; exact Logic.I | intros _].
  apply emits_bind; [apply emits_show; exact Logic.I | intros _].
  apply emits_bind; [apply emits_lift | intros qs].
  apply emits_bind.
  { apply emits_for_enumerate. intros i q acc. apply emits_show. exact Logic.I. }
  intros _.
  apply emits_bind; [apply emits_show; exact Logic.I | intros _].
  destruct (ui_run_research u); [apply emits_run_research | apply emits_ret].
Qed.

End Planning.

Lemma get_clarifying_questions_miss rt topic dm model s resp :
  memo_get (topic, dm, model) (memo_clarify s) = None ->
  provider rt (requests_of (trace s)) (clarify_request topic dm model) = Ok resp ->
  fst (get_clarifying_questions rt topic dm model s)
  = (text ← first_text resp;
     Ok (PyStr.split (ascii_of_nat 10) text, resp_id resp)).
Proof.
  intros Hmiss Hprov. unfold get_clarifying_questions.
  rewrite cached_miss by (reflexivity || assumption).
  unfold get_clarifying_questions_body, bind.
  rewrite responses_create_run, requests_after_call, Hprov.
  unfold lift. destruct (first_text resp); reflexivity.
Qed.

(** The loop that draws the answer fields: one field per question, in
    order, and the texts the fields hold. *)
Lemma spec_answer_fields_from u questions idx acc :
  spec (fun _ => True)
    (for_enumerate idx questions
       (fun i q answers =>
          show (UiTextInput i q) ;; ret (answers ++ [ui_answer u i])%list)
       acc)
    (fun r new =>
       r = Ok (acc ++ map (ui_answer u) (seq idx (length questions)))%list
       /\ marks_of new = []
       /\ slots_of new = numbered idx questions).
Proof.
  revert idx acc. induction questions as [|q questions IH]; intros idx acc.
  - apply spec_ret. rewrite app_nil_r. repeat split.
  - cbn [for_enumerate].
    eapply spec_bind.
    + apply (spec_seq_show _ trivial_emit (UiTextInput idx q)
               (ret (acc ++ [ui_answer u idx])%list)
               (fun r new => r = Ok (acc ++ [ui_answer u idx])%list
                             /\ new = [EvUi (UiTextInput idx q)])).
      apply spec_ret. split; reflexivity.
    + intros e new [H _]. discriminate H.
    + intros acc' new1 [Hacc ->]. injection Hacc as ->.
      eapply spec_weaken; [apply IH|].
      intros r new2 (-> & Hmarks & Hslots).
      rewrite marks_of_app, slots_of_app, Hmarks, Hslots, <- app_assoc.
      repeat split.
Qed.

Lemma asked_after_show u w new :
  (forall i q, w <> UiTextInput i q) ->
  asked u new -> asked u (EvUi w :: new).
Proof.
  intros Hw H. unfold asked in *. cbn [marks_of].
  replace (slots_of (EvUi w :: new)) with (slots_of new); [exact H|].
  destruct w; try reflexivity. exfalso. exact (Hw _ _ eq_refl).
Qed.

Lemma plan_events_draw_no_field questions answers rest :
  Forall (plan_event_ok questions answers) rest -> slots_of rest = [].
Proof.
  induction 1 as [|e rest He _ IH]; [reflexivity|].
  destruct e as [c|r|r|[]]; cbn in *; try exact IH. destruct He.
Qed.

Lemma spec_get_clarifying_questions rt topic dm model :
  spec (fun _ => True) (get_clarifying_questions rt topic dm model)
    (fun r new =>
       marks_of new
       = Called (CallClarify topic)
           :: match r with
              | Ok qi => [Returned (RetQuestions (fst qi) (snd qi))]
              | Raise _ => []
              end
       /\ slots_of new = []).
Proof.
  eapply spec_weaken.
  - unfold get_clarifying_questions, get_clarifying_questions_body.
    apply (spec_cached _ trivial_emit _ _ memo_clarify put_clarify _ _
             (fun _ => True)
             (fun new => new = [EvGateway (clarify_request topic dm model)]));
      [reflexivity | reflexivity | auto | auto |].
    apply spec_body; [exact trivial_emit | | auto].
    intros resp. apply silent_reading_clarify.
  - intros r new (inner & Hinner & -> & _).
    destruct Hinner as [-> | ->]; destruct r; cbn; split; reflexivity.
Qed.

Lemma spec_clarify_and_on rt u topic :
  spec (fun _ => True) (clarify_and_on rt u topic) (fun _ new => asked u new).
Proof.
  unfold clarify_and_on.
  apply (spec_seq_show _ trivial_emit).
  eapply spec_weaken;
    [|intros r new H; apply asked_after_show; [discriminate | exact H]].
  eapply spec_bind; [apply spec_get_clarifying_questions | |].
  { intros e new [Hmarks Hslots]. left. split; [right; eauto | exact Hslots]. }
  intros [questions id] new1 [Hmarks1 Hslots1]. cbn [fst snd] in Hmarks1.
  apply (spec_seq_show _ trivial_emit).
  eapply spec_bind; [apply (spec_answer_fields_from u questions 0 []) | |].
  { intros e new (H & _). discriminate H. }
  intros answers new2 (Hanswers & Hmarks2 & Hslots2).
  injection Hanswers as ->. cbn [app].
  fold (answers_given u (length questions)).
  assert (Hshape : forall (r : result unit) rest,
             Forall (plan_event_ok questions (answers_given u (length questions))) rest ->
             (rest = []
              \/ forallb PyStr.truthy (answers_given u (length questions)) = true) ->
             asked u
               (new1 ++ EvUi (UiWrite "Please answer the following clarifying questions:")
                  :: new2 ++ rest)%list).
  { intros _ rest Hrest Hguard. right. exists topic, questions, id, rest.
    rewrite marks_of_app, slots_of_app. cbn [marks_of slots_of].
    rewrite marks_of_app, slots_of_app, Hmarks1, Hslots1, Hmarks2, Hslots2.
    rewrite (plan_events_draw_no_field _ _ _ Hrest), app_nil_r.
    repeat split; assumption. }
  destruct (forallb PyStr.truthy (answers_given u (length questions))) eqn:Hall.
  - eapply spec_weaken; [apply emits_plan_and_research|].
    intros r rest Hrest. apply (Hshape r rest Hrest). right. reflexivity.
  - apply spec_ret. apply (Hshape (Ok tt) []); [constructor | left; reflexivity].
Qed.

Lemma spec_app rt h u :
  spec (fun _ => True) (app rt h u) (fun _ new => asked u new).
Proof.
  assert (Hquiet : asked u []) by (left; split; [left|]; reflexivity).
  unfold app.
  apply (spec_seq_show _ trivial_emit).
  apply (spec_seq_show _ trivial_emit).
  eapply spec_weaken;
    [|intros r new H; do 2 (apply asked_after_show; [discriminate|]); exact H].
  apply spec_bind_lift.
  destruct (set_api_key_env h) as [[api_key env]|e]; [|exact Hquiet].
  eapply (spec_bind _ _ _ (fun r new => marks_of new = [] /\ slots_of new = [])).
  - destruct (negb (truthy_opt api_key)).
    + apply (spec_seq_show _ trivial_emit). apply spec_raise. split; reflexivity.
    + apply spec_ret. split; reflexivity.
  - intros e new [Hm Hs]. left. split; [left; exact Hm | exact Hs].
  - intros [] new1 [Hm1 Hs1].
    eapply spec_weaken with (P := fun _ new => asked u new).
    + apply (spec_seq_show _ trivial_emit).
      eapply spec_weaken;
        [|intros r new H; apply asked_after_show; [discriminate | exact H]].
      destruct (PyStr.truthy _); [apply spec_clarify_and_on | apply spec_ret, Hquiet].
    + intros r new2 H. unfold asked in *.
      rewrite marks_of_app, slots_of_app, Hm1, Hs1. exact H.
Qed.

Lemma in_marks_of_returned x t : In (Returned x) (marks_of t) -> In (EvReturn x) t.
Proof.
  induction t as [|[c|r|r|w] t IH]; cbn; [tauto | | | tauto | tauto].
  - intros [H|H]; [discriminate H | auto].
  - intros [H|H]; [injection H as ->; auto | auto].
Qed.

Lemma in_marks_of_called c t : In (Called c) (marks_of t) -> In (EvCall c) t.
Proof.
  induction t as [|[c'|r|r|w] t IH]; cbn; [tauto | | | tauto | tauto].
  - intros [H|H]; [injection H as ->; auto | auto].
  - intros [H|H]; [discriminate H | auto].
Qed.

Lemma all_truthy_non_empty answers :
  forallb PyStr.truthy answers = true -> Forall (fun a => a <> "") answers.
Proof.
  induction answers as [|a answers IH]; cbn; [constructor|].
  intros H. apply andb_true_iff in H as [Ha Hrest].
  constructor; [intros ->; discriminate Ha | exact (IH Hrest)].
Qed.

Lemma numbered_length idx questions :
  length (numbered idx questions) = length questions.
Proof.
  unfold numbered. rewrite length_combine, length_seq. apply Nat.min_id.
Qed.

(** C8. The Clarification Step returns the text of the response split at
    line feeds, with the id of the response.  In every run of the script in
    which a list of questions comes back, the answer fields drawn are
    exactly one per question, in order; and if planning is called at all, it
    is called with these questions and with the texts of these fields, none
    of which is empty. *)
Theorem one_answer_field_per_question :
  (forall rt topic dm model s resp text,
      memo_get (topic, dm, model) (memo_clarify s) = None ->
      provider rt (requests_of (trace s)) (clarify_request topic dm model)
      = Ok resp ->
      first_text resp = Ok text ->
      fst (get_clarifying_questions rt topic dm model s)
      = Ok (PyStr.split (ascii_of_nat 10) text, resp_id resp))
  /\ (forall rt h u s r s',
        app rt h u s = (r, s') ->
        exists new,
          trace s' = (trace s ++ new)%list
          /\ forall questions id,
               In (Returned (RetQuestions questions id)) (marks_of new) ->
               slots_of new = numbered 0 questions
               /\ length (slots_of new) = length questions
               /\ forall a q t c,
                    In (Called (CallPlan a q t c)) (marks_of new) ->
                    q = questions
                    /\ a = answers_given u (length questions)
                    /\ Forall (fun x => x <> "") a).
Proof.
  split.
  - intros rt topic dm model s resp text Hmiss Hprov Htext.
    rewrite (get_clarifying_questions_miss _ _ _ _ _ _ Hmiss Hprov), Htext.
    reflexivity.
  - intros rt h u s r s' Hrun.
    destruct (spec_app rt h u s r s' Logic.I Hrun) as (_ & new & Htrace & Hasked).
    exists new. split; [exact Htrace|].
    intros questions id Hin.
    destruct Hasked
      as [[[Hm | (topic & Hm)] _]
         | (topic & qs & id0 & rest & Hm & Hslots & Hrest & Hguard)];
      rewrite Hm in Hin.
    + destruct Hin.
    + destruct Hin as [H|[]]. discriminate H.
    + assert (Hqs : qs = questions).
      { destruct Hin as [H|[H|H]]; [discriminate H | injection H as -> _; reflexivity|].
        apply in_marks_of_returned in H.
        destruct (proj1 (List.Forall_forall _ _) Hrest _ H). }
      subst qs. split; [exact Hslots|].
      split; [rewrite Hslots; apply numbered_length|].
      intros a q t c Hplan. rewrite Hm in Hplan.
      destruct Hplan as [H|[H|H]]; [discriminate H | discriminate H|].
      apply in_marks_of_called in H.
      destruct (proj1 (List.Forall_forall _ _) Hrest _ H) as [-> ->].
      split; [reflexivity|]. split; [reflexivity|].
      apply all_truthy_non_empty.
      destruct Hguard as [-> | Hall]; [destruct H | exact Hall].
Qed.

Lemma one_answer_field_per_question_witness :
  fst (get_clarifying_questions Sample.session_runtime
         "electric vehicle adoption trends" developer_message MODEL_MINI fresh)
  = Ok (PyStr.split (ascii_of_nat 10) Sample.questions_text, "r1")
  /\ exists new,
       trace (snd (app Sample.session_runtime Sample.keyed_host
                     Sample.eager_user fresh))
       = (trace fresh ++ new)%list
       /\ forall questions id,
            In (Returned (RetQuestions questions id)) (marks_of new) ->
            slots_of new = numbered 0 questions
            /\ length (slots_of new) = length questions
            /\ forall a q t c,
                 In (Called (CallPlan a q t c)) (marks_of new) ->
                 q = questions
                 /\ a = answers_given Sample.eager_user (length questions)
                 /\ Forall (fun x => x <> "") a.
Proof.
  destruct one_answer_field_per_question as [Hsplit Hfields].
  split.
  - apply (Hsplit Sample.session_runtime "electric vehicle adoption trends"
             developer_message MODEL_MINI fresh
             (mkResponse "r1" [Sample.message "msg_r1" Sample.questions_text]));
      reflexivity.
  - apply (Hfields Sample.session_runtime Sample.keyed_host Sample.eager_user
             fresh
             (fst (app Sample.session_runtime Sample.keyed_host
                     Sample.eager_user fresh))).
    apply surjective_pairing.
Defined.

(** * Further properties of the script *)

(** ** More on the Search Step *)

(** X1. When the provider answers a search that the memo table does not
    answer, [run_search] raises exactly when the second output item has an
    id and a content that is [None], or has no first part, or whose first
    part has no text; what it raises then is [TypeError], [IndexError] or
    [AttributeError], in this order of cases; and whenever it returns a
    result, the result carries the query it was given. *)
Theorem run_search_raises_exactly_on_textless_message :
  forall rt q dm model tools s resp,
    memo_get (q, dm, model, tools) (memo_search s) = None ->
    provider rt (requests_of (trace s)) (search_request rt q dm model tools)
    = Ok resp ->
    ((exists e, fst (run_search rt q dm model tools s) = Raise e)
     <-> textless_message resp)
    /\ (forall e, fst (run_search rt q dm model tools s) = Raise e ->
          exists id content,
            resp_output resp !! 1%nat = Some (mkItem (Some id) content)
            /\ match content with
               | Null => e = TypeError
               | Has [] => e = IndexError
               | Has (_ :: _) => e = AttributeError
               | Absent => False
               end)
    /\ (forall v, fst (run_search rt q dm model tools s) = Ok v ->
                  sr_query v = q).
Proof.
  intros rt q dm model tools s resp miss answered.
  rewrite (run_search_miss rt q dm model tools s resp miss answered). cbv zeta.
  unfold textless_message, index.
  destruct (resp_output resp !! 1%nat) as [[[id|] [| |content]]|] eqn:Hitem;
    try (pose proof (lookup_lt_Some _ _ _ Hitem) as Hlen;
         apply Nat.ltb_lt in Hlen; rewrite Hlen);
    cbn [hasattr present andb]; rewrite ?andb_false_r;
    try (split; [|split];
         [ split; [intros [e H]; discriminate H|];
           intros (id' & content' & H & Hshape);
           first [discriminate H
                 | injection H as <- <-;
                   destruct Hshape as [H | [H | (rest' & H)]]; discriminate H]
         | discriminate
         | intros v H; injection H as <-; reflexivity ]).
  - (* id, content None *)
    cbn. split; [|split].
    + split; [intros _; exists id, Null; auto | eauto].
    + intros e H. injection H as <-. exists id, Null. auto.
    + discriminate.
  - (* id and a list of parts *)
    destruct content as [|[[text|]] rest]; cbn.
    + split; [|split].
      * split; [intros _; exists id, (Has []); auto | eauto].
      * intros e H. injection H as <-. exists id, (Has []). auto.
      * discriminate.
    + split; [|split].
      * split; [intros [e H]; discriminate H|].
        intros (id' & content & H & Hshape). injection H as <- <-.
        destruct Hshape as [H | [H | (rest' & H)]]; discriminate H.
      * discriminate.
      * intros v H. injection H as <-. reflexivity.
    + split; [|split].
      * split; [intros _; exists id, (Has (mkPart None :: rest)); eauto 6 | eauto].
      * intros e H. injection H as <-.
        exists id, (Has (mkPart None :: rest)). auto.
      * discriminate.
Qed.

Lemma run_search_raises_exactly_on_textless_message_witness :
  ((exists e,
       fst (run_search
              (Sample.runtime_of
                 [Ok (mkResponse "s1"
                        [Sample.search_call "ws_s1"; mkItem (Some "rs_s1") Null])])
              (JStr "EV sales statistics 2024") developer_message MODEL TOOLS
              fresh) = Raise e)
   <-> textless_message
         (mkResponse "s1"
            [Sample.search_call "ws_s1"; mkItem (Some "rs_s1") Null]))
  /\ (forall e,
        fst (run_search
               (Sample.runtime_of
                  [Ok (mkResponse "s1"
                         [Sample.search_call "ws_s1"; mkItem (Some "rs_s1") Null])])
               (JStr "EV sales statistics 2024") developer_message MODEL TOOLS
               fresh) = Raise e ->
        exists id content,
          resp_output
            (mkResponse "s1"
               [Sample.search_call "ws_s1"; mkItem (Some "rs_s1") Null])
            !! 1%nat = Some (mkItem (Some id) content)
          /\ match content with
             | Null => e = TypeError
             | Has [] => e = IndexError
             | Has (_ :: _) => e = AttributeError
             | Absent => False
             end)
  /\ (forall v,
        fst (run_search
               (Sample.runtime_of
                  [Ok (mkResponse "s1"
                         [Sample.search_call "ws_s1"; mkItem (Some "rs_s1") Null])])
               (JStr "EV sales statistics 2024") developer_message MODEL TOOLS
               fresh) = Ok v ->
        sr_query v = JStr "EV sales statistics 2024").
Proof.
  apply (run_search_raises_exactly_on_textless_message
           (Sample.runtime_of
              [Ok (mkResponse "s1"
                     [Sample.search_call "ws_s1"; mkItem (Some "rs_s1") Null])])
           (JStr "EV sales statistics 2024") developer_message MODEL TOOLS fresh
           (mkResponse "s1"
              [Sample.search_call "ws_s1"; mkItem (Some "rs_s1") Null]));
    reflexivity.
Defined.

(** X2. For a search that the memo table does not answer: a response whose
    second output item has an id and a content beginning with a text part
    gives the result with that id and that text; a response with fewer than
    two output items, or whose second item lacks the id or the content,
    gives the result without id whose text is the diagnostic. *)
Theorem run_search_result_by_shape :
  forall rt q dm model tools s resp,
    memo_get (q, dm, model, tools) (memo_search s) = None ->
    provider rt (requests_of (trace s)) (search_request rt q dm model tools)
    = Ok resp ->
    (forall id text parts,
        resp_output resp !! 1%nat
        = Some (mkItem (Some id) (Has (mkPart (Some text) :: parts))) ->
        fst (run_search rt q dm model tools s)
        = Ok (mkSearchResult q (Some id) text))
    /\ ((resp_output resp !! 1%nat = None
         \/ exists item, resp_output resp !! 1%nat = Some item
                         /\ (item_id item = None \/ item_content item = Absent)) ->
        fst (run_search rt q dm model tools s)
        = Ok (mkSearchResult q None
                ("Error: Unexpected response format: "
                   ++ repr_output rt (resp_output resp)))).
Proof.
  intros rt q dm model tools s resp miss answered. split.
  - intros id text parts.
    apply (run_search_well_formed rt q dm model tools s resp miss answered).
  - apply (run_search_unexpected_shape rt q dm model tools s resp miss answered).
Qed.

Lemma run_search_result_by_shape_witness :
  (forall id text parts,
      resp_output (mkResponse "s1" [Sample.search_call "ws_s1"]) !! 1%nat
      = Some (mkItem (Some id) (Has (mkPart (Some text) :: parts))) ->
      fst (run_search
             (Sample.runtime_of [Ok (mkResponse "s1" [Sample.search_call "ws_s1"])])
             (JStr "EV sales statistics 2024") developer_message MODEL TOOLS
             fresh)
      = Ok (mkSearchResult (JStr "EV sales statistics 2024") (Some id) text))
  /\ fst (run_search
            (Sample.runtime_of [Ok (mkResponse "s1" [Sample.search_call "ws_s1"])])
            (JStr "EV sales statistics 2024") developer_message MODEL TOOLS
            fresh)
     = Ok (mkSearchResult (JStr "EV sales statistics 2024") None
             ("Error: Unexpected response format: " ++ "<output>")).
Proof.
  destruct (run_search_result_by_shape
              (Sample.runtime_of [Ok (mkResponse "s1" [Sample.search_call "ws_s1"])])
              (JStr "EV sales statistics 2024") developer_message MODEL TOOLS
              fresh (mkResponse "s1" [Sample.search_call "ws_s1"]))
    as [Hwell Hother]; try reflexivity.
  split; [exact Hwell | apply Hother; left; reflexivity].
Defined.

(** ** Failures of the provider *)

Lemma cached_provider_failure {K V} `{EqDecision K} called ret_mark
    (get : state -> list (K * V)) put k rt req (reading : response -> M V) s e :
  (forall e0 s0, get (snd (emit e0 s0)) = get s0) ->
  memo_get k (get s) = None ->
  provider rt (requests_of (trace s)) req = Raise e ->
  fst (cached called ret_mark get put k (bind (responses_create rt req) reading) s)
  = Raise e.
Proof.
  intros Hget Hmiss Hfail.
  rewrite cached_miss by assumption.
  unfold bind. rewrite responses_create_run, requests_after_call, Hfail.
  reflexivity.
Qed.

(** X14. No function of the script catches a failure of the provider: when
    the memo table does not answer and the provider fails, the function
    raises the provider's exception.  This holds for the Search Step too,
    whose guard only looks at the shape of a response that came back. *)
Theorem provider_failure_is_raised :
  forall rt s e,
    (forall q dm model tools,
        memo_get (q, dm, model, tools) (memo_search s) = None ->
        provider rt (requests_of (trace s)) (search_request rt q dm model tools)
        = Raise e ->
        fst (run_search rt q dm model tools s) = Raise e)
    /\ (forall topic dm model,
          memo_get (topic, dm, model) (memo_clarify s) = None ->
          provider rt (requests_of (trace s)) (clarify_request topic dm model)
          = Raise e ->
          fst (get_clarifying_questions rt topic dm model s) = Raise e)
    /\ (forall answers questions topic dm model cid,
          memo_get (answers, questions, topic, dm, model, cid) (memo_plan s) = None ->
          provider rt (requests_of (trace s))
            (plan_request rt answers questions topic dm model cid) = Raise e ->
          fst (get_goal_and_queries rt answers questions topic dm model cid s)
          = Raise e)
    /\ (forall collected goal dm model,
          memo_get (collected, goal, dm, model) (memo_evaluate s) = None ->
          provider rt (requests_of (trace s))
            (evaluate_request rt collected goal dm model) = Raise e ->
          fst (evaluate rt collected goal dm model s) = Raise e)
    /\ (forall collected goal dm model pid,
          memo_get (collected, goal, dm, model, pid) (memo_more s) = None ->
          provider rt (requests_of (trace s))
            (more_request rt collected goal dm model pid) = Raise e ->
          fst (get_more_queries rt collected goal dm model pid s) = Raise e)
    /\ (forall collected goal dm model,
          memo_get (collected, goal, dm, model) (memo_report s) = None ->
          provider rt (requests_of (trace s))
            (report_request rt collected goal dm model) = Raise e ->
          fst (write_report rt collected goal dm model s) = Raise e).
Proof.
  intros rt s e. repeat split; intros;
    apply cached_provider_failure; solve [reflexivity | assumption].
Qed.

Lemma provider_failure_is_raised_witness :
  fst (run_search (Sample.runtime_of [Raise (APIError "rate limit")])
         (JStr "EV sales statistics 2024") developer_message MODEL TOOLS fresh)
  = Raise (APIError "rate limit").
Proof.
  destruct (provider_failure_is_raised
              (Sample.runtime_of [Raise (APIError "rate limit")]) fresh
              (APIError "rate limit")) as [Hsearch _].
  apply Hsearch; reflexivity.
Defined.

(** ** Memo tables across calls and runs *)

Lemma extends_refl s : extends s s.
Proof. unfold extends. repeat split; auto. Qed.

Lemma extends_trans s1 s2 s3 : extends s1 s2 -> extends s2 s3 -> extends s1 s3.
Proof.
  unfold extends.
  intros (A1 & A2 & A3 & A4 & A5 & A6) (B1 & B2 & B3 & B4 & B5 & B6).
  repeat split; auto.
Qed.

Lemma extends_same_tables s s' : tables s' = tables s -> extends s s'.
Proof.
  unfold tables. intros H. injection H as H1 H2 H3 H4 H5 H6.
  unfold extends. rewrite H1, H2, H3, H4, H5, H6. repeat split; auto.
Qed.

Lemma extends_to_same_tables s s1 s2 :
  extends s s1 -> tables s2 = tables s1 -> extends s s2.
Proof.
  intros H Hsame. apply (extends_trans _ _ _ H), extends_same_tables, Hsame.
Qed.

Lemma echo_nil : echo [] [].
Proof. repeat split. Qed.

Lemma echo_app a1 a2 b1 b2 :
  echo a1 a2 -> echo b1 b2 -> echo (a1 ++ b1) (a2 ++ b2).
Proof.
  intros (Ha1 & Ha2 & Ha3) (Hb1 & Hb2 & Hb3). unfold echo.
  rewrite !marks_of_app, !shown_of_app, !requests_of_app.
  rewrite Ha1, Ha2, Ha3, Hb1, Hb2, Hb3. repeat split.
Qed.

Lemma memo_get_cons_miss {K V} `{EqDecision K} (k k' : K) (v v' : V) table :
  memo_get k table = None ->
  memo_get k' table = Some v' ->
  memo_get k' ((k, v) :: table) = Some v'.
Proof.
  intros Hmiss Hhit. cbn. destruct (decide (k = k')) as [->|]; [|exact Hhit].
  congruence.
Qed.

Lemma memo_get_cons_same {K V} `{EqDecision K} (k : K) (v : V) table :
  memo_get k ((k, v) :: table) = Some v.
Proof. cbn. destruct (decide (k = k)); [reflexivity | contradiction]. Qed.

Section Replays.

Lemma replays_ret {A} (a : A) : replays (ret a).
Proof.
  intros s r s1 H. injection H as <- <-.
  split; [apply extends_refl|]. exists []. rewrite app_nil_r.
  split; [reflexivity|].
  intros a' Ha s2 _. injection Ha as <-. exists s2, []. rewrite app_nil_r.
  split; [reflexivity|]. split; [reflexivity|]. split; [reflexivity|].
  apply echo_nil.
Qed.

Lemma replays_lift {A} (x : result A) : replays (lift x).
Proof.
  intros s r s1 H. injection H as <- <-.
  split; [apply extends_refl|]. exists []. rewrite app_nil_r.
  split; [reflexivity|].
  intros a' Ha s2 _. subst x. exists s2, []. rewrite app_nil_r.
  split; [reflexivity|]. split; [reflexivity|]. split; [reflexivity|].
  apply echo_nil.
Qed.

Lemma replays_raise {A} e : replays (@raise A e).
Proof. apply (replays_lift (Raise e)). Qed.

Lemma replays_show u : replays (show u).
Proof.
  intros s r s1 H. injection H as <- <-.
  split; [apply extends_same_tables; reflexivity|].
  exists [EvUi u]. split; [reflexivity|].
  intros a Ha s2 _. injection Ha as <-.
  exists (snd (show u s2)), [EvUi u]. repeat split.
Qed.

Lemma replays_bind {A B} (m : M A) (k : A -> M B) :
  replays m -> (forall a, replays (k a)) -> replays (bind m k).
Proof.
  intros Hm Hk s r s3 Hrun. unfold bind in Hrun.
  destruct (m s) as [[a|e] s1] eqn:Hms.
  - destruct (Hm s (Ok a) s1 Hms) as (Hext1 & new1 & Htrace1 & Hagain1).
    destruct (Hk a s1 r s3 Hrun) as (Hext3 & new3 & Htrace3 & Hagain3).
    split; [exact (extends_trans _ _ _ Hext1 Hext3)|].
    exists (new1 ++ new3)%list.
    split; [rewrite Htrace3, Htrace1, app_assoc; reflexivity|].
    intros b Hb s2 Hext2.
    destruct (Hagain1 a eq_refl s2 (extends_trans _ _ _ Hext3 Hext2))
      as (s2' & new2 & Hrun2 & Htrace2 & Htables2 & Hecho2).
    destruct (Hagain3 b Hb s2' (extends_to_same_tables _ _ _ Hext2 Htables2))
      as (s2'' & new4 & Hrun4 & Htrace4 & Htables4 & Hecho4).
    exists s2'', (new2 ++ new4)%list.
    split; [unfold bind; rewrite Hrun2; exact Hrun4|].
    split; [rewrite Htrace4, Htrace2, app_assoc; reflexivity|].
    split; [rewrite Htables4; exact Htables2|].
    apply echo_app; assumption.
  - injection Hrun as <- <-.
    destruct (Hm s (Raise e) s1 Hms) as (Hext1 & new1 & Htrace1 & _).
    split; [exact Hext1|]. exists new1. split; [exact Htrace1 | discriminate].
Qed.

Lemma replays_for_enumerate {A St} (body : nat -> A -> St -> M St) l :
  (forall i x acc, replays (body i x acc)) ->
  forall idx acc, replays (for_enumerate idx l body acc).
Proof.
  intros Hbody. induction l as [|x l IH]; intros idx acc.
  - apply replays_ret.
  - cbn [for_enumerate]. apply replays_bind; [apply Hbody | intros acc'; apply IH].
Qed.

(** A decorated function, whichever of the six tables it uses: [get] and
    [put] read and write that table and no other. *)
Lemma replays_cached {K V} `{EqDecision K} called ret_mark
    (get : state -> list (K * V)) put k rt req (reading : response -> M V) :
  (forall e s, get (snd (emit e s)) = get s) ->
  (forall t s, trace (put t s) = trace s) ->
  (forall s s2, extends s s2 ->
     forall k v, memo_get k (get s) = Some v -> memo_get k (get s2) = Some v) ->
  (forall s s' v, tables s' = tables s -> memo_get k (get s) = None ->
     extends s (put ((k, v) :: get s') s')) ->
  (forall t s, get (put t s) = t) ->
  (forall resp, silent (reading resp)) ->
  replays (cached called ret_mark get put k
             (bind (responses_create rt req) reading)).
Proof.
  intros Hget Hput Hlook Hstore Hgetput Hsilent s r s1 Hrun.
  rewrite cached_unfold in Hrun. unfold memoised in Hrun.
  set (s0 := snd (emit (EvCall called) s)) in *.
  assert (Hget0 : get s0 = get s) by apply Hget.
  assert (again :
            forall v s', memo_get k (get s') = Some v ->
              forall s2, extends s' s2 ->
                exists s2' new2,
                  cached called ret_mark get put k
                    (bind (responses_create rt req) reading) s2 = (Ok v, s2')
                  /\ trace s2' = (trace s2 ++ new2)%list
                  /\ tables s2' = tables s2
                  /\ marks_of new2 = [Called called; Returned (ret_mark v)]
                  /\ shown_of new2 = []
                  /\ requests_of new2 = []).
  { intros v s' Hhit s2 Hext.
    pose proof (Hlook s' s2 Hext k v Hhit) as Hhit2.
    rewrite (cached_hit called ret_mark get put k _ s2 v Hget Hhit2).
    eexists. exists [EvCall called; EvReturn (ret_mark v)].
    split; [reflexivity|].
    split; [cbn [emit snd trace]; rewrite <- app_assoc; reflexivity|].
    repeat split. }
  rewrite Hget0 in Hrun.
  destruct (memo_get k (get s)) as [v|] eqn:Hlookup.
  - (* the table answers *)
    injection Hrun as <- <-.
    split; [apply extends_same_tables; reflexivity|].
    exists [EvCall called; EvReturn (ret_mark v)].
    split; [unfold s0; cbn [emit snd trace]; rewrite <- ?app_assoc;
            reflexivity|].
    intros a Ha s2 Hext. injection Ha as <-.
    destruct (again v (snd (emit (EvReturn (ret_mark v)) s0))) with (s2 := s2)
      as (s2' & new2 & Hrun2 & Htrace2 & Htables2 & Hm & Hs & Hr);
      [rewrite Hget, Hget0; exact Hlookup | exact Hext |].
    exists s2', new2. repeat split; assumption.
  - (* the body runs *)
    unfold bind in Hrun. rewrite responses_create_run in Hrun.
    set (s0' := snd (emit (EvGateway req) s0)) in *.
    destruct (provider rt (requests_of (trace s0)) req) as [resp|e].
    + pose proof (Hsilent resp s0') as Hsame.
      destruct (reading resp s0') as [[v|e] s'] eqn:Hread; cbn in Hsame; subst s'.
      * injection Hrun as <- <-.
        split.
        { apply (extends_trans _ (put ((k, v) :: get s0') s0')).
          - apply Hstore; [reflexivity|].
            exact Hlookup.
          - apply extends_same_tables. reflexivity. }
        exists [EvCall called; EvGateway req; EvReturn (ret_mark v)].
        split; [unfold s0', s0; cbn [emit snd trace]; rewrite Hput;
                cbn [emit snd trace]; rewrite <- ?app_assoc; reflexivity|].
        intros a Ha s2 Hext. injection Ha as <-.
        destruct (again v (snd (emit (EvReturn (ret_mark v))
                                  (put ((k, v) :: get s0') s0'))))
          with (s2 := s2)
          as (s2' & new2 & Hrun2 & Htrace2 & Htables2 & Hm & Hs & Hr);
          [rewrite Hget, Hgetput; apply memo_get_cons_same | exact Hext |].
        exists s2', new2. repeat split; assumption.
      * injection Hrun as <- <-.
        split; [apply extends_same_tables; reflexivity|].
        exists [EvCall called; EvGateway req].
        split; [unfold s0', s0; cbn [emit snd trace]; rewrite <- ?app_assoc;
                reflexivity|].
        discriminate.
    + injection Hrun as <- <-.
      split; [apply extends_same_tables; reflexivity|].
      exists [EvCall called; EvGateway req].
      split; [unfold s0', s0; cbn [emit snd trace]; rewrite <- ?app_assoc;
              reflexivity|].
      discriminate.
Qed.

End Replays.

Ltac table_laws :=
  match goal with
  | |- forall e s, _ = _ => reflexivity
  | |- forall t s, trace _ = trace _ => reflexivity
  | |- forall t s, _ = t => reflexivity
  | |- forall s s2, extends s s2 -> _ =>
      let H := fresh in
      intros ? ? H; unfold extends in H; tauto
  | |- forall s s' v, tables s' = tables s -> _ =>
      let Hsame := fresh in
      let Hmiss := fresh in
      let H1 := fresh in let H2 := fresh in let H3 := fresh in
      let H4 := fresh in let H5 := fresh in let H6 := fresh in
      intros ? ? ? Hsame Hmiss; unfold tables in Hsame;
      injection Hsame as H1 H2 H3 H4 H5 H6;
      unfold extends; cbn;
      rewrite ?H1, ?H2, ?H3, ?H4, ?H5, ?H6;
      repeat split; auto;
      intros ? ? ?; apply memo_get_cons_miss; assumption
  end.

Section ReplayingTheScript.

Context (rt : runtime).

Lemma replays_get_clarifying_questions topic dm model :
  replays (get_clarifying_questions rt topic dm model).
Proof.
  unfold get_clarifying_questions, get_clarifying_questions_body.
  apply replays_cached; try table_laws.
  intros resp. apply silent_reading_clarify.
Qed.

Lemma replays_get_goal_and_queries answers questions topic dm model cid :
  replays (get_goal_and_queries rt answers questions topic dm model cid).
Proof.
  unfold get_goal_and_queries, get_goal_and_queries_body.
  apply replays_cached; try table_laws.
  intros resp. apply (silent_reading_json rt resp (fun plan => (plan, resp_id resp))).
Qed.

Lemma replays_run_search q dm model tools :
  replays (run_search rt q dm model tools).
Proof.
  unfold run_search, run_search_body.
  apply replays_cached; try table_laws.
  intros resp. apply silent_reading_search.
Qed.

Lemma replays_evaluate collected goal dm model :
  replays (evaluate rt collected goal dm model).
Proof.
  unfold evaluate, evaluate_body.
  apply replays_cached; try table_laws.
  intros resp. apply silent_bind; [apply silent_lift | intros text; apply silent_ret].
Qed.

Lemma replays_get_more_queries collected goal dm model pid :
  replays (get_more_queries rt collected goal dm model pid).
Proof.
  unfold get_more_queries, get_more_queries_body.
  apply replays_cached; try table_laws.
  intros resp. apply (silent_reading_value rt resp).
Qed.

Lemma replays_write_report collected goal dm model :
  replays (write_report rt collected goal dm model).
Proof.
  unfold write_report, write_report_body.
  apply replays_cached; try table_laws.
  intros resp. apply silent_lift.
Qed.

End ReplayingTheScript.

Section ReplayingTheBlock.

Context (rt : runtime).

Lemma replays_run_research questions answers queries goal pid :
  replays (run_research rt questions answers queries goal pid).
Proof.
  unfold run_research, initial_round, expansion_round, show_answers.
  apply replays_bind; [apply replays_show | intros _].
  apply replays_bind; [apply replays_lift | intros qs].
  apply replays_bind.
  { apply replays_for_enumerate. intros i q acc.
    apply replays_bind; [apply replays_show | intros _].
    apply replays_bind; [apply replays_run_search | intros r].
    apply replays_bind; [apply replays_show | intros _].
    apply replays_ret. }
  intros c1.
  apply replays_bind; [apply replays_show | intros _].
  apply replays_bind; [apply replays_evaluate | intros enough].
  apply replays_bind.
  { destruct enough; cbn [negb]; [apply replays_ret|].
    apply replays_bind; [apply replays_show | intros _].
    apply replays_bind; [apply replays_get_more_queries | intros more].
    apply replays_bind; [apply replays_lift | intros mq].
    apply replays_for_enumerate. intros i q acc.
    apply replays_bind; [apply replays_show | intros _].
    apply replays_bind; [apply replays_run_search | intros r].
    apply replays_ret. }
  intros c.
  apply replays_bind; [apply replays_write_report | intros report].
  apply replays_bind; [apply replays_show | intros _].
  apply replays_bind.
  { apply replays_for_enumerate. intros i qa acc. apply replays_show. }
  intros _.
  repeat (apply replays_bind; [apply replays_show | intros _]).
  apply replays_show.
Qed.

Lemma replays_plan_and_research u questions answers topic cid :
  replays (plan_and_research rt u questions answers topic cid).
Proof.
  unfold plan_and_research.
  apply replays_bind; [apply replays_get_goal_and_queries | intros [plan pid]].
  apply replays_bind; [apply replays_lift | intros goal].
  apply replays_bind; [apply replays_lift | intros queries].
  apply replays_bind; [apply replays_show | intros _].
  apply replays_bind; [apply replays_show | intros _].
  apply replays_bind; [apply replays_lift | intros qs].
  apply replays_bind.
  { apply replays_for_enumerate. intros i q acc. apply replays_show. }
  intros _.
  apply replays_bind; [apply replays_show | intros _].
  destruct (ui_run_research u); [apply replays_run_research | apply replays_ret].
Qed.

Lemma replays_clarify_and_on u topic : replays (clarify_and_on rt u topic).
Proof.
  unfold clarify_and_on, answer_fields.
  apply replays_bind; [apply replays_show | intros _].
  apply replays_bind;
    [apply replays_get_clarifying_questions | intros [questions cid]].
  apply replays_bind; [apply replays_show | intros _].
  apply replays_bind.
  { apply replays_for_enumerate. intros i q acc.
    apply replays_bind; [apply replays_show | intros _]. apply replays_ret. }
  intros answers.
  destruct (forallb PyStr.truthy answers);
    [apply replays_plan_and_research | apply replays_ret].
Qed.

Lemma replays_app h u : replays (app rt h u).
Proof.
  unfold app.
  apply replays_bind; [apply replays_show | intros _].
  apply replays_bind; [apply replays_show | intros _].
  apply replays_bind; [apply replays_lift | intros [api_key env]].
  apply replays_bind.
  { destruct (negb (truthy_opt api_key)); [|apply replays_ret].
    apply replays_bind; [apply replays_show | intros _]. apply replays_raise. }
  intros _.
  apply replays_bind; [apply replays_show | intros _].
  destruct (PyStr.truthy _); [apply replays_clarify_and_on | apply replays_ret].
Qed.

End ReplayingTheBlock.

(** X3. A run of the script that ended without an exception can be run
    again from the state it left, with the same host and the same input of
    the user: it ends the same way, draws the same widgets and makes the
    same calls, all answered by the memo tables, which stay as they were; the
    provider is asked nothing. *)
Theorem rerun_asks_the_provider_nothing :
  forall rt h u s s1,
    app rt h u s = (Ok tt, s1) ->
    exists s2 new1 new2,
      app rt h u s1 = (Ok tt, s2)
      /\ trace s1 = (trace s ++ new1)%list
      /\ trace s2 = (trace s1 ++ new2)%list
      /\ tables s2 = tables s1
      /\ marks_of new2 = marks_of new1
      /\ shown_of new2 = shown_of new1
      /\ requests_of new2 = [].
Proof.
  intros rt h u s s1 Hrun.
  destruct (replays_app rt h u s (Ok tt) s1 Hrun) as (_ & new1 & Htrace1 & Hagain).
  destruct (Hagain tt eq_refl s1 (extends_refl s1))
    as (s2 & new2 & Hrun2 & Htrace2 & Htables & Hmarks & Hshown & Hrequests).
  exists s2, new1, new2. repeat split; assumption.
Qed.

(** X4. Once [run_search] has returned a result for a query, a later call
    for the same query returns the same result without a request and
    without a change to the memo tables, whatever else has been memoised in
    between. *)
Theorem repeated_search_is_answered_from_memory :
  forall rt q dm model tools s v s1,
    run_search rt q dm model tools s = (Ok v, s1) ->
    forall s2,
      extends s1 s2 ->
      exists s2',
        run_search rt q dm model tools s2 = (Ok v, s2')
        /\ requests_of (trace s2') = requests_of (trace s2)
        /\ tables s2' = tables s2.
Proof.
  intros rt q dm model tools s v s1 Hrun s2 Hext.
  destruct (replays_run_search rt q dm model tools s (Ok v) s1 Hrun)
    as (_ & new1 & _ & Hagain).
  destruct (Hagain v eq_refl s2 Hext)
    as (s2' & new2 & Hrun2 & Htrace2 & Htables & _ & _ & Hrequests).
  exists s2'. split; [exact Hrun2|]. split; [|exact Htables].
  rewrite Htrace2, requests_of_app, Hrequests, app_nil_r. reflexivity.
Qed.

Lemma rerun_asks_the_provider_nothing_witness :
  exists s2 new1 new2,
    app Sample.session_runtime Sample.keyed_host Sample.eager_user
      (snd (app Sample.session_runtime Sample.keyed_host Sample.eager_user fresh))
    = (Ok tt, s2)
    /\ trace (snd (app Sample.session_runtime Sample.keyed_host
                     Sample.eager_user fresh))
       = (trace fresh ++ new1)%list
    /\ trace s2
       = (trace (snd (app Sample.session_runtime Sample.keyed_host
                        Sample.eager_user fresh)) ++ new2)%list
    /\ tables s2
       = tables (snd (app Sample.session_runtime Sample.keyed_host
                        Sample.eager_user fresh))
    /\ marks_of new2 = marks_of new1
    /\ shown_of new2 = shown_of new1
    /\ requests_of new2 = [].
Proof.
  apply (rerun_asks_the_provider_nothing
           Sample.session_runtime Sample.keyed_host Sample.eager_user fresh
           (snd (app Sample.session_runtime Sample.keyed_host
                   Sample.eager_user fresh))).
  vm_compute. reflexivity.
Defined.

Lemma repeated_search_is_answered_from_memory_witness :
  exists s2',
    run_search (Sample.runtime_of [Sample.found "s1" "sales up"])
      (JStr "EV sales statistics 2024") developer_message MODEL TOOLS
      (snd (run_search (Sample.runtime_of [Sample.found "s1" "sales up"])
              (JStr "EV sales statistics 2024") developer_message MODEL TOOLS
              fresh))
    = (Ok (mkSearchResult (JStr "EV sales statistics 2024") (Some "msg_s1")
             "sales up"), s2')
    /\ requests_of (trace s2')
       = requests_of
           (trace
              (snd (run_search (Sample.runtime_of [Sample.found "s1" "sales up"])
                      (JStr "EV sales statistics 2024") developer_message MODEL
                      TOOLS fresh)))
    /\ tables s2'
       = tables
           (snd (run_search (Sample.runtime_of [Sample.found "s1" "sales up"])
                   (JStr "EV sales statistics 2024") developer_message MODEL
                   TOOLS fresh)).
Proof.
  apply (repeated_search_is_answered_from_memory
           (Sample.runtime_of [Sample.found "s1" "sales up"])
           (JStr "EV sales statistics 2024") developer_message MODEL TOOLS fresh
           (mkSearchResult (JStr "EV sales statistics 2024") (Some "msg_s1")
              "sales up")
           (snd (run_search (Sample.runtime_of [Sample.found "s1" "sales up"])
                   (JStr "EV sales statistics 2024") developer_message MODEL
                   TOOLS fresh))).
  - vm_compute. reflexivity.
  - apply extends_refl.
Defined.

(** A decorated function that raises has asked the provider once and has
    stored nothing. *)
Lemma cached_raise {K V} `{EqDecision K} called ret_mark
    (get : state -> list (K * V)) put k rt req (reading : response -> M V) s e s' :
  (forall e0 s0, get (snd (emit e0 s0)) = get s0) ->
  (forall resp, silent (reading resp)) ->
  cached called ret_mark get put k (bind (responses_create rt req) reading) s
  = (Raise e, s') ->
  tables s' = tables s
  /\ requests_of (trace s') = (requests_of (trace s) ++ [req])%list
  /\ memo_get k (get s) = None.
Proof.
  intros Hget Hsilent Hrun.
  rewrite cached_unfold in Hrun. unfold memoised in Hrun.
  rewrite Hget in Hrun.
  destruct (memo_get k (get s)) as [v|] eqn:Hlookup; [discriminate Hrun|].
  unfold bind in Hrun. rewrite responses_create_run in Hrun.
  set (s0 := snd (emit (EvGateway req) (snd (emit (EvCall called) s)))) in *.
  assert (Hs0 : tables s0 = tables s
                /\ requests_of (trace s0) = (requests_of (trace s) ++ [req])%list).
  { split; [reflexivity|]. unfold s0. cbn [emit snd trace].
    rewrite !requests_of_app. cbn. rewrite app_nil_r. reflexivity. }
  destruct (provider rt _ req) as [resp|e0].
  - pose proof (Hsilent resp s0) as Hsame.
    destruct (reading resp s0) as [[v|e0] s1]; cbn in Hsame; subst s1;
      [discriminate Hrun|].
    injection Hrun as _ <-. split; [apply Hs0|]. split; [apply Hs0 | reflexivity].
  - injection Hrun as _ <-. split; [apply Hs0|]. split; [apply Hs0 | reflexivity].
Qed.

(** X5. A planning call that raises (the provider failed, the response had
    no text, or [json.loads] raised on the text) has asked the provider
    exactly once and has memoised nothing: all six tables are as before, so
    the next run asks again.  The same holds for the request for more
    queries and for a search. *)
Theorem failed_calls_are_not_memoised :
  forall rt s e s',
    (forall answers questions topic dm model cid,
        get_goal_and_queries rt answers questions topic dm model cid s
        = (Raise e, s') ->
        tables s' = tables s
        /\ requests_of (trace s')
           = (requests_of (trace s)
                ++ [plan_request rt answers questions topic dm model cid])%list
        /\ memo_get (answers, questions, topic, dm, model, cid) (memo_plan s')
           = None)
    /\ (forall collected goal dm model pid,
          get_more_queries rt collected goal dm model pid s = (Raise e, s') ->
          tables s' = tables s
          /\ requests_of (trace s')
             = (requests_of (trace s)
                  ++ [more_request rt collected goal dm model pid])%list
          /\ memo_get (collected, goal, dm, model, pid) (memo_more s') = None)
    /\ (forall q dm model tools,
          run_search rt q dm model tools s = (Raise e, s') ->
          tables s' = tables s
          /\ requests_of (trace s')
             = (requests_of (trace s) ++ [search_request rt q dm model tools])%list
          /\ memo_get (q, dm, model, tools) (memo_search s') = None).
Proof.
  intros rt s e s'. split; [|split].
  - intros answers questions topic dm model cid Hrun.
    unfold get_goal_and_queries, get_goal_and_queries_body in Hrun.
    apply cached_raise in Hrun as (Htables & Hrequests & Hmiss);
      [|reflexivity
       |intros resp;
        apply (silent_reading_json rt resp (fun plan => (plan, resp_id resp)))].
    split; [exact Htables|]. split; [exact Hrequests|].
    unfold tables in Htables. injection Htables as _ -> _ _ _ _. exact Hmiss.
  - intros collected goal dm model pid Hrun.
    unfold get_more_queries, get_more_queries_body in Hrun.
    apply cached_raise in Hrun as (Htables & Hrequests & Hmiss);
      [|reflexivity | intros resp; apply (silent_reading_value rt resp)].
    split; [exact Htables|]. split; [exact Hrequests|].
    unfold tables in Htables. injection Htables as _ _ _ _ -> _. exact Hmiss.
  - intros q dm model tools Hrun.
    unfold run_search, run_search_body in Hrun.
    apply cached_raise in Hrun as (Htables & Hrequests & Hmiss);
      [|reflexivity | intros resp; apply silent_reading_search].
    split; [exact Htables|]. split; [exact Hrequests|].
    unfold tables in Htables. injection Htables as _ _ -> _ _ _. exact Hmiss.
Qed.

Lemma failed_calls_are_not_memoised_witness :
  tables
    (snd (get_goal_and_queries
            (Sample.runtime_of [Sample.says "r2" "Sorry, I cannot help."])
            ["Europe"] ["1. Which region?"] "electric vehicles"
            developer_message MODEL "r1" fresh))
  = tables fresh
  /\ requests_of
       (trace
          (snd (get_goal_and_queries
                  (Sample.runtime_of [Sample.says "r2" "Sorry, I cannot help."])
                  ["Europe"] ["1. Which region?"] "electric vehicles"
                  developer_message MODEL "r1" fresh)))
     = (requests_of (trace fresh)
          ++ [plan_request
                (Sample.runtime_of [Sample.says "r2" "Sorry, I cannot help."])
                ["Europe"] ["1. Which region?"] "electric vehicles"
                developer_message MODEL "r1"])%list
  /\ memo_get (["Europe"], ["1. Which region?"], "electric vehicles",
               developer_message, MODEL, "r1")
       (memo_plan
          (snd (get_goal_and_queries
                  (Sample.runtime_of [Sample.says "r2" "Sorry, I cannot help."])
                  ["Europe"] ["1. Which region?"] "electric vehicles"
                  developer_message MODEL "r1" fresh)))
     = None.
Proof.
  destruct (failed_calls_are_not_memoised
              (Sample.runtime_of [Sample.says "r2" "Sorry, I cannot help."])
              fresh JSONDecodeError
              (snd (get_goal_and_queries
                      (Sample.runtime_of [Sample.says "r2" "Sorry, I cannot help."])
                      ["Europe"] ["1. Which region?"] "electric vehicles"
                      developer_message MODEL "r1" fresh)))
    as [Hplan _].
  apply Hplan. vm_compute. reflexivity.
Defined.

(** ** A query searched twice *)

Lemma steady_ret {A} (a : A) : steady (ret a).
Proof.
  intros s r s' Hs H. injection H as <- <-.
  split; [exact Hs|]. split; [apply extends_refl|].
  exists []. rewrite app_nil_r. split; [reflexivity | intros v []].
Qed.

Lemma steady_lift {A} (x : result A) : steady (lift x).
Proof.
  intros s r s' Hs H. injection H as <- <-.
  split; [exact Hs|]. split; [apply extends_refl|].
  exists []. rewrite app_nil_r. split; [reflexivity | intros v []].
Qed.

Lemma steady_show u : steady (show u).
Proof.
  intros s r s' Hs H. injection H as <- <-.
  split; [exact Hs|]. split; [apply extends_same_tables; reflexivity|].
  exists [EvUi u]. split; [reflexivity | intros v []].
Qed.

Lemma steady_bind {A B} (m : M A) (k : A -> M B) :
  steady m -> (forall a, steady (k a)) -> steady (bind m k).
Proof.
  intros Hm Hk s r s3 Hs Hrun. unfold bind in Hrun.
  destruct (m s) as [[a|e] s1] eqn:Hms.
  - destruct (Hm s (Ok a) s1 Hs Hms) as (Hs1 & Hext1 & new1 & Htrace1 & Hfound1).
    destruct (Hk a s1 r s3 Hs1 Hrun) as (Hs3 & Hext3 & new3 & Htrace3 & Hfound3).
    split; [exact Hs3|]. split; [exact (extends_trans _ _ _ Hext1 Hext3)|].
    exists (new1 ++ new3)%list.
    split; [rewrite Htrace3, Htrace1, app_assoc; reflexivity|].
    intros v Hin. rewrite marks_of_app, found_of_app in Hin.
    apply in_app_or in Hin as [Hin|Hin]; [|exact (Hfound3 v Hin)].
    destruct Hext3 as (_ & _ & Hsearch & _). apply Hsearch, Hfound1, Hin.
  - injection Hrun as <- <-. exact (Hm s (Raise e) s1 Hs Hms).
Qed.

Lemma steady_for_enumerate {A St} (body : nat -> A -> St -> M St) l :
  (forall i x acc, steady (body i x acc)) ->
  forall idx acc, steady (for_enumerate idx l body acc).
Proof.
  intros Hbody. induction l as [|x l IH]; intros idx acc.
  - apply steady_ret.
  - cbn [for_enumerate]. apply steady_bind; [apply Hbody | intros acc'; apply IH].
Qed.

(** A decorated function that returned has its value in its table. *)
Lemma cached_stores {K V} `{EqDecision K} called ret_mark
    (get : state -> list (K * V)) put k (body : M V) s v s' :
  (forall e0 s0, get (snd (emit e0 s0)) = get s0) ->
  (forall t s0, get (put t s0) = t) ->
  cached called ret_mark get put k body s = (Ok v, s') ->
  memo_get k (get s') = Some v.
Proof.
  intros Hget Hgetput Hrun.
  rewrite cached_unfold in Hrun. unfold memoised in Hrun.
  rewrite Hget in Hrun.
  destruct (memo_get k (get s)) as [w|] eqn:Hlookup.
  - pose proof (f_equal fst Hrun) as Hv. pose proof (f_equal snd Hrun) as Hs'.
    cbn [fst snd] in Hv, Hs'. injection Hv as ->. subst s'.
    rewrite !Hget. exact Hlookup.
  - destruct (body _) as [[w|e] s1]; [|discriminate Hrun].
    pose proof (f_equal fst Hrun) as Hv. pose proof (f_equal snd Hrun) as Hs'.
    cbn [fst snd] in Hv, Hs'. injection Hv as ->. subst s'.
    rewrite Hget, Hgetput. apply memo_get_cons_same.
Qed.

(** From what is known of a decorated function, run by run. *)
Lemma steady_of_call {V} (m : M V) called (ret_mark : V -> returned) G :
  spec search_memo_ok m (call_post called ret_mark G) ->
  replays m ->
  (forall s v s', search_memo_ok s -> m s = (Ok v, s') ->
     forall w, ret_mark v = RetSearch w ->
               memo_get (key_of w) (memo_search s') = Some w) ->
  steady m.
Proof.
  intros Hspec Hreplays Hstored s r s' Hs Hrun.
  destruct (Hspec s r s' Hs Hrun) as (Hs' & new & Htrace & Hmarks & _).
  destruct (Hreplays s r s' Hrun) as (Hext & _).
  split; [exact Hs'|]. split; [exact Hext|].
  exists new. split; [exact Htrace|].
  rewrite Hmarks. destruct r as [v|e]; cbn [found_of]; [|intros x []].
  destruct (ret_mark v) as [| |found| | |] eqn:Hret; cbn [found_of In];
    intros x Hx; first [destruct Hx as [<- | []] | destruct Hx].
  exact (Hstored s v s' Hs Hrun _ Hret).
Qed.

Section SteadyBlock.

Context (rt : runtime).

Lemma steady_run_search q : steady (run_search rt q developer_message MODEL TOOLS).
Proof.
  apply (steady_of_call _ _ _ _ (spec_run_search rt q _ _ _)
           (replays_run_search rt q _ _ _)).
  intros s v s' Hs Hrun w Hw. injection Hw as <-.
  destruct (spec_run_search rt q _ _ _ s (Ok v) s' Hs Hrun)
    as (_ & new & _ & _ & _ & Hq).
  unfold key_of. rewrite (Hq v eq_refl).
  apply (cached_stores _ _ memo_search put_search _ _ _ _ _
           ltac:(reflexivity) ltac:(reflexivity) Hrun).
Qed.

Lemma steady_evaluate collected goal dm model :
  steady (evaluate rt collected goal dm model).
Proof.
  apply (steady_of_call _ _ _ _ (spec_evaluate rt _ _ _ _)
           (replays_evaluate rt _ _ _ _)).
  intros s v s' _ _ w Hw. discriminate Hw.
Qed.

Lemma steady_get_more_queries collected goal dm model pid :
  steady (get_more_queries rt collected goal dm model pid).
Proof.
  apply (steady_of_call _ _ _ _ (spec_get_more_queries rt _ _ _ _ _)
           (replays_get_more_queries rt _ _ _ _ _)).
  intros s v s' _ _ w Hw. discriminate Hw.
Qed.

Lemma steady_write_report collected goal dm model :
  steady (write_report rt collected goal dm model).
Proof.
  apply (steady_of_call _ _ _ _ (spec_write_report rt _ _ _ _)
           (replays_write_report rt _ _ _ _)).
  intros s v s' _ _ w Hw. discriminate Hw.
Qed.

Lemma steady_run_research questions answers queries goal pid :
  steady (run_research rt questions answers queries goal pid).
Proof.
  unfold run_research, initial_round, expansion_round, show_answers.
  apply steady_bind; [apply steady_show | intros _].
  apply steady_bind; [apply steady_lift | intros qs].
  apply steady_bind.
  { apply steady_for_enumerate. intros i q acc.
    apply steady_bind; [apply steady_show | intros _].
    apply steady_bind; [apply steady_run_search | intros r].
    apply steady_bind; [apply steady_show | intros _].
    apply steady_ret. }
  intros c1.
  apply steady_bind; [apply steady_show | intros _].
  apply steady_bind; [apply steady_evaluate | intros enough].
  apply steady_bind.
  { destruct enough; cbn [negb]; [apply steady_ret|].
    apply steady_bind; [apply steady_show | intros _].
    apply steady_bind; [apply steady_get_more_queries | intros more].
    apply steady_bind; [apply steady_lift | intros mq].
    apply steady_for_enumerate. intros i q acc.
    apply steady_bind; [apply steady_show | intros _].
    apply steady_bind; [apply steady_run_search | intros r].
    apply steady_ret. }
  intros c.
  apply steady_bind; [apply steady_write_report | intros report].
  apply steady_bind; [apply steady_show | intros _].
  apply steady_bind.
  { apply steady_for_enumerate. intros i qa acc. apply steady_show. }
  intros _.
  repeat (apply steady_bind; [apply steady_show | intros _]).
  apply steady_show.
Qed.

End SteadyBlock.

(** X15. In a run of the [Run Research] block nothing removes a query that
    was searched before, but a query searched again is answered by the memo
    table: any two results the searches of a run returned for the same query
    are the same result.  An expansion query that repeats an earlier one
    adds a copy to the collected results, not a second opinion. *)
Theorem repeated_query_gets_the_same_result :
  forall rt questions answers queries goal plan_id s r s',
    search_memo_ok s ->
    run_research rt questions answers queries goal plan_id s = (r, s') ->
    exists ms,
      marks_of (trace s') = (marks_of (trace s) ++ ms)%list
      /\ forall v1 v2,
           In v1 (found_of ms) -> In v2 (found_of ms) ->
           sr_query v1 = sr_query v2 -> v1 = v2.
Proof.
  intros rt questions answers queries goal plan_id s r s' Hs Hrun.
  destruct (steady_run_research rt questions answers queries goal plan_id
              s r s' Hs Hrun) as (_ & _ & new & Htrace & Hstored).
  exists (marks_of new). split; [rewrite Htrace; apply marks_of_app|].
  intros v1 v2 H1 H2 Hq.
  pose proof (Hstored v1 H1) as L1. pose proof (Hstored v2 H2) as L2.
  unfold key_of in L1, L2. rewrite Hq in L1. congruence.
Qed.

Lemma repeated_query_gets_the_same_result_witness :
  exists ms,
    marks_of
      (trace
         (snd (run_research
                 (Sample.runtime_of
                    [Sample.found "s1" "costs down"; Sample.says "e" "No";
                     Sample.says "m" Sample.more_text;
                     Sample.says "rep" "Report [1]"])
                 ["1. Which region?"] ["Europe"] Sample.more_value
                 (JStr "Assess EV adoption") "r2" fresh)))
    = (marks_of (trace fresh) ++ ms)%list
    /\ forall v1 v2,
         In v1 (found_of ms) -> In v2 (found_of ms) ->
         sr_query v1 = sr_query v2 -> v1 = v2.
Proof.
  apply (repeated_query_gets_the_same_result
           (Sample.runtime_of
              [Sample.found "s1" "costs down"; Sample.says "e" "No";
               Sample.says "m" Sample.more_text;
               Sample.says "rep" "Report [1]"])
           ["1. Which region?"] ["Europe"] Sample.more_value
           (JStr "Assess EV adoption") "r2" fresh
           (fst (run_research
                   (Sample.runtime_of
                      [Sample.found "s1" "costs down"; Sample.says "e" "No";
                       Sample.says "m" Sample.more_text;
                       Sample.says "rep" "Report [1]"])
                   ["1. Which region?"] ["Europe"] Sample.more_value
                   (JStr "Assess EV adoption") "r2" fresh))).
  - constructor.
  - apply surjective_pairing.
Defined.

(** ** More on the Credential Resolver *)

(** X6. When the resolver returns a key that has truth, the key holds no
    NUL and the environment is left with [OPENAI_API_KEY] set to that key
    and every other variable as it was; when it returns a value without
    truth, it leaves the environment untouched. *)
Theorem resolver_mirrors_key_into_environment :
  forall h key env,
    set_api_key_env h = Ok (key, env) ->
    if truthy_opt key
    then (exists k, key = Some k /\ has_nul k = false)
         /\ env !! "OPENAI_API_KEY" = key
         /\ forall name, name <> "OPENAI_API_KEY" ->
                         env !! name = host_environ h !! name
    else env = host_environ h.
Proof.
  intros h key env Hrun. rewrite set_api_key_env_run in Hrun.
  destruct (secret_not_text h); [discriminate Hrun|].
  destruct (resolved h) as [k|]; [destruct (PyStr.truthy k) eqn:Hk|].
  - destruct (has_nul k) eqn:Hnul; [discriminate Hrun|].
    injection Hrun as <- <-. cbn [truthy_opt]. rewrite Hk.
    split; [exists k; split; [reflexivity | exact Hnul]|].
    split; [apply lookup_insert_eq|].
    intros name Hname. apply lookup_insert_ne. congruence.
  - injection Hrun as <- <-. cbn [truthy_opt]. rewrite Hk. reflexivity.
  - injection Hrun as <- <-. reflexivity.
Qed.

Lemma resolver_mirrors_key_into_environment_witness :
  if truthy_opt (Some "sk-file")
  then (exists k, Some "sk-file" = Some k /\ has_nul k = false)
       /\ (<["OPENAI_API_KEY" := "sk-file"]> ({["HOME" := "/root"]} : gmap string string))
            !! "OPENAI_API_KEY" = Some "sk-file"
       /\ forall name, name <> "OPENAI_API_KEY" ->
            (<["OPENAI_API_KEY" := "sk-file"]> ({["HOME" := "/root"]} : gmap string string))
              !! name
            = host_environ
                (mkHost SecretsWithout {["HOME" := "/root"]}
                   (Some ["OPENAI_API_KEY=sk-file" ++ nl])) !! name
  else <["OPENAI_API_KEY" := "sk-file"]> ({["HOME" := "/root"]} : gmap string string)
       = host_environ
           (mkHost SecretsWithout {["HOME" := "/root"]}
              (Some ["OPENAI_API_KEY=sk-file" ++ nl])).
Proof.
  apply (resolver_mirrors_key_into_environment
           (mkHost SecretsWithout {["HOME" := "/root"]}
              (Some ["OPENAI_API_KEY=sk-file" ++ nl]))
           (Some "sk-file")
           (<["OPENAI_API_KEY" := "sk-file"]> {["HOME" := "/root"]})).
  vm_compute. reflexivity.
Defined.

(** X7. Resolving again, with the environment the resolver left, gives the
    same key and the same environment. *)
Theorem resolver_is_idempotent :
  forall h key env,
    set_api_key_env h = Ok (key, env) ->
    set_api_key_env (with_environ h env) = Ok (key, env).
Proof.
  intros h key env Hrun. rewrite set_api_key_env_run in Hrun.
  rewrite set_api_key_env_run.
  change (secret_not_text (with_environ h env)) with (secret_not_text h).
  destruct (secret_not_text h); [discriminate Hrun|].
  assert (Hsame : with_environ h (host_environ h) = h) by (destruct h; reflexivity).
  destruct (resolved h) as [k|] eqn:Hres; [destruct (PyStr.truthy k) eqn:Hk|].
  - (* a key was found and mirrored *)
    destruct (has_nul k) eqn:Hnul; [discriminate Hrun|].
    injection Hrun as <- <-.
    assert (Hres' : resolved (with_environ h (<["OPENAI_API_KEY" := k]> (host_environ h)))
                    = Some k).
    { unfold resolved in *. cbv zeta in *.
      change (secrets_value (with_environ h (<["OPENAI_API_KEY" := k]> (host_environ h))))
        with (secrets_value h).
      change (dotenv_value (with_environ h (<["OPENAI_API_KEY" := k]> (host_environ h))))
        with (dotenv_value h).
      assert (Henv : environ_value
                       (with_environ h (<["OPENAI_API_KEY" := k]> (host_environ h)))
                     = Some k).
      { unfold environ_value. cbn [with_environ host_environ].
        apply lookup_insert_eq. }
      rewrite Henv.
      destruct (truthy_opt (secrets_value h)) eqn:Hs.
      - rewrite Hs in *. exact Hres.
      - cbn [truthy_opt]. rewrite Hk. reflexivity. }
    rewrite Hres', Hk, Hnul. cbn [with_environ host_environ].
    rewrite insert_insert_eq. reflexivity.
  - (* an empty key: the environment was left alone *)
    injection Hrun as <- <-. rewrite Hsame, Hres, Hk. reflexivity.
  - injection Hrun as <- <-. rewrite Hsame, Hres. reflexivity.
Qed.

Lemma resolver_is_idempotent_witness :
  set_api_key_env
    (with_environ
       (mkHost SecretsWithout {["HOME" := "/root"]}
          (Some ["OPENAI_API_KEY=sk-file" ++ nl]))
       (<["OPENAI_API_KEY" := "sk-file"]> {["HOME" := "/root"]}))
  = Ok (Some "sk-file", <["OPENAI_API_KEY" := "sk-file"]> {["HOME" := "/root"]}).
Proof.
  apply (resolver_is_idempotent
           (mkHost SecretsWithout {["HOME" := "/root"]}
              (Some ["OPENAI_API_KEY=sk-file" ++ nl]))).
  vm_compute. reflexivity.
Defined.

(** X8. In [.env], lines that do not start with [OPENAI_API_KEY=] are
    passed over, and the first line that does gives the key: everything
    after the first [=], up to the end of the line, without the white space
    at its end, be it ASCII or not.  Signs [=] and quotes inside the value
    are kept, and so is white space at its start when something else
    follows; nothing below that line is read. *)
Theorem dotenv_key_is_rest_of_first_key_line :
  forall before rest after key,
    Forall (fun l => PyStr.startswith "OPENAI_API_KEY=" l = false) before ->
    scan_dotenv (before ++ ("OPENAI_API_KEY=" ++ rest)%string :: after)%list key
    = Ok (Some (SecretText (PyStr.rstrip rest))).
Proof.
  intros before rest after key Hbefore.
  rewrite scan_dotenv_find.
  assert (Hline : PyStr.startswith "OPENAI_API_KEY=" ("OPENAI_API_KEY=" ++ rest) = true).
  { unfold PyStr.startswith. cbv [String.append]. cbn [String.prefix].
    repeat (destruct (ascii_dec _ _) as [_|Hne]; [|exfalso; apply Hne; reflexivity]).
    destruct rest; reflexivity. }
  rewrite (find_after_misses _ _ _ _ Hbefore Hline).
  rewrite strip_key_line. reflexivity.
Qed.

Lemma dotenv_key_is_rest_of_first_key_line_witness :
  scan_dotenv
    (["# keys" ++ nl; " OPENAI_API_KEY=sk-indented" ++ nl]%string
       ++ ("OPENAI_API_KEY="
             ++ (" sk=1 " ++ String (ascii_of_nat 194)
                               (String (ascii_of_nat 160) nl)))%string
       :: ["OPENAI_API_KEY=sk-2" ++ nl]%string)%list
    None
  = Ok (Some (SecretText " sk=1")).
Proof.
  apply (dotenv_key_is_rest_of_first_key_line
           ["# keys" ++ nl; " OPENAI_API_KEY=sk-indented" ++ nl]
           (" sk=1 " ++ String (ascii_of_nat 194) (String (ascii_of_nat 160) nl))
           ["OPENAI_API_KEY=sk-2" ++ nl] None).
  repeat constructor.
Defined.

(** ** More on the Clarification Step *)

Lemma split_not_nil sep s : PyStr.split sep s <> [].
Proof.
  destruct s as [|c s]; cbn; [discriminate|].
  destruct (Ascii.eqb c sep); [discriminate|].
  destruct (PyStr.split sep s); discriminate.
Qed.

Lemma join_cons_char sep c hd tl :
  join sep (String c hd :: tl) = String c (join sep (hd :: tl)).
Proof. destruct tl; reflexivity. Qed.

Lemma join_split sep s : join sep (PyStr.split sep s) = s.
Proof.
  induction s as [|c s IH]; [reflexivity|].
  cbn [PyStr.split].
  destruct (Ascii.eqb c sep) eqn:Hc.
  - apply Ascii.eqb_eq in Hc as ->.
    pose proof (split_not_nil sep s) as Hne.
    destruct (PyStr.split sep s) as [|p rest]; [contradiction|].
    change (join sep (EmptyString :: p :: rest))
      with (String sep (join sep (p :: rest))).
    rewrite IH. reflexivity.
  - pose proof (split_not_nil sep s) as Hne.
    destruct (PyStr.split sep s) as [|p rest]; [contradiction|].
    rewrite join_cons_char, IH. reflexivity.
Qed.

Lemma length_split sep s :
  length (PyStr.split sep s) = S (occurrences sep s).
Proof.
  induction s as [|c s IH]; [reflexivity|].
  cbn [PyStr.split occurrences].
  destruct (Ascii.eqb c sep).
  - cbn. rewrite IH. reflexivity.
  - pose proof (split_not_nil sep s) as Hne.
    destruct (PyStr.split sep s) as [|p rest]; [contradiction|].
    cbn in *. exact IH.
Qed.

Lemma split_parts_without_sep sep s :
  Forall (fun p => occurrences sep p = 0%nat) (PyStr.split sep s).
Proof.
  induction s as [|c s IH]; [repeat constructor|].
  cbn [PyStr.split].
  destruct (Ascii.eqb c sep) eqn:Hc.
  - constructor; [reflexivity | exact IH].
  - pose proof (split_not_nil sep s) as Hne.
    destruct (PyStr.split sep s) as [|p rest]; [contradiction|].
    inversion IH as [|? ? Hp Hrest]; subst.
    constructor; [|exact Hrest]. cbn. rewrite Hc. exact Hp.
Qed.

(** X9. The questions the Clarification Step returns lose nothing of the
    response text: joined by line feeds they are the text again.  There is
    one question more than the text has line feeds, so an empty line, or a
    line feed at the end, gives an empty question; and no question contains
    a line feed. *)
Theorem questions_are_the_lines_of_the_text :
  forall rt topic dm model s resp text,
    memo_get (topic, dm, model) (memo_clarify s) = None ->
    provider rt (requests_of (trace s)) (clarify_request topic dm model)
    = Ok resp ->
    first_text resp = Ok text ->
    exists questions,
      fst (get_clarifying_questions rt topic dm model s)
      = Ok (questions, resp_id resp)
      /\ join (ascii_of_nat 10) questions = text
      /\ length questions = S (occurrences (ascii_of_nat 10) text)
      /\ Forall (fun q => occurrences (ascii_of_nat 10) q = 0%nat) questions.
Proof.
  intros rt topic dm model s resp text Hmiss Hprov Htext.
  exists (PyStr.split (ascii_of_nat 10) text).
  split.
  - rewrite (get_clarifying_questions_miss _ _ _ _ _ _ Hmiss Hprov), Htext.
    reflexivity.
  - split; [apply join_split|].
    split; [apply length_split | apply split_parts_without_sep].
Qed.

Lemma questions_are_the_lines_of_the_text_witness :
  exists questions,
    fst (get_clarifying_questions
           (Sample.runtime_of [Sample.says "r1" ("1. Which region?" ++ nl)])
           "electric vehicles" developer_message MODEL_MINI fresh)
    = Ok (questions, "r1")
    /\ join (ascii_of_nat 10) questions = "1. Which region?" ++ nl
    /\ length questions = S (occurrences (ascii_of_nat 10) ("1. Which region?" ++ nl))
    /\ Forall (fun q => occurrences (ascii_of_nat 10) q = 0%nat) questions.
Proof.
  apply (questions_are_the_lines_of_the_text
           (Sample.runtime_of [Sample.says "r1" ("1. Which region?" ++ nl)])
           "electric vehicles" developer_message MODEL_MINI fresh
           (mkResponse "r1" [Sample.message "msg_r1" ("1. Which region?" ++ nl)]));
    reflexivity.
Defined.

(** ** More on the [Run Research] block *)

(** X10. In a run of the [Run Research] block the report writer is called
    at most once, and the run ends without an exception exactly when the
    last mark it leaves is the return of the report: nothing after the report
    can fail, and a run that failed has no report. *)
Theorem run_ends_well_exactly_with_a_report :
  forall rt questions answers queries goal plan_id s r s',
    search_memo_ok s ->
    run_research rt questions answers queries goal plan_id s = (r, s') ->
    exists ms,
      marks_of (trace s') = (marks_of (trace s) ++ ms)%list
      /\ (count_marks is_report_call ms <= 1)%nat
      /\ (r = Ok tt <-> exists text, last ms = Some (Returned (RetReport text)))
      /\ (forall text, In (Returned (RetReport text)) ms -> r = Ok tt).
Proof.
  intros rt questions answers queries goal plan_id s r s' Hs Hrun.
  destruct (run_research_marks rt questions answers queries goal plan_id
              s r s' Hs Hrun) as (_ & new & Htrace & Hshape).
  exists (marks_of new). split; [rewrite Htrace; apply marks_of_app|].
  destruct Hshape
    as [e H|e found q rest H|e c1 H|e c1 H|c1 text H|e c1 H|e c1 more H H'
        |e c1 more found q rest H H'|e c1 more c2 H H'|c1 more c2 text H H'].
  all: split;
    [rewrite ?count_marks_app, ?count_marks_search by reflexivity; cbn; lia|].
  all: split;
    [split;
     [try discriminate; intros _; eexists; rewrite ?last_app; reflexivity
     |try (intros _; reflexivity);
      intros [text' Hlast]; rewrite ?last_app in Hlast; cbn in Hlast;
      try discriminate Hlast]
    |].
  all: try (intros text' Hin; reflexivity).
  all: try (intros text' Hin; in_marks Hin).
Qed.

Lemma run_ends_well_exactly_with_a_report_witness :
  exists ms,
    marks_of
      (trace
         (snd (run_research Sample.expanding_runtime ["1. Which region?"]
                 ["Europe"] Sample.one_query (JStr "Assess EV adoption") "r2"
                 fresh)))
    = (marks_of (trace fresh) ++ ms)%list
    /\ (count_marks is_report_call ms <= 1)%nat
    /\ (fst (run_research Sample.expanding_runtime ["1. Which region?"]
               ["Europe"] Sample.one_query (JStr "Assess EV adoption") "r2"
               fresh) = Ok tt
        <-> exists text, last ms = Some (Returned (RetReport text)))
    /\ (forall text,
          In (Returned (RetReport text)) ms ->
          fst (run_research Sample.expanding_runtime ["1. Which region?"]
                 ["Europe"] Sample.one_query (JStr "Assess EV adoption") "r2"
                 fresh) = Ok tt).
Proof.
  apply (run_ends_well_exactly_with_a_report
           Sample.expanding_runtime ["1. Which region?"] ["Europe"]
           Sample.one_query (JStr "Assess EV adoption") "r2" fresh).
  - constructor.
  - apply surjective_pairing.
Defined.

(** ** The provider is asked from inside the decorated functions only *)

Lemma orderly_app a b : orderly a -> orderly b -> orderly (a ++ b)%list.
Proof.
  intros Ha Hb. induction Ha as [|u rest _ IH|unit rest Hunit _ IH].
  - exact Hb.
  - cbn. constructor. exact IH.
  - rewrite <- app_assoc. constructor; assumption.
Qed.

Lemma tidy_ret {A} (a : A) : tidy (ret a).
Proof. apply spec_ret. constructor. Qed.

Lemma tidy_lift {A} (x : result A) : tidy (lift x).
Proof. apply spec_lift. constructor. Qed.

Lemma tidy_raise {A} e : tidy (@raise A e).
Proof. apply spec_raise. constructor. Qed.

Lemma tidy_show u : tidy (show u).
Proof. apply spec_show; [exact trivial_emit|]. repeat constructor. Qed.

Lemma tidy_bind {A B} (m : M A) (k : A -> M B) :
  tidy m -> (forall a, tidy (k a)) -> tidy (bind m k).
Proof.
  intros Hm Hk.
  apply (spec_bind _ _ _ (fun _ new => orderly new)); [exact Hm | auto |].
  intros a new1 H1. eapply spec_weaken; [apply Hk|].
  intros r new2 H2. apply orderly_app; assumption.
Qed.

Lemma tidy_for_enumerate {A St} (body : nat -> A -> St -> M St) l :
  (forall i x acc, tidy (body i x acc)) ->
  forall idx acc, tidy (for_enumerate idx l body acc).
Proof.
  intros Hbody. induction l as [|x l IH]; intros idx acc.
  - apply tidy_ret.
  - cbn [for_enumerate]. apply tidy_bind; [apply Hbody | intros acc'; apply IH].
Qed.

Lemma tidy_cached {K V} `{EqDecision K} called ret_mark
    (get : state -> list (K * V)) put k rt req (reading : response -> M V) :
  (forall e s, get (snd (emit e s)) = get s) ->
  (forall t s, trace (put t s) = trace s) ->
  (forall resp, silent (reading resp)) ->
  tidy (cached called ret_mark get put k
          (bind (responses_create rt req) reading)).
Proof.
  intros Hget Hput Hsilent.
  eapply spec_weaken.
  - apply (spec_cached _ trivial_emit called ret_mark get put k _
             (fun _ => True) (fun new => new = [EvGateway req]));
      [exact Hget | exact Hput | auto | auto |].
    apply spec_body; [exact trivial_emit | exact Hsilent | auto].
  - intros r new (inner & Hinner & -> & _).
    rewrite <- (app_nil_r (EvCall called :: _)).
    apply OrderlyCall; [|constructor].
    constructor.
    + destruct Hinner as [-> | ->]; eauto.
    + destruct r; eauto.
Qed.

Section TidyFunctions.

Context (rt : runtime).

Lemma tidy_get_clarifying_questions topic dm model :
  tidy (get_clarifying_questions rt topic dm model).
Proof.
  unfold get_clarifying_questions, get_clarifying_questions_body.
  apply tidy_cached; [reflexivity | reflexivity |].
  intros resp. apply silent_reading_clarify.
Qed.

Lemma tidy_get_goal_and_queries answers questions topic dm model cid :
  tidy (get_goal_and_queries rt answers questions topic dm model cid).
Proof.
  unfold get_goal_and_queries, get_goal_and_queries_body.
  apply tidy_cached; [reflexivity | reflexivity |].
  intros resp. apply (silent_reading_json rt resp (fun plan => (plan, resp_id resp))).
Qed.

Lemma tidy_run_search q dm model tools :
  tidy (run_search rt q dm model tools).
Proof.
  unfold run_search, run_search_body.
  apply tidy_cached; [reflexivity | reflexivity |].
  intros resp. apply silent_reading_search.
Qed.

Lemma tidy_evaluate collected goal dm model :
  tidy (evaluate rt collected goal dm model).
Proof.
  unfold evaluate, evaluate_body.
  apply tidy_cached; [reflexivity | reflexivity |].
  intros resp. apply silent_bind; [apply silent_lift | intros text; apply silent_ret].
Qed.

Lemma tidy_get_more_queries collected goal dm model pid :
  tidy (get_more_queries rt collected goal dm model pid).
Proof.
  unfold get_more_queries, get_more_queries_body.
  apply tidy_cached; [reflexivity | reflexivity |].
  intros resp. apply (silent_reading_value rt resp).
Qed.

Lemma tidy_write_report collected goal dm model :
  tidy (write_report rt collected goal dm model).
Proof.
  unfold write_report, write_report_body.
  apply tidy_cached; [reflexivity | reflexivity |].
  intros resp. apply silent_lift.
Qed.

End TidyFunctions.

Section TidyScript.

Context (rt : runtime).

Lemma tidy_run_research questions answers queries goal pid :
  tidy (run_research rt questions answers queries goal pid).
Proof.
  unfold run_research, initial_round, expansion_round, show_answers.
  apply tidy_bind; [apply tidy_show | intros _].
  apply tidy_bind; [apply tidy_lift | intros qs].
  apply tidy_bind.
  { apply tidy_for_enumerate. intros i q acc.
    apply tidy_bind; [apply tidy_show | intros _].
    apply tidy_bind; [apply tidy_run_search | intros r].
    apply tidy_bind; [apply tidy_show | intros _].
    apply tidy_ret. }
  intros c1.
  apply tidy_bind; [apply tidy_show | intros _].
  apply tidy_bind; [apply tidy_evaluate | intros enough].
  apply tidy_bind.
  { destruct enough; cbn [negb]; [apply tidy_ret|].
    apply tidy_bind; [apply tidy_show | intros _].
    apply tidy_bind; [apply tidy_get_more_queries | intros more].
    apply tidy_bind; [apply tidy_lift | intros mq].
    apply tidy_for_enumerate. intros i q acc.
    apply tidy_bind; [apply tidy_show | intros _].
    apply tidy_bind; [apply tidy_run_search | intros r].
    apply tidy_ret. }
  intros c.
  apply tidy_bind; [apply tidy_write_report | intros report].
  apply tidy_bind; [apply tidy_show | intros _].
  apply tidy_bind.
  { apply tidy_for_enumerate. intros i qa acc. apply tidy_show. }
  intros _.
  repeat (apply tidy_bind; [apply tidy_show | intros _]).
  apply tidy_show.
Qed.

Lemma tidy_plan_and_research u questions answers topic cid :
  tidy (plan_and_research rt u questions answers topic cid).
Proof.
  unfold plan_and_research.
  apply tidy_bind; [apply tidy_get_goal_and_queries | intros [plan pid]].
  apply tidy_bind; [apply tidy_lift | intros goal].
  apply tidy_bind; [apply tidy_lift | intros queries].
  apply tidy_bind; [apply tidy_show | intros _].
  apply tidy_bind; [apply tidy_show | intros _].
  apply tidy_bind; [apply tidy_lift | intros qs].
  apply tidy_bind.
  { apply tidy_for_enumerate. intros i q acc. apply tidy_show. }
  intros _.
  apply tidy_bind; [apply tidy_show | intros _].
  destruct (ui_run_research u); [apply tidy_run_research | apply tidy_ret].
Qed.

Lemma tidy_clarify_and_on u topic : tidy (clarify_and_on rt u topic).
Proof.
  unfold clarify_and_on, answer_fields.
  apply tidy_bind; [apply tidy_show | intros _].
  apply tidy_bind;
    [apply tidy_get_clarifying_questions | intros [questions cid]].
  apply tidy_bind; [apply tidy_show | intros _].
  apply tidy_bind.
  { apply tidy_for_enumerate. intros i q acc.
    apply tidy_bind; [apply tidy_show | intros _]. apply tidy_ret. }
  intros answers.
  destruct (forallb PyStr.truthy answers);
    [apply tidy_plan_and_research | apply tidy_ret].
Qed.

Lemma tidy_app h u : tidy (app rt h u).
Proof.
  unfold app.
  apply tidy_bind; [apply tidy_show | intros _].
  apply tidy_bind; [apply tidy_show | intros _].
  apply tidy_bind; [apply tidy_lift | intros [api_key env]].
  apply tidy_bind.
  { destruct (negb (truthy_opt api_key)); [|apply tidy_ret].
    apply tidy_bind; [apply tidy_show | intros _]. apply tidy_raise. }
  intros _.
  apply tidy_bind; [apply tidy_show | intros _].
  destruct (PyStr.truthy _); [apply tidy_clarify_and_on | apply tidy_ret].
Qed.

End TidyScript.

Lemma orderly_requests_within_calls new :
  orderly new ->
  (length (requests_of new) <= count_marks is_call (marks_of new))%nat
  /\ (length (List.filter (fun m => negb (is_call m)) (marks_of new))
      <= count_marks is_call (marks_of new))%nat.
Proof.
  induction 1 as [|u rest _ IH|unit rest Hunit _ IH].
  - split; reflexivity.
  - exact IH.
  - destruct Hunit as [c inner ret Hinner Hret].
    rewrite requests_of_app, marks_of_app, count_marks_app, List.filter_app,
      !length_app.
    assert (Hunit :
              (length (requests_of (EvCall c :: inner ++ ret)) <= 1)%nat
              /\ count_marks is_call (marks_of (EvCall c :: inner ++ ret)) = 1%nat
              /\ (length (List.filter (fun m => negb (is_call m))
                            (marks_of (EvCall c :: inner ++ ret))) <= 1)%nat).
    { destruct Hinner as [-> | [req ->]]; destruct Hret as [-> | [r ->]];
        cbn; repeat split; lia. }
    lia.
Qed.

(** X11. In every run of the script the trace grows by widget events and
    whole calls of the decorated functions only, and a call holds at most
    one request: the provider is never asked from elsewhere and no call is
    tried twice.  So a run makes at most as many requests as calls, and no
    more returns than calls. *)
Theorem requests_stay_within_calls :
  forall rt h u s r s',
    app rt h u s = (r, s') ->
    exists new,
      trace s' = (trace s ++ new)%list
      /\ orderly new
      /\ (length (requests_of new) <= count_marks is_call (marks_of new))%nat
      /\ (length (List.filter (fun m => negb (is_call m)) (marks_of new))
          <= count_marks is_call (marks_of new))%nat.
Proof.
  intros rt h u s r s' Hrun.
  destruct (tidy_app rt h u s r s' Logic.I Hrun) as (_ & new & Htrace & Horderly).
  exists new. split; [exact Htrace|]. split; [exact Horderly|].
  apply orderly_requests_within_calls, Horderly.
Qed.

Lemma requests_stay_within_calls_witness :
  exists new,
    trace (snd (app Sample.session_runtime Sample.keyed_host Sample.eager_user
                  fresh))
    = (trace fresh ++ new)%list
    /\ orderly new
    /\ (length (requests_of new) <= count_marks is_call (marks_of new))%nat
    /\ (length (List.filter (fun m => negb (is_call m)) (marks_of new))
        <= count_marks is_call (marks_of new))%nat.
Proof.
  apply (requests_stay_within_calls
           Sample.session_runtime Sample.keyed_host Sample.eager_user fresh
           (fst (app Sample.session_runtime Sample.keyed_host Sample.eager_user
                   fresh))).
  apply surjective_pairing.
Defined.

(** ** What the gates of the script hold back *)

(** X12. With a key but without a topic (none submitted now, none held by
    the session; an empty submission changes nothing), a run draws the
    title, the introduction and the form, and ends: no question is asked, no
    request made, no table touched. *)
Theorem without_topic_nothing_is_asked :
  forall rt h u s key env,
    set_api_key_env h = Ok (key, env) ->
    truthy_opt key = true ->
    effective_topic u = "" ->
    exists s',
      app rt h u s = (Ok tt, s')
      /\ trace s'
         = (trace s
              ++ [EvUi (UiTitle "Deep Research Streamlit App");
                  EvUi (UiWrite "This app helps you perform deep research using OpenAI and web search tools.");
                  EvUi UiTopicForm])%list
      /\ tables s' = tables s.
Proof.
  intros rt h u s key env Hkey Htruthy Htopic.
  unfold effective_topic in Htopic.
  eexists. unfold app, bind, show, lift, emit, ret.
  rewrite Hkey, Htruthy. cbn [negb].
  destruct (ui_submitted u && PyStr.truthy (ui_topic u)) eqn:Hsub.
  - rewrite Htopic. cbn [PyStr.truthy trace]. rewrite <- !app_assoc.
    split; [reflexivity|]. split; reflexivity.
  - rewrite Htopic. cbn [PyStr.truthy trace]. rewrite <- !app_assoc.
    split; [reflexivity|]. split; reflexivity.
Qed.

Lemma without_topic_nothing_is_asked_witness :
  exists s',
    app Sample.session_runtime Sample.keyed_host
      (mkUi "" true (Some "") (fun _ => "") true) fresh
    = (Ok tt, s')
    /\ trace s'
       = (trace fresh
            ++ [EvUi (UiTitle "Deep Research Streamlit App");
                EvUi (UiWrite "This app helps you perform deep research using OpenAI and web search tools.");
                EvUi UiTopicForm])%list
    /\ tables s' = tables fresh.
Proof.
  apply (without_topic_nothing_is_asked
           Sample.session_runtime Sample.keyed_host
           (mkUi "" true (Some "") (fun _ => "") true) fresh
           (Some "sk-env") (<["OPENAI_API_KEY" := "sk-env"]> {["OPENAI_API_KEY" := "sk-env"]}));
    vm_compute; reflexivity.
Defined.

Section BeforeTheButton.

Context (rt : runtime).

Lemma emits_before_research_plan u questions answers topic cid :
  ui_run_research u = false ->
  emits before_research (plan_and_research rt u questions answers topic cid).
Proof.
  intros Hbutton. unfold plan_and_research.
  apply emits_bind.
  { unfold get_goal_and_queries, get_goal_and_queries_body.
    apply emits_cached;
      [reflexivity | reflexivity | | reflexivity
       | intros; reflexivity | exact Logic.I].
    intros resp.
    apply (silent_reading_json rt resp (fun plan => (plan, resp_id resp))). }
  intros [plan pid].
  apply emits_bind; [apply emits_lift | intros goal].
  apply emits_bind; [apply emits_lift | intros queries].
  apply emits_bind; [apply emits_show; exact Logic.I | intros _].
  apply emits_bind; [apply emits_show; exact Logic.I | intros _].
  apply emits_bind; [apply emits_lift | intros qs].
  apply emits_bind.
  { apply emits_for_enumerate. intros i q acc. apply emits_show. exact Logic.I. }
  intros _.
  apply emits_bind; [apply emits_show; exact Logic.I | intros _].
  rewrite Hbutton. apply emits_ret.
Qed.

Lemma emits_before_research_app h u :
  ui_run_research u = false ->
  emits before_research (app rt h u).
Proof.
  intros Hbutton. unfold app.
  apply emits_bind; [apply emits_show; exact Logic.I | intros _].
  apply emits_bind; [apply emits_show; exact Logic.I | intros _].
  apply emits_bind; [apply emits_lift | intros [api_key env]].
  apply emits_bind.
  { destruct (negb (truthy_opt api_key)); [|apply emits_ret].
    apply emits_bind; [apply emits_show; exact Logic.I | intros _].
    apply emits_raise. }
  intros _.
  apply emits_bind; [apply emits_show; exact Logic.I | intros _].
  destruct (PyStr.truthy _); [|apply emits_ret].
  unfold clarify_and_on, answer_fields.
  apply emits_bind; [apply emits_show; exact Logic.I | intros _].
  apply emits_bind.
  { unfold get_clarifying_questions, get_clarifying_questions_body.
    apply emits_cached;
      [reflexivity | reflexivity | | reflexivity
       | intros; reflexivity | exact Logic.I].
    intros resp. apply silent_reading_clarify. }
  intros [questions cid].
  apply emits_bind; [apply emits_show; exact Logic.I | intros _].
  apply emits_bind.
  { apply emits_for_enumerate. intros i q acc.
    apply emits_bind; [apply emits_show; exact Logic.I | intros _].
    apply emits_ret. }
  intros answers.
  destruct (forallb PyStr.truthy answers);
    [apply emits_before_research_plan, Hbutton | apply emits_ret].
Qed.

End BeforeTheButton.

Lemma marks_of_Forall (P : event -> Prop) (Q : mark -> Prop) new :
  (forall c, P (EvCall c) -> Q (Called c)) ->
  (forall r, P (EvReturn r) -> Q (Returned r)) ->
  Forall P new -> Forall Q (marks_of new).
Proof.
  intros Hc Hr. induction 1 as [|[c|r|req|w] new He _ IH]; cbn; auto.
Qed.

(** X13. While [Run Research] is not pressed, a run of the script goes no
    further than clarification and planning: it calls no search, no
    evaluation, no expansion and no report, whatever the provider answers
    and whatever is memoised. *)
Theorem without_the_button_no_research :
  forall rt h u s r s',
    ui_run_research u = false ->
    app rt h u s = (r, s') ->
    exists new,
      trace s' = (trace s ++ new)%list
      /\ Forall (fun m => is_research_mark m = false) (marks_of new).
Proof.
  intros rt h u s r s' Hbutton Hrun.
  destruct (emits_before_research_app rt h u Hbutton s r s' Logic.I Hrun)
    as (_ & new & Htrace & Hnew).
  exists new. split; [exact Htrace|].
  apply (marks_of_Forall before_research); auto.
Qed.

Lemma without_the_button_no_research_witness :
  exists new,
    trace (snd (app Sample.session_runtime Sample.keyed_host
                  (mkUi "electric vehicle adoption trends" true None
                     (fun _ => "Europe") false)
                  fresh))
    = (trace fresh ++ new)%list
    /\ Forall (fun m => is_research_mark m = false) (marks_of new).
Proof.
  apply (without_the_button_no_research
           Sample.session_runtime Sample.keyed_host
           (mkUi "electric vehicle adoption trends" true None
              (fun _ => "Europe") false)
           fresh
           (fst (app Sample.session_runtime Sample.keyed_host
                   (mkUi "electric vehicle adoption trends" true None
                      (fun _ => "Europe") false)
                   fresh))).
  - reflexivity.
  - apply surjective_pairing.
Defined.
